(** * Versal PMC TRNG driver: shallow embedding and verified properties

    The development follows the driver source function by function.
    C integers are [Z] with the wrap-around of their width written out,
    byte buffers are [list Z], the instance is a record, the device is a
    log of MMIO events fed by an environment oracle, and driver functions
    live in a small state monad whose outcomes are a normal return, a
    [panic()] or an out-of-bounds access. *)

From Stdlib Require Import ZArith List Bool Lia.
Import ListNotations.
Open Scope Z_scope.

(** ** Machine integers and byte buffers *)

Definition u8 (x : Z) : Z := x mod 256.
Definition u32 (x : Z) : Z := x mod 4294967296.
Definition usize (x : Z) : Z := x mod 18446744073709551616.

(** [~mask] on a 32-bit operand. *)
Definition not32 (m : Z) : Z := Z.lxor 4294967295 (u32 m).

Definition BIT (n : Z) : Z := Z.shiftl 1 n.

(** Array read [a[i]] with a C integer index. *)
Definition rd (a : list Z) (i : Z) : Z := nth (Z.to_nat i) a 0.

(** Array write [a[i] = v]; the callers keep [i] inside the array. *)
Fixpoint wr_nat (a : list Z) (i : nat) (v : Z) : list Z :=
  match a, i with
  | [], _ => []
  | _ :: t, O => v :: t
  | x :: t, S j => x :: wr_nat t j v
  end.

Definition wr (a : list Z) (i : Z) (v : Z) : list Z := wr_nat a (Z.to_nat i) v.

Definition zeros (n : nat) : list Z := repeat 0 n.

(** [load off n mem]: the [n] bytes at [mem + off], or [None] when the
    range leaves the object. *)
Definition load (off n : nat) (mem : list Z) : option (list Z) :=
  if (off + n <=? length mem)%nat then Some (firstn n (skipn off mem)) else None.

(** [store off bs mem]: [memcpy(mem + off, bs, |bs|)], or [None] when the
    range leaves the object. *)
Definition store (off : nat) (bs mem : list Z) : option (list Z) :=
  if (off + length bs <=? length mem)%nat
  then Some (firstn off mem ++ bs ++ skipn (off + length bs) mem)
  else None.

(** [TEE_U32_TO_BIG_ENDIAN(v)] stored through a [uint32_t *]: the four
    bytes that land in memory, most significant first. *)
Definition be32_bytes (v : Z) : list Z :=
  [Z.land (Z.shiftr v 24) 255; Z.land (Z.shiftr v 16) 255;
   Z.land (Z.shiftr v 8) 255; Z.land v 255].

(** A [uint32_t] read back from four bytes of memory (little-endian host). *)
Definition le32_word (b : list Z) : Z :=
  rd b 0 + 256 * rd b 1 + 65536 * rd b 2 + 16777216 * rd b 3.

(** ** Constants of the driver *)

Definition TRNG_STATUS : Z := 0x04.
Definition TRNG_STATUS_QCNT_SHIFT : Z := 9.
Definition TRNG_STATUS_QCNT_MASK : Z := Z.lor (Z.lor (BIT 9) (BIT 10)) (BIT 11).
Definition TRNG_STATUS_CERTF_MASK : Z := BIT 3.
Definition TRNG_STATUS_DTF_MASK : Z := BIT 1.
Definition TRNG_STATUS_DONE_MASK : Z := BIT 0.
Definition TRNG_CTRL : Z := 0x08.
Definition TRNG_CTRL_PERSODISABLE : Z := BIT 10.
Definition TRNG_CTRL_SINGLEGENMODE : Z := BIT 9.
Definition TRNG_CTRL_EUMODE_MASK : Z := BIT 8.
Definition TRNG_CTRL_PRNGMODE_MASK : Z := BIT 7.
Definition TRNG_CTRL_TSTMODE_MASK : Z := BIT 6.
Definition TRNG_CTRL_PRNGSTART_MASK : Z := BIT 5.
Definition TRNG_CTRL_PRNGXS_MASK : Z := BIT 3.
Definition TRNG_CTRL_TRSSEN_MASK : Z := BIT 2.
Definition TRNG_CTRL_PRNGSRST_MASK : Z := BIT 0.

Definition GENMASK_32 (h l : Z) : Z :=
  Z.land (Z.shiftl 4294967295 l) (Z.shiftr 4294967295 (31 - h)).

Definition TRNG_CTRL_2 : Z := 0x0C.
Definition TRNG_CTRL_2_RCTCUTOFF_SHIFT : Z := 8.
Definition TRNG_CTRL_2_RCTCUTOFF_MASK : Z := GENMASK_32 16 8.
Definition TRNG_CTRL_2_RCTCUTOFF_DEFVAL : Z := 0x21.
Definition TRNG_CTRL_2_DIT_SHIFT : Z := 0.
Definition TRNG_CTRL_2_DIT_MASK : Z := GENMASK_32 4 0.
Definition TRNG_CTRL_2_DIT_DEFVAL : Z := 0xC.
Definition TRNG_CTRL_3 : Z := 0x10.
Definition TRNG_CTRL_3_APTCUTOFF_SHIFT : Z := 8.
Definition TRNG_CTRL_3_APTCUTOFF_MASK : Z := GENMASK_32 17 8.
Definition TRNG_CTRL_3_APTCUTOFF_DEFVAL : Z := 0x264.
Definition TRNG_CTRL_3_DLEN_SHIFT : Z := 0.
Definition TRNG_CTRL_3_DLEN_MASK : Z := GENMASK_32 7 0.
Definition TRNG_CTRL_4 : Z := 0x14.
Definition TRNGPSX_DF_NUM_OF_BYTES_BEFORE_MIN_700CLKS_WAIT : Z := 8.
Definition TRNGPSX_PERS_STRING_LEN_IN_WORDS : Z := 12.
Definition TRNGPSX_WORD_LEN_IN_BYTES : Z := 4.
Definition TRNGPSX_BYTE_LEN_IN_BITS : Z := 8.
Definition TRNG_PER_STRNG_11 : Z := 0xAC.
Definition TRNGPSX_DF_2CLKS_WAIT : Z := 2.
Definition TRNGPSX_BLOCK_LEN_IN_BYTES : Z := 16.
Definition TRNGPSX_DF_700CLKS_WAIT : Z := 10.
Definition TRNG_CTRL_PERSODISABLE_MASK : Z := 0x400.
Definition TRNG_CTRL_PERSODISABLE_DEFVAL : Z := 0x0.

Definition TRNG_EXT_SEED_0 : Z := 0x40.
Definition TRNG_PER_STRING_0 : Z := 0x80.
Definition TRNG_CORE_OUTPUT : Z := 0xC0.
Definition TRNG_RESET : Z := 0xD0.
Definition TRNG_RESET_VAL_MASK : Z := BIT 0.
Definition TRNG_OSC_EN : Z := 0xD4.
Definition TRNG_OSC_EN_VAL_MASK : Z := BIT 0.

Definition TRNG_BURST_SIZE : Z := 16.
Definition TRNG_BURST_SIZE_BITS : Z := 128.
Definition TRNG_NUM_INIT_REGS : Z := 12.
Definition TRNG_REG_SIZE : Z := 32.
Definition TRNG_BYTES_PER_REG : Z := 4.
Definition TRNG_MAX_QCNT : Z := 4.
Definition TRNG_GENERATE_TIMEOUT : Z := 8000.
Definition TRNG_RESEED_TIMEOUT : Z := 1500000.
Definition TRNG_MIN_DFLENMULT : Z := 2.
Definition TRNG_MAX_DFLENMULT : Z := 9.
Definition PRNGMODE_RESEED : Z := 0.
Definition PRNGMODE_GEN : Z := TRNG_CTRL_PRNGMODE_MASK.
Definition RESET_DELAY : Z := 10.
Definition TRNG_SEC_STRENGTH_LEN : Z := 32.
Definition TRNG_SEED_REGS : Z := 12.
Definition TRNG_GEN_LEN : Z := 32.
Definition BYTES_PER_BLOCK : Z := 16.
Definition ALL_A_PATTERN_32 : Z := 0xAAAAAAAA.
Definition ALL_5_PATTERN_32 : Z := 0x55555555.

(** Modelled from the spec: the driver header [drivers/versal_trng.h] is
    not among the sources.  The spec fixes the 48-byte seed and
    personalization string, the twelve registers of each bank, the
    16-byte cipher block, the 32-byte derivation key, the [0x80] pad
    marker, a key schedule of [16 * (rounds + 1)] bytes (240 in
    [setup_key], hence 14 rounds) and a working buffer for the four
    words of the last 16-byte burst. *)
Definition TRNG_SEED_LEN : Z := 48.
Definition TRNG_PERS_STR_LEN : Z := 48.
Definition TRNG_PERS_STR_REGS : Z := 12.
Definition BLK_SIZE : Z := 16.
Definition MAX_ROUNDS : Z := 14.
Definition DF_KEY_LEN : Z := 32.
Definition DF_PAD_VAL : Z := 0x80.
Definition RAND_BUF_LEN : nat := 4.

(** ** Block cipher of the derivation function *)

Definition sb : list Z :=
  [0x63; 0x7c; 0x77; 0x7b; 0xf2; 0x6b; 0x6f; 0xc5;
   0x30; 0x01; 0x67; 0x2b; 0xfe; 0xd7; 0xab; 0x76;
   0xca; 0x82; 0xc9; 0x7d; 0xfa; 0x59; 0x47; 0xf0;
   0xad; 0xd4; 0xa2; 0xaf; 0x9c; 0xa4; 0x72; 0xc0;
   0xb7; 0xfd; 0x93; 0x26; 0x36; 0x3f; 0xf7; 0xcc;
   0x34; 0xa5; 0xe5; 0xf1; 0x71; 0xd8; 0x31; 0x15;
   0x04; 0xc7; 0x23; 0xc3; 0x18; 0x96; 0x05; 0x9a;
   0x07; 0x12; 0x80; 0xe2; 0xeb; 0x27; 0xb2; 0x75;
   0x09; 0x83; 0x2c; 0x1a; 0x1b; 0x6e; 0x5a; 0xa0;
   0x52; 0x3b; 0xd6; 0xb3; 0x29; 0xe3; 0x2f; 0x84;
   0x53; 0xd1; 0x00; 0xed; 0x20; 0xfc; 0xb1; 0x5b;
   0x6a; 0xcb; 0xbe; 0x39; 0x4a; 0x4c; 0x58; 0xcf;
   0xd0; 0xef; 0xaa; 0xfb; 0x43; 0x4d; 0x33; 0x85;
   0x45; 0xf9; 0x02; 0x7f; 0x50; 0x3c; 0x9f; 0xa8;
   0x51; 0xa3; 0x40; 0x8f; 0x92; 0x9d; 0x38; 0xf5;
   0xbc; 0xb6; 0xda; 0x21; 0x10; 0xff; 0xf3; 0xd2;
   0xcd; 0x0c; 0x13; 0xec; 0x5f; 0x97; 0x44; 0x17;
   0xc4; 0xa7; 0x7e; 0x3d; 0x64; 0x5d; 0x19; 0x73;
   0x60; 0x81; 0x4f; 0xdc; 0x22; 0x2a; 0x90; 0x88;
   0x46; 0xee; 0xb8; 0x14; 0xde; 0x5e; 0x0b; 0xdb;
   0xe0; 0x32; 0x3a; 0x0a; 0x49; 0x06; 0x24; 0x5c;
   0xc2; 0xd3; 0xac; 0x62; 0x91; 0x95; 0xe4; 0x79;
   0xe7; 0xc8; 0x37; 0x6d; 0x8d; 0xd5; 0x4e; 0xa9;
   0x6c; 0x56; 0xf4; 0xea; 0x65; 0x7a; 0xae; 0x08;
   0xba; 0x78; 0x25; 0x2e; 0x1c; 0xa6; 0xb4; 0xc6;
   0xe8; 0xdd; 0x74; 0x1f; 0x4b; 0xbd; 0x8b; 0x8a;
   0x70; 0x3e; 0xb5; 0x66; 0x48; 0x03; 0xf6; 0x0e;
   0x61; 0x35; 0x57; 0xb9; 0x86; 0xc1; 0x1d; 0x9e;
   0xe1; 0xf8; 0x98; 0x11; 0x69; 0xd9; 0x8e; 0x94;
   0x9b; 0x1e; 0x87; 0xe9; 0xce; 0x55; 0x28; 0xdf;
   0x8c; 0xa1; 0x89; 0x0d; 0xbf; 0xe6; 0x42; 0x68;
   0x41; 0x99; 0x2d; 0x0f; 0xb0; 0x54; 0xbb; 0x16].

(** The file-scope variables of the cipher: the three substitution
    tables, the key schedule, the round count and the [df_init] flag of
    [trng_df_algorithm]. *)
Record df_globals := mk_df_globals {
  sbx1 : list Z;
  sbx2 : list Z;
  sbx3 : list Z;
  schedule : list Z;
  rounds : Z;
  df_init : bool
}.

(** Static storage starts zeroed. *)
Definition df_globals_zero : df_globals :=
  mk_df_globals (zeros 256) (zeros 256) (zeros 256)
                (zeros (Z.to_nat (BLK_SIZE * (MAX_ROUNDS + 1)))) 0 false.

Definition set_schedule (g : df_globals) (sch : list Z) (r : Z) : df_globals :=
  mk_df_globals (sbx1 g) (sbx2 g) (sbx3 g) sch r (df_init g).

(** [rota4(&a, &b, &c, &d)] on four cells of one array. *)
Definition rota4 (g : df_globals) (f : list Z) (a b c d : Z) : list Z :=
  let t := rd f a in
  let f := wr f a (rd (sbx1 g) (rd f b)) in
  let f := wr f b (rd (sbx1 g) (rd f c)) in
  let f := wr f c (rd (sbx1 g) (rd f d)) in
  wr f d (rd (sbx1 g) t).

Definition rota2 (g : df_globals) (f : list Z) (a b : Z) : list Z :=
  let t := rd f a in
  let f := wr f a (rd (sbx1 g) (rd f b)) in
  wr f b (rd (sbx1 g) t).

Definition sbox4 (g : df_globals) (f : list Z) (a b c d : Z) : list Z :=
  let f := wr f a (rd (sbx1 g) (rd f a)) in
  let f := wr f b (rd (sbx1 g) (rd f b)) in
  let f := wr f c (rd (sbx1 g) (rd f c)) in
  wr f d (rd (sbx1 g) (rd f d)).

(** [xorb(res, in)]: [res[i] ^= in[i]] for the 16 bytes of a block;
    [inp] is the memory at the source pointer. *)
Definition xorb (res inp : list Z) : list Z :=
  map (fun i => Z.lxor (rd res (Z.of_nat i)) (rd inp (Z.of_nat i)))
      (seq 0 (Z.to_nat BLK_SIZE)).

(** [set_key(res, src, roundval)]: copy a block, then add the round key. *)
Definition set_key (g : df_globals) (src : list Z) (roundval : Z) : list Z :=
  xorb src (skipn (Z.to_nat (roundval * BLK_SIZE)) (schedule g)).

Definition mix_column_sbox_col (g : df_globals) (f : list Z) (i : Z) : list Z :=
  let a := 4 * i in
  let b := (0x5 + a) mod 16 in
  let c := (0xa + a) mod 16 in
  let d := (0xf + a) mod 16 in
  let s1 x := rd (sbx1 g) (rd f x) in
  let s2 x := rd (sbx2 g) (rd f x) in
  let s3 x := rd (sbx3 g) (rd f x) in
  [Z.lxor (Z.lxor (Z.lxor (s2 a) (s3 b)) (s1 c)) (s1 d);
   Z.lxor (Z.lxor (Z.lxor (s1 a) (s2 b)) (s3 c)) (s1 d);
   Z.lxor (Z.lxor (Z.lxor (s1 a) (s1 b)) (s2 c)) (s3 d);
   Z.lxor (Z.lxor (Z.lxor (s3 a) (s1 b)) (s1 c)) (s2 d)].

(** [mix_column_sbox(dst, f)]: column [i] fills [dst[4i .. 4i+3]]. *)
Definition mix_column_sbox (g : df_globals) (f : list Z) : list Z :=
  mix_column_sbox_col g f 0 ++ mix_column_sbox_col g f 1 ++
  mix_column_sbox_col g f 2 ++ mix_column_sbox_col g f 3.

Definition shift_row_sbox (g : df_globals) (f : list Z) : list Z :=
  let f := sbox4 g f 0 4 8 12 in
  let f := rota4 g f 1 5 9 13 in
  let f := rota2 g f 2 10 in
  let f := rota2 g f 6 14 in
  rota4 g f 15 11 7 3.

(** The round loop of [encrypt]: [n] iterations left, starting at
    [roundval]. *)
Fixpoint encrypt_rounds (g : df_globals) (n : nat) (roundval : Z)
    (fa : list Z) : list Z :=
  match n with
  | O => fa
  | S n' =>
      let fb := mix_column_sbox g fa in
      encrypt_rounds g n' (roundval + 1) (set_key g fb roundval)
  end.

(** [encrypt(in, out)]: the block written to [out].  The loop runs for
    [roundval = 1 .. rounds - 1] and leaves [roundval] at
    [max 1 rounds]. *)
Definition encrypt (g : df_globals) (inp : list Z) : list Z :=
  let fa := set_key g inp 0 in
  let fa := encrypt_rounds g (Z.to_nat (rounds g - 1)) 1 fa in
  let fa := shift_row_sbox g fa in
  set_key g fa (Z.max 1 (rounds g)).

(** [checksum(in, iv, max_blk)]: CBC-MAC chain over [max_blk] blocks of
    the memory at [in]; returns the final [iv]. *)
Fixpoint checksum (g : df_globals) (inp iv : list Z) (max_blk : nat) : list Z :=
  match max_blk with
  | O => iv
  | S n =>
      let iv := xorb iv inp in
      let iv := encrypt g iv in
      checksum g (skipn (Z.to_nat BLK_SIZE) inp) iv n
  end.

(** One iteration of the key-expansion loop of [setup_key] at index [i]. *)
Definition setup_key_step (g : df_globals) (klen i rcon : Z) (sch : list Z)
    : Z * list Z :=
  let t := [rd sch (i - 4); rd sch (i - 3); rd sch (i - 2); rd sch (i - 1)] in
  let '(t, rcon) :=
    if i mod klen =? 0 then
      let t := rota4 g t 0 1 2 3 in
      let t := wr t 0 (Z.lxor (rd t 0) rcon) in
      (t, u8 (Z.lxor (Z.shiftl rcon 1) (Z.land (Z.shiftr rcon 7) 1 * 0x1B)))
    else if i mod klen =? 16 then (sbox4 g t 0 1 2 3, rcon)
    else (t, rcon) in
  let ik := i - klen in
  let sch := wr sch (i + 0) (Z.lxor (rd sch (ik + 0)) (rd t 0)) in
  let sch := wr sch (i + 1) (Z.lxor (rd sch (ik + 1)) (rd t 1)) in
  let sch := wr sch (i + 2) (Z.lxor (rd sch (ik + 2)) (rd t 2)) in
  let sch := wr sch (i + 3) (Z.lxor (rd sch (ik + 3)) (rd t 3)) in
  (rcon, sch).

Fixpoint setup_key_loop (g : df_globals) (n : nat) (klen i rcon : Z)
    (sch : list Z) : list Z :=
  match n with
  | O => sch
  | S n' =>
      let '(rcon, sch) := setup_key_step g klen i rcon sch in
      setup_key_loop g n' klen (i + 4) rcon sch
  end.

(** [setup_key(k, klen)]: sets [rounds] and expands [k] into [schedule];
    the loop runs for [i = klen, klen + 4, ... < 240]. *)
Definition setup_key (g : df_globals) (k : list Z) (klen : Z) : df_globals :=
  let sch_size := 240 in
  let sch := firstn (Z.to_nat klen) k
             ++ skipn (Z.to_nat klen) (schedule g) in
  let iters := Z.to_nat ((sch_size - klen + 3) / 4) in
  set_schedule g (setup_key_loop g iters klen klen 1 sch) MAX_ROUNDS.

(** [trng_df_init()]: fills the three tables from the base s-box. *)
Definition trng_df_init (g : df_globals) : df_globals :=
  let s2 := map (fun s => u8 (Z.lxor (Z.shiftl s 1)
                                     (Z.land (Z.shiftr s 7) 1 * 0x1B))) sb in
  let s3 := map (fun p => Z.lxor (fst p) (snd p)) (combine s2 sb) in
  mk_df_globals sb s2 s3 (schedule g) (rounds g) (df_init g).

Definition df_key : list Z := map Z.of_nat (seq 0 32).

(** ** Data model *)

(** [TRNG_MODE_OTHER] stands for any value of the enumeration's integer
    type that is none of the three enumerators. *)
Inductive trng_mode := TRNG_HRNG | TRNG_DRNG | TRNG_PTRNG | TRNG_MODE_OTHER.

(** ** Build configuration

    Modelled from the spec: the header that declares [struct trng_dfin],
    the statistics counters and the enumerations is not among the
    sources, and the spec leaves the sizes below open, so they are taken
    as parameters: the number of 32-bit words of the [ivc] field, the
    sizes of the [entropy] and [pad_data] fields, the width of the
    statistics counters and of [seed_life], and the mode enumerator whose
    value is 0 (what [memset] leaves in [usr_cfg.mode]).  The
    preprocessor switch [CFG_VERSAL_RNG_DRV_V2] is a parameter as well. *)
Class build := mk_build {
  DF_IP_IV_LEN : Z;
  MAX_PRE_DF_LEN : Z;
  DF_PAD_DATA_LEN : Z;
  STAT_BITS : Z;
  TRNG_MODE_ZERO : trng_mode;
  CFG_VERSAL_RNG_DRV_V2 : bool
}.

Inductive trng_version := TRNG_V1 | TRNG_V2 | TRNG_VERSION_OTHER.

Inductive trng_status :=
  TRNG_UNINITIALIZED | TRNG_HEALTHY | TRNG_ERROR | TRNG_CATASTROPHIC.

Inductive TEE_Result := TEE_SUCCESS | TEE_ERROR_GENERIC.

Inductive df_flag := DF_SEED | DF_RAND.

Definition mode_eqb (a b : trng_mode) : bool :=
  match a, b with
  | TRNG_HRNG, TRNG_HRNG | TRNG_DRNG, TRNG_DRNG
  | TRNG_PTRNG, TRNG_PTRNG | TRNG_MODE_OTHER, TRNG_MODE_OTHER => true
  | _, _ => false
  end.

Definition status_eqb (a b : trng_status) : bool :=
  match a, b with
  | TRNG_UNINITIALIZED, TRNG_UNINITIALIZED | TRNG_HEALTHY, TRNG_HEALTHY
  | TRNG_ERROR, TRNG_ERROR | TRNG_CATASTROPHIC, TRNG_CATASTROPHIC => true
  | _, _ => false
  end.

Definition version_eqb (a b : trng_version) : bool :=
  match a, b with
  | TRNG_V1, TRNG_V1 | TRNG_V2, TRNG_V2
  | TRNG_VERSION_OTHER, TRNG_VERSION_OTHER => true
  | _, _ => false
  end.

(** A [TEE_Result] used as a C condition: non-zero is an error. *)
Definition failed (r : TEE_Result) : bool :=
  match r with TEE_SUCCESS => false | TEE_ERROR_GENERIC => true end.

Record trng_cfg := mk_cfg {
  base : Z;
  addr : Z;
  maplen : Z;
  version : trng_version
}.

Record trng_usr_cfg := mk_usr_cfg {
  mode : trng_mode;
  seed_life : Z;
  predict_en : bool;
  pstr_en : bool;
  iseed_en : bool;
  dfmul : Z;
  init_seed : list Z;
  pstr : list Z;
  df_disable : bool
}.

Record trng_stats := mk_stats {
  bytes : Z;
  bytes_reseed : Z;
  elapsed_seed_life : Z
}.

(** [dfin] is [struct trng_dfin] as the flat bytes the cipher reads:
    [ivc], [val1], [val2], [entropy], [pstr], [pad_data] in this order.
    [buf] holds the four words of the last burst. *)
Record versal_trng := mk_trng {
  cfg : trng_cfg;
  usr_cfg : trng_usr_cfg;
  dfin : list Z;
  dfout : list Z;
  status : trng_status;
  buf : list Z;
  len : Z;
  stats : trng_stats
}.

(** ** The device and the driver monad *)

Inductive event :=
| EvRead (a v : Z)
| EvWrite (a v : Z)
| EvDelay (us : Z).

(** The device as the driver sees it.  [dev_read k a] is what the [k]-th
    [io_read32] of the run returns when it reads address [a];
    [dev_polls k] is how many times [timeout_elapsed] answers false
    during the [k]-th timed wait before the deadline has passed.  [log]
    records the accesses, newest first. *)
Record hw := mk_hw {
  dev_read : nat -> Z -> Z;
  dev_polls : nat -> nat;
  nread : nat;
  nwait : nat;
  log : list event
}.

Record state := mk_state {
  inst : versal_trng;
  dev : hw;
  glob : df_globals
}.

(** How a call ends: it returns, it reaches [panic()], or it accesses
    memory outside the object a pointer refers to. *)
Inductive outcome (A : Type) :=
| Ok (a : A) (s : state)
| Panic (s : state)
| Fault (s : state).

Arguments Ok {A} a s.
Arguments Panic {A} s.
Arguments Fault {A} s.

Definition M (A : Type) : Type := state -> outcome A.

Definition ret {A} (a : A) : M A := fun s => Ok a s.

Definition bind {A B} (m : M A) (k : A -> M B) : M B :=
  fun s =>
    match m s with
    | Ok a s' => k a s'
    | Panic s' => Panic s'
    | Fault s' => Fault s'
    end.

Notation "x <- m ;; k" := (bind m (fun x => k))
  (at level 61, m at next level, right associativity).
Notation "m ;; k" := (bind m (fun _ => k))
  (at level 61, right associativity).

Definition panic {A} : M A := fun s => Panic s.
Definition fault {A} : M A := fun s => Fault s.

(** The state a call leaves behind, however it ends. *)
Definition final {A} (o : outcome A) : state :=
  match o with Ok _ s | Panic s | Fault s => s end.

Definition get_inst : M versal_trng := fun s => Ok (inst s) s.

Definition upd_inst (f : versal_trng -> versal_trng) : M unit :=
  fun s => Ok tt (mk_state (f (inst s)) (dev s) (glob s)).

Definition get_glob : M df_globals := fun s => Ok (glob s) s.

Definition put_glob (g : df_globals) : M unit :=
  fun s => Ok tt (mk_state (inst s) (dev s) g).

(** A checked memory access lifted to the monad. *)
Definition checked {A} (o : option A) : M A :=
  match o with Some a => ret a | None => fault end.

(** [for (i = i0; n iterations; i++) a = body(i, a)]. *)
Fixpoint for_loop {A} (n : nat) (i : Z) (body : Z -> A -> M A) (a : A) : M A :=
  match n with
  | O => ret a
  | S n' => a' <- body i a ;; for_loop n' (i + 1) body a'
  end.

Definition set_usr_cfg (u : trng_usr_cfg) (t : versal_trng) : versal_trng :=
  mk_trng (cfg t) u (dfin t) (dfout t) (status t) (buf t) (len t) (stats t).
Definition set_dfin (d : list Z) (t : versal_trng) : versal_trng :=
  mk_trng (cfg t) (usr_cfg t) d (dfout t) (status t) (buf t) (len t) (stats t).
Definition set_dfout (d : list Z) (t : versal_trng) : versal_trng :=
  mk_trng (cfg t) (usr_cfg t) (dfin t) d (status t) (buf t) (len t) (stats t).
Definition set_status (x : trng_status) (t : versal_trng) : versal_trng :=
  mk_trng (cfg t) (usr_cfg t) (dfin t) (dfout t) x (buf t) (len t) (stats t).
Definition set_buf (b : list Z) (t : versal_trng) : versal_trng :=
  mk_trng (cfg t) (usr_cfg t) (dfin t) (dfout t) (status t) b (len t) (stats t).
Definition set_len (n : Z) (t : versal_trng) : versal_trng :=
  mk_trng (cfg t) (usr_cfg t) (dfin t) (dfout t) (status t) (buf t) n (stats t).
Definition set_stats (x : trng_stats) (t : versal_trng) : versal_trng :=
  mk_trng (cfg t) (usr_cfg t) (dfin t) (dfout t) (status t) (buf t) (len t) x.

(** *** MMIO primitives

    Modelled from the spec: [io_read32], [io_write32], [io_clrsetbits32],
    [udelay], [timeout_init_us] and [timeout_elapsed] belong to the
    platform (spec section 1: MMIO mapping and udelay are external
    collaborators; section 4.3: read, read-modify-write, timed poll). *)
Definition io_read32 (a : Z) : M Z :=
  fun s =>
    let h := dev s in
    let v := u32 (dev_read h (nread h) a) in
    Ok v (mk_state (inst s)
            (mk_hw (dev_read h) (dev_polls h) (S (nread h)) (nwait h)
                   (EvRead a v :: log h))
            (glob s)).

Definition io_write32 (a v : Z) : M unit :=
  fun s =>
    let h := dev s in
    Ok tt (mk_state (inst s)
             (mk_hw (dev_read h) (dev_polls h) (nread h) (nwait h)
                    (EvWrite a v :: log h))
             (glob s)).

Definition udelay (us : Z) : M unit :=
  fun s =>
    let h := dev s in
    Ok tt (mk_state (inst s)
             (mk_hw (dev_read h) (dev_polls h) (nread h) (nwait h)
                    (EvDelay us :: log h))
             (glob s)).

Definition io_clrsetbits32 (a clear_mask set_mask : Z) : M unit :=
  v <- io_read32 a ;;
  io_write32 a (Z.lor (Z.land v (not32 clear_mask)) set_mask).

(** [timeout_init_us]: opens the next timed wait and returns the number
    of polls that fit before its deadline. *)
Definition timeout_init_us (time_out : Z) : M nat :=
  fun s =>
    let h := dev s in
    Ok (dev_polls h (nwait h))
       (mk_state (inst s)
          (mk_hw (dev_read h) (dev_polls h) (nread h) (S (nwait h)) (log h))
          (glob s)).

(** *** Register wrappers *)

Definition trng_read32 (addr off : Z) : M Z := io_read32 (addr + off).

Definition trng_write32 (addr off val : Z) : M unit := io_write32 (addr + off) val.

Definition trng_write32_v2 (addr mask value : Z) : M Z :=
  val <- io_read32 addr ;;
  let val := Z.lor (Z.land val (not32 mask)) (Z.land mask value) in
  io_write32 addr val ;;
  regval <- io_read32 addr ;;
  let regval := Z.land regval mask in
  if regval =? Z.land mask value then ret 0 else ret 1.

Definition trng_clrset32 (addr off mask val : Z) : M unit :=
  io_clrsetbits32 (addr + off) mask (Z.land mask val).

(** The big-endian word assembled from the four bytes [bs]:
    [val = (val << 8) | b], starting from 0. *)
Definition pack_word (bs : list Z) : Z :=
  fold_left (fun val b => Z.lor (u32 (Z.shiftl val 8)) b) bs 0.

Definition trng_write_perstr (perstr : list Z) : M Z :=
  t <- get_inst ;;
  for_loop (Z.to_nat TRNGPSX_PERS_STRING_LEN_IN_WORDS) 0
    (fun idx _ =>
       bs <- checked (load (Z.to_nat (idx * TRNGPSX_WORD_LEN_IN_BYTES))
                           (Z.to_nat TRNGPSX_WORD_LEN_IN_BYTES) perstr) ;;
       trng_write32 (addr (cfg t))
                    (TRNG_PER_STRNG_11 - idx * TRNGPSX_WORD_LEN_IN_BYTES)
                    (pack_word bs)) tt ;;
  ret 0.

(** The inner loop of [trng_write_seed] for one source byte [b]: writes
    the eight bits to [CTRL_4], most significant first, and returns
    [seed_construct]. *)
Definition write_seed_bits (a : Z) (b : Z) : M Z :=
  for_loop (Z.to_nat TRNGPSX_BYTE_LEN_IN_BITS) 0
    (fun cnt seed_construct =>
       let bit := Z.land (Z.shiftr b (TRNGPSX_BYTE_LEN_IN_BITS - 1 - cnt)) 1 in
       trng_write32 a TRNG_CTRL_4 bit ;;
       ret (u8 (Z.lor (Z.shiftl seed_construct 1) (u8 bit)))) 0.

(** The [while (idx < seed_len)] loop of [trng_write_seed], [n] bytes
    left; returns [false] when it leaves through [goto END]. *)
Fixpoint write_seed_loop (a : Z) (seed : list Z) (n : nat) (idx : Z) : M bool :=
  match n with
  | O => ret true
  | S n' =>
      bs <- checked (load (Z.to_nat idx) 1 seed) ;;
      let b := rd bs 0 in
      seed_construct <- write_seed_bits a b ;;
      if negb (seed_construct =? b) then ret false
      else
        udelay TRNGPSX_DF_2CLKS_WAIT ;;
        (if idx mod TRNGPSX_DF_NUM_OF_BYTES_BEFORE_MIN_700CLKS_WAIT =? 0
         then udelay TRNGPSX_DF_700CLKS_WAIT else ret tt) ;;
        write_seed_loop a seed n' (idx + 1)
  end.

(** [trng_write_seed(trng, seed, dlen)]; [dlen] is a [uint8_t]. *)
Definition trng_write_seed (seed : list Z) (dlen : Z) : M Z :=
  t <- get_inst ;;
  let seed_len := u32 ((u8 dlen + 1) * TRNGPSX_BLOCK_LEN_IN_BYTES) in
  completed <- write_seed_loop (addr (cfg t)) seed (Z.to_nat seed_len) 0 ;;
  if completed then ret 0 else ret 1.

(** [trng_write32_range]: a NULL [buf] zeroes the registers in
    ascending order, a buffer is packed big-endian and written in
    reverse register order. *)
Definition trng_write32_range (start num_regs : Z) (buf : option (list Z)) : M unit :=
  t <- get_inst ;;
  for_loop (Z.to_nat num_regs) 0
    (fun i _ =>
       match buf with
       | None =>
           trng_write32 (addr (cfg t)) (start + i * TRNG_BYTES_PER_REG) 0
       | Some b =>
           bs <- checked (load (Z.to_nat (i * TRNG_BYTES_PER_REG))
                               (Z.to_nat TRNG_BYTES_PER_REG) b) ;;
           trng_write32 (addr (cfg t))
             (start + (TRNG_NUM_INIT_REGS - 1 - i) * TRNG_BYTES_PER_REG)
             (pack_word bs)
       end) tt.

(** The [do ... while] of [trng_wait_for_event] with [n] polls left
    before [timeout_elapsed] turns true. *)
Fixpoint poll_loop (a mask event : Z) (n : nat) : M unit :=
  match n with
  | O => ret tt
  | S n' =>
      v <- io_read32 a ;;
      if negb (Z.land v mask =? event) then poll_loop a mask event n'
      else ret tt
  end.

Definition trng_wait_for_event (addr off mask event time_out : Z) : M TEE_Result :=
  tref <- timeout_init_us time_out ;;
  poll_loop (addr + off) mask event tref ;;
  v <- io_read32 (addr + off) ;;
  if negb (Z.land v mask =? event) then ret TEE_ERROR_GENERIC
  else ret TEE_SUCCESS.

Definition trng_soft_reset : M unit :=
  t <- get_inst ;;
  trng_clrset32 (addr (cfg t)) TRNG_CTRL TRNG_CTRL_PRNGSRST_MASK
                TRNG_CTRL_PRNGSRST_MASK ;;
  udelay RESET_DELAY ;;
  trng_clrset32 (addr (cfg t)) TRNG_CTRL TRNG_CTRL_PRNGSRST_MASK 0.

Definition trng_reset : M unit :=
  t <- get_inst ;;
  trng_write32 (addr (cfg t)) TRNG_RESET TRNG_RESET_VAL_MASK ;;
  udelay RESET_DELAY ;;
  trng_write32 (addr (cfg t)) TRNG_RESET 0 ;;
  trng_soft_reset.

Definition trng_hold_reset : M unit :=
  t <- get_inst ;;
  trng_clrset32 (addr (cfg t)) TRNG_CTRL TRNG_CTRL_PRNGSRST_MASK
                TRNG_CTRL_PRNGSRST_MASK ;;
  trng_write32 (addr (cfg t)) TRNG_RESET TRNG_RESET_VAL_MASK ;;
  udelay RESET_DELAY.

(** [trng_check_seed(entropy, len)]: scans [len / 4] words of the
    memory at [entropy]. *)
Fixpoint check_seed_loop (entropy : list Z) (n : nat) : TEE_Result :=
  match n with
  | O => TEE_SUCCESS
  | S n' =>
      let p := le32_word entropy in
      if p =? ALL_A_PATTERN_32 then TEE_ERROR_GENERIC
      else if p =? ALL_5_PATTERN_32 then TEE_ERROR_GENERIC
      else check_seed_loop (skipn 4 entropy) n'
  end.

Definition trng_check_seed (entropy : list Z) (len : Z) : TEE_Result :=
  check_seed_loop entropy (Z.to_nat (u32 len / 4)).

Section Driver.

Context {B : build}.

(** *** Layout of [struct trng_dfin] *)

Definition DFIN_VAL1_OFF : Z := 4 * DF_IP_IV_LEN.
Definition DFIN_VAL2_OFF : Z := 4 * DF_IP_IV_LEN + 4.
Definition DFIN_ENTROPY_OFF : Z := 4 * DF_IP_IV_LEN + 8.
Definition DFIN_PSTR_OFF : Z := DFIN_ENTROPY_OFF + MAX_PRE_DF_LEN.
Definition DFIN_PAD_OFF : Z := DFIN_PSTR_OFF + TRNG_PERS_STR_LEN.
Definition SIZEOF_DFIN : Z := DFIN_PAD_OFF + DF_PAD_DATA_LEN.

(** The statistics counters wrap at their width. *)
Definition ustat (x : Z) : Z := x mod 2 ^ STAT_BITS.

(** What [memset(&trng->usr_cfg, 0, sizeof(trng->usr_cfg))] leaves. *)
Definition usr_cfg_zero (u : trng_usr_cfg) : trng_usr_cfg :=
  mk_usr_cfg TRNG_MODE_ZERO 0 false false false 0
             (zeros (length (init_seed u))) (zeros (length (pstr u))) false.

(** A store into [trng->dfin] at byte offset [off]. *)
Definition dfin_store (off : Z) (bs : list Z) : M unit :=
  t <- get_inst ;;
  d <- checked (store (Z.to_nat off) bs (dfin t)) ;;
  upd_inst (set_dfin d).

Definition dfout_store (off : Z) (bs : list Z) : M unit :=
  t <- get_inst ;;
  d <- checked (store (Z.to_nat off) bs (dfout t)) ;;
  upd_inst (set_dfout d).

(** ** Derivation function *)

(** The object the [dfout] argument of [trng_df_algorithm] points to:
    the instance's own [trng->dfout], or a buffer of the caller. *)
Inductive out_ptr :=
| AtInstDfout
| AtBuffer (b : list Z).

Definition out_load (p : out_ptr) (off n : Z) : M (list Z) :=
  match p with
  | AtInstDfout =>
      t <- get_inst ;; checked (load (Z.to_nat off) (Z.to_nat n) (dfout t))
  | AtBuffer b => checked (load (Z.to_nat off) (Z.to_nat n) b)
  end.

Definition out_store (p : out_ptr) (off : Z) (bs : list Z) : M out_ptr :=
  match p with
  | AtInstDfout => dfout_store off bs ;; ret AtInstDfout
  | AtBuffer b =>
      b' <- checked (store (Z.to_nat off) bs b) ;; ret (AtBuffer b')
  end.

(** The packing decisions of [trng_df_algorithm]: from [trng->len] and
    the presence of a personalization string to
    [(dfin_len, val1, xfer_len, src, offset)], with [src] relative to the
    start of [trng->dfin]; [None] is the [panic()] of the length guard. *)
Definition df_pack_params (len : Z) (has_pstr : bool)
    : option (Z * Z * Z * Z * Z) :=
  let dfin_len := usize (SIZEOF_DFIN + len) in
  if negb has_pstr then
    if len >? MAX_PRE_DF_LEN + TRNG_PERS_STR_LEN then None
    else Some (usize (usize (dfin_len - TRNG_PERS_STR_LEN) - MAX_PRE_DF_LEN),
               u32 len,
               DF_PAD_DATA_LEN,
               DFIN_PAD_OFF,
               usize (MAX_PRE_DF_LEN + TRNG_PERS_STR_LEN - len))
  else
    if len >? MAX_PRE_DF_LEN then None
    else Some (usize (dfin_len - MAX_PRE_DF_LEN),
               u32 (len + TRNG_PERS_STR_LEN),
               DF_PAD_DATA_LEN + TRNG_PERS_STR_LEN,
               DFIN_PSTR_OFF,
               usize (MAX_PRE_DF_LEN - len)).

(** "Move back into the dfin structure": the guarded [memcpy] of
    [xfer_len] bytes from [src] to [src - offset] and the [memset] of the
    freed tail. *)
Definition df_shift (xfer_len src offset : Z) : M unit :=
  let dst := src - offset in
  let reminder := SIZEOF_DFIN - offset in
  if negb (offset =? 0) then
    if xfer_len >? offset then panic
    else
      t <- get_inst ;;
      bs <- checked (load (Z.to_nat src) (Z.to_nat xfer_len) (dfin t)) ;;
      dfin_store dst bs ;;
      dfin_store reminder (zeros (Z.to_nat offset))
  else ret tt.

(** Step 1 at output offset [index]: zero the target block, set the
    counter, run the CBC-MAC over the formatted input. *)
Definition df_step1 (dfin_len : Z) (index : Z) (_ : unit) : M unit :=
  dfout_store index (zeros (Z.to_nat BLK_SIZE)) ;;
  dfin_store 0 (be32_bytes (u32 (index / BLK_SIZE))) ;;
  t <- get_inst ;;
  g <- get_glob ;;
  iv <- checked (load (Z.to_nat index) (Z.to_nat BLK_SIZE) (dfout t)) ;;
  dfout_store index (checksum g (dfin t) iv (Z.to_nat (dfin_len / BLK_SIZE))).

(** Step 2 at output offset [index]: encrypt the previous block of the
    [dfout] argument (the last one for [index = 0]) into block [index]. *)
Definition df_step2 (index : Z) (p : out_ptr) : M out_ptr :=
  let inp_off := if index =? 0 then TRNG_SEC_STRENGTH_LEN else index - BLK_SIZE in
  inp_blk <- out_load p inp_off BLK_SIZE ;;
  g <- get_glob ;;
  out_store p index (encrypt g inp_blk).

(** [for (index = 0; index < TRNG_SEED_LEN; index += BLK_SIZE)] with [n]
    iterations left. *)
Fixpoint df_blocks {A} (n : nat) (index : Z) (body : Z -> A -> M A) (a : A) : M A :=
  match n with
  | O => ret a
  | S n' => a' <- body index a ;; df_blocks n' (index + BLK_SIZE) body a'
  end.

Definition DF_SEED_BLOCKS : nat := Z.to_nat ((TRNG_SEED_LEN + BLK_SIZE - 1) / BLK_SIZE).

Definition trng_df_algorithm (out : out_ptr) (flag : df_flag)
    (pstr : option (list Z)) : M out_ptr :=
  g <- get_glob ;;
  (if negb (df_init g)
   then let g' := trng_df_init g in
        put_glob (mk_df_globals (sbx1 g') (sbx2 g') (sbx3 g')
                                (schedule g') (rounds g') true)
   else ret tt) ;;
  dfin_store DFIN_VAL2_OFF
    (be32_bytes (match flag with
                 | DF_SEED => TRNG_PERS_STR_LEN
                 | DF_RAND => TRNG_GEN_LEN
                 end)) ;;
  dfin_store DFIN_PAD_OFF [DF_PAD_VAL] ;;
  t <- get_inst ;;
  match df_pack_params (len t) (match pstr with Some _ => true | None => false end) with
  | None => panic
  | Some (dfin_len, val1, xfer_len, src, offset) =>
      match pstr with
      | None => ret tt
      | Some p =>
          bs <- checked (load 0 (Z.to_nat TRNG_PERS_STR_LEN) p) ;;
          dfin_store DFIN_PSTR_OFF bs
      end ;;
      dfin_store DFIN_VAL1_OFF (be32_bytes val1) ;;
      df_shift xfer_len src offset ;;
      (* DF algorithm - step 1 *)
      g <- get_glob ;;
      put_glob (setup_key g df_key DF_KEY_LEN) ;;
      df_blocks DF_SEED_BLOCKS 0 (df_step1 dfin_len) tt ;;
      (* DF algorithm - step 2 *)
      t <- get_inst ;;
      g <- get_glob ;;
      put_glob (setup_key g (dfout t) DF_KEY_LEN) ;;
      df_blocks DF_SEED_BLOCKS 0 df_step2 out
  end.

(** ** Entropy collection *)

(** One pass of the word loop of [trng_collect_random]; the accumulator
    is [(match, index, dst)]. *)
Definition collect_word (bcnt wcnt : Z) (acc : bool * Z * option (list Z))
    : M (bool * Z * option (list Z)) :=
  let '(mtch, index, dst) := acc in
  t <- get_inst ;;
  val <- trng_read32 (addr (cfg t)) TRNG_CORE_OUTPUT ;;
  let mtch := if (0 <? bcnt) && negb (rd (buf t) wcnt =? val)
              then false else mtch in
  upd_inst (fun t => set_buf (wr (buf t) wcnt val) t) ;;
  match dst with
  | Some d =>
      d' <- checked (store (Z.to_nat (4 * index)) (be32_bytes val) d) ;;
      ret (mtch, index + 1, Some d')
  | None => ret (mtch, index, None)
  end.

Definition BURST_WORDS : Z := TRNG_BURST_SIZE_BITS / TRNG_REG_SIZE.

(** The burst loop of [trng_collect_random], [n] bursts left. *)
Fixpoint collect_loop (n : nat) (bursts bcnt index : Z) (dst : option (list Z))
    : M (TEE_Result * option (list Z)) :=
  match n with
  | O => ret (TEE_SUCCESS, dst)
  | S n' =>
      t <- get_inst ;;
      r <- trng_wait_for_event (addr (cfg t)) TRNG_STATUS TRNG_STATUS_QCNT_MASK
             (Z.shiftl TRNG_MAX_QCNT TRNG_STATUS_QCNT_SHIFT)
             TRNG_GENERATE_TIMEOUT ;;
      if failed r then ret (TEE_ERROR_GENERIC, dst)
      else
        dtf <- (if negb (mode_eqb (mode (usr_cfg t)) TRNG_PTRNG)
                then val <- trng_read32 (addr (cfg t)) TRNG_STATUS ;;
                     ret (negb (Z.land val TRNG_STATUS_DTF_MASK =? 0))
                else ret false) ;;
        if dtf
        then upd_inst (set_status TRNG_CATASTROPHIC) ;;
             ret (TEE_ERROR_GENERIC, dst)
        else
          acc <- for_loop (Z.to_nat BURST_WORDS) 0 (collect_word bcnt)
                          (true, index, dst) ;;
          let '(mtch, index, dst) := acc in
          if (1 <? bursts) && (0 <? bcnt) && mtch
          then upd_inst (set_status TRNG_CATASTROPHIC) ;;
               ret (TEE_ERROR_GENERIC, dst)
          else collect_loop n' bursts (bcnt + 1) index dst
  end.

(** [trng_collect_random(trng, dst, len)]; returns the result and the
    memory at [dst] as the call leaves it. *)
Definition trng_collect_random (dst : option (list Z)) (len : Z)
    : M (TEE_Result * option (list Z)) :=
  let bursts := usize len / TRNG_BURST_SIZE in
  t <- get_inst ;;
  trng_clrset32 (addr (cfg t)) TRNG_CTRL TRNG_CTRL_PRNGSTART_MASK
                TRNG_CTRL_PRNGSTART_MASK ;;
  collect_loop (Z.to_nat bursts) bursts 0 0 dst.

(** [trng_collect_random(trng, trng->dfin.entropy, len)]: the
    destination is the tail of [trng->dfin] from the [entropy] field on. *)
Definition collect_into_entropy (len : Z) : M TEE_Result :=
  t <- get_inst ;;
  x <- trng_collect_random (Some (skipn (Z.to_nat DFIN_ENTROPY_OFF) (dfin t))) len ;;
  let '(r, dst) := x in
  match dst with
  | Some d =>
      upd_inst (fun t => set_dfin (firstn (Z.to_nat DFIN_ENTROPY_OFF) (dfin t) ++ d) t) ;;
      ret r
  | None => ret r
  end.

(** ** Reseed *)

Definition is_some {A} (o : option A) : bool :=
  match o with Some _ => true | None => false end.

(** The [CFG_VERSAL_RNG_DRV_V2] body of [trng_reseed_internal_nodf]. *)
Definition reseed_nodf_v2 (eseed str : option (list Z)) (mul : Z) : M TEE_Result :=
  t <- get_inst ;;
  let a := addr (cfg t) in
  (if version_eqb (version (cfg t)) TRNG_V2
   then trng_write32_v2 (a + TRNG_CTRL_3) TRNG_CTRL_3_DLEN_MASK
          (u32 (Z.shiftl mul TRNG_CTRL_3_DLEN_SHIFT)) ;; ret tt
   else ret tt) ;;
  persmask <- match str with
              | Some s => trng_write_perstr s ;; ret TRNG_CTRL_PERSODISABLE_DEFVAL
              | None => ret TRNG_CTRL_PERSODISABLE_MASK
              end ;;
  trng_write32_v2 (a + TRNG_CTRL)
    (Z.lor TRNG_CTRL_PERSODISABLE_MASK TRNG_CTRL_PRNGSTART_MASK) persmask ;;
  match eseed with
  | Some seed =>
      trng_write32_v2 (a + TRNG_CTRL)
        (Z.lor (Z.lor TRNG_CTRL_PRNGMODE_MASK TRNG_CTRL_TSTMODE_MASK)
               TRNG_CTRL_TRSSEN_MASK)
        (Z.lor TRNG_CTRL_TSTMODE_MASK TRNG_CTRL_TRSSEN_MASK) ;;
      trng_write32_v2 (a + TRNG_CTRL) TRNG_CTRL_PRNGSTART_MASK
                      TRNG_CTRL_PRNGSTART_MASK ;;
      trng_write_seed seed mul ;;
      ret tt
  | None =>
      trng_write32_v2 (a + TRNG_OSC_EN) TRNG_OSC_EN_VAL_MASK TRNG_OSC_EN_VAL_MASK ;;
      trng_write32_v2 (a + TRNG_CTRL)
        (Z.lor (Z.lor TRNG_CTRL_PRNGMODE_MASK TRNG_CTRL_TRSSEN_MASK)
               TRNG_CTRL_PRNGXS_MASK)
        TRNG_CTRL_TRSSEN_MASK ;;
      trng_write32_v2 (a + TRNG_CTRL) TRNG_CTRL_PRNGSTART_MASK
                      TRNG_CTRL_PRNGSTART_MASK ;;
      ret tt
  end ;;
  upd_inst (fun t => set_stats (mk_stats (bytes (stats t)) (bytes_reseed (stats t)) 0) t) ;;
  ret TEE_SUCCESS.

(** The other body of [trng_reseed_internal_nodf]. *)
Definition reseed_nodf_v1 (eseed str : option (list Z)) : M TEE_Result :=
  t <- get_inst ;;
  let a := addr (cfg t) in
  let load_regs seed :=
    trng_write32_range TRNG_EXT_SEED_0 TRNG_SEED_REGS seed ;;
    match str with
    | Some s => trng_write32_range TRNG_PER_STRING_0 TRNG_PERS_STR_REGS (Some s)
    | None => ret tt
    end ;;
    ret TEE_SUCCESS in
  match mode (usr_cfg t) with
  | TRNG_HRNG =>
      trng_write32 a TRNG_OSC_EN TRNG_OSC_EN_VAL_MASK ;;
      trng_soft_reset ;;
      trng_write32 a TRNG_CTRL
        (Z.lor TRNG_CTRL_EUMODE_MASK TRNG_CTRL_TRSSEN_MASK) ;;
      x <- trng_collect_random (Some (zeros (Z.to_nat TRNG_SEED_LEN))) TRNG_SEED_LEN ;;
      let '(r, entropy) := x in
      if failed r then ret TEE_ERROR_GENERIC
      else
        match entropy with
        | Some e =>
            if failed (trng_check_seed e TRNG_SEED_LEN) then ret TEE_ERROR_GENERIC
            else load_regs (Some e)
        | None => ret TEE_ERROR_GENERIC
        end
  | TRNG_DRNG => load_regs eseed
  | _ => load_regs None
  end.

Definition trng_reseed_internal_nodf (eseed str : option (list Z)) (mul : Z)
    : M TEE_Result :=
  if CFG_VERSAL_RNG_DRV_V2 then reseed_nodf_v2 eseed str mul
  else reseed_nodf_v1 eseed str.

Definition trng_reseed_internal_df (eseed str : option (list Z)) : M TEE_Result :=
  upd_inst (set_dfin (zeros (Z.to_nat SIZEOF_DFIN))) ;;
  t <- get_inst ;;
  let a := addr (cfg t) in
  let finish :=
    trng_df_algorithm AtInstDfout DF_SEED str ;;
    t <- get_inst ;;
    trng_write32_range TRNG_EXT_SEED_0 TRNG_SEED_REGS (Some (dfout t)) ;;
    ret TEE_SUCCESS in
  match mode (usr_cfg t) with
  | TRNG_HRNG =>
      trng_write32 a TRNG_OSC_EN TRNG_OSC_EN_VAL_MASK ;;
      trng_soft_reset ;;
      trng_write32 a TRNG_CTRL
        (Z.lor TRNG_CTRL_EUMODE_MASK TRNG_CTRL_TRSSEN_MASK) ;;
      r <- collect_into_entropy (len t) ;;
      if failed r then ret TEE_ERROR_GENERIC
      else
        t <- get_inst ;;
        if failed (trng_check_seed (skipn (Z.to_nat DFIN_ENTROPY_OFF) (dfin t)) (len t))
        then ret TEE_ERROR_GENERIC
        else finish
  | TRNG_DRNG =>
      match eseed with
      | Some seed =>
          bs <- checked (load 0 (Z.to_nat (len t)) seed) ;;
          dfin_store DFIN_ENTROPY_OFF bs ;;
          finish
      | None => if len t =? 0 then finish else fault
      end
  | _ => finish
  end.

(** The [error:] label shared by the state-machine functions of the
    instance: [trng->status = TRNG_ERROR; return TEE_ERROR_GENERIC]. *)
Definition goto_error : M TEE_Result :=
  upd_inst (set_status TRNG_ERROR) ;; ret TEE_ERROR_GENERIC.

Definition trng_reseed_internal (eseed str : option (list Z)) (mul : Z)
    : M TEE_Result :=
  upd_inst (fun t => set_stats (mk_stats (bytes (stats t)) 0 0) t) ;;
  t <- get_inst ;;
  upd_inst (set_len (if df_disable (usr_cfg t) then TRNG_SEED_LEN
                     else u32 ((mul + 1) * BYTES_PER_BLOCK))) ;;
  r <- (if df_disable (usr_cfg t) || version_eqb (version (cfg t)) TRNG_V2
        then trng_reseed_internal_nodf eseed str mul
        else trng_reseed_internal_df eseed str) ;;
  if failed r then goto_error
  else
    let a := addr (cfg t) in
    (if CFG_VERSAL_RNG_DRV_V2 then ret tt
     else
       trng_write32 a TRNG_CTRL (Z.lor PRNGMODE_RESEED TRNG_CTRL_PRNGXS_MASK) ;;
       trng_clrset32 a TRNG_CTRL TRNG_CTRL_PRNGSTART_MASK
                     TRNG_CTRL_PRNGSTART_MASK) ;;
    r <- trng_wait_for_event a TRNG_STATUS TRNG_STATUS_DONE_MASK
           TRNG_STATUS_DONE_MASK TRNG_RESEED_TIMEOUT ;;
    if failed r then goto_error
    else
      val <- trng_read32 a TRNG_STATUS ;;
      if Z.land val TRNG_STATUS_CERTF_MASK =? TRNG_STATUS_CERTF_MASK
      then goto_error
      else
        trng_clrset32 a TRNG_CTRL TRNG_CTRL_PRNGSTART_MASK 0 ;;
        ret TEE_SUCCESS.

(** ** Public state machine *)

(** The [trng] argument of the state-machine functions: NULL, or the
    address of the instance held in the state. *)
Inductive trng_ptr := TRNG_NULL | TRNG_INSTANCE.

Definition trng_instantiate (trng : trng_ptr) (usr_cfg' : option trng_usr_cfg)
    : M TEE_Result :=
  match trng with
  | TRNG_NULL => ret TEE_ERROR_GENERIC
  | TRNG_INSTANCE =>
      match usr_cfg' with
      | None => goto_error
      | Some u =>
          t <- get_inst ;;
          if negb (status_eqb (status t) TRNG_UNINITIALIZED) then goto_error
          else if negb (mode_eqb (mode u) TRNG_HRNG)
                  && negb (mode_eqb (mode u) TRNG_DRNG)
                  && negb (mode_eqb (mode u) TRNG_PTRNG) then goto_error
          else if negb (mode_eqb (mode u) TRNG_PTRNG) && (seed_life u =? 0)
          then goto_error
          else if negb (iseed_en u) && mode_eqb (mode u) TRNG_DRNG then goto_error
          else if iseed_en u && mode_eqb (mode u) TRNG_HRNG then goto_error
          else if negb (df_disable u)
                  && ((dfmul u <? TRNG_MIN_DFLENMULT)
                      || (dfmul u >? TRNG_MAX_DFLENMULT)) then goto_error
          else if df_disable u && negb (dfmul u =? 0) then goto_error
          else if mode_eqb (mode u) TRNG_PTRNG
                  && (iseed_en u || pstr_en u || predict_en u
                      || negb (seed_life u =? 0)) then goto_error
          else
            upd_inst (set_usr_cfg u) ;;
            trng_reset ;;
            let seed := if iseed_en u then Some (init_seed u) else None in
            let pers := if pstr_en u then Some (pstr u) else None in
            let a := addr (cfg t) in
            (if version_eqb (version (cfg t)) TRNG_V2
                && (mode_eqb (mode u) TRNG_PTRNG || mode_eqb (mode u) TRNG_HRNG)
             then
               trng_clrset32 a TRNG_CTRL_3 TRNG_CTRL_3_APTCUTOFF_MASK
                 (Z.shiftl TRNG_CTRL_3_APTCUTOFF_DEFVAL TRNG_CTRL_3_APTCUTOFF_SHIFT) ;;
               trng_clrset32 a TRNG_CTRL_2 TRNG_CTRL_2_RCTCUTOFF_MASK
                 (Z.shiftl TRNG_CTRL_2_RCTCUTOFF_DEFVAL TRNG_CTRL_2_RCTCUTOFF_SHIFT) ;;
               trng_clrset32 a TRNG_CTRL_2 TRNG_CTRL_2_DIT_MASK
                 (Z.shiftl TRNG_CTRL_2_DIT_DEFVAL TRNG_CTRL_2_DIT_SHIFT)
             else ret tt) ;;
            r <- (if negb (mode_eqb (mode u) TRNG_PTRNG)
                  then trng_reseed_internal seed pers (dfmul u)
                  else ret TEE_SUCCESS) ;;
            if failed r then goto_error
            else upd_inst (set_status TRNG_HEALTHY) ;; ret TEE_SUCCESS
      end
  end.

Fixpoint bytes_eqb (a b : list Z) : bool :=
  match a, b with
  | [], [] => true
  | x :: a', y :: b' => (x =? y) && bytes_eqb a' b'
  | _, _ => false
  end.

Definition trng_reseed (trng : trng_ptr) (eseed : option (list Z)) (mul : Z)
    : M TEE_Result :=
  match trng with
  | TRNG_NULL => ret TEE_ERROR_GENERIC
  | TRNG_INSTANCE =>
      t <- get_inst ;;
      let u := usr_cfg t in
      if negb (status_eqb (status t) TRNG_HEALTHY) then goto_error
      else if negb (mode_eqb (mode u) TRNG_DRNG)
              && negb (mode_eqb (mode u) TRNG_HRNG) then goto_error
      else if mode_eqb (mode u) TRNG_DRNG && negb (is_some eseed) then goto_error
      else if negb (mode_eqb (mode u) TRNG_DRNG) && is_some eseed then goto_error
      else if negb (df_disable u)
              && ((mul <? TRNG_MIN_DFLENMULT) || (mul >? TRNG_MAX_DFLENMULT))
      then goto_error
      else if df_disable u && negb (mul =? 0) then goto_error
      else
        same <- match eseed with
                | Some seed =>
                    x <- checked (load 0 (Z.to_nat (len t)) seed) ;;
                    y <- checked (load 0 (Z.to_nat (len t)) (init_seed u)) ;;
                    ret (bytes_eqb x y)
                | None => ret false
                end ;;
        if same then goto_error
        else
          (if CFG_VERSAL_RNG_DRV_V2
           then trng_wait_for_event (addr (cfg t)) TRNG_STATUS
                  TRNG_STATUS_DONE_MASK TRNG_STATUS_DONE_MASK
                  TRNG_RESEED_TIMEOUT ;; ret tt
           else ret tt) ;;
          r <- trng_reseed_internal eseed None mul ;;
          if failed r then goto_error else ret TEE_SUCCESS
  end.

(** The [error:] label of [trng_generate]: a catastrophic status is kept. *)
Definition generate_error {A} (x : A) : M (TEE_Result * A) :=
  t <- get_inst ;;
  (if negb (status_eqb (status t) TRNG_CATASTROPHIC)
   then upd_inst (set_status TRNG_ERROR) else ret tt) ;;
  ret (TEE_ERROR_GENERIC, x).

(** The common tail of [trng_generate] once [p] and [len] are chosen:
    [to_entropy] tells that [p] is [trng->dfin.entropy] rather than the
    caller's buffer [b]. *)
Definition generate_collect (b : list Z) (to_entropy : bool) (len : Z)
    : M (TEE_Result * option (list Z)) :=
  x <- (if to_entropy
        then r <- collect_into_entropy len ;; ret (r, b)
        else y <- trng_collect_random (Some b) len ;;
             let '(r, dst) := y in
             ret (r, match dst with Some d => d | None => b end)) ;;
  let '(r, b) := x in
  if failed r then generate_error (Some b)
  else
    upd_inst (fun t =>
      set_stats (mk_stats (ustat (bytes (stats t) + len))
                          (ustat (bytes_reseed (stats t) + len))
                          (ustat (elapsed_seed_life (stats t) + 1))) t) ;;
    t <- get_inst ;;
    if negb (df_disable (usr_cfg t)) && mode_eqb (mode (usr_cfg t)) TRNG_PTRNG
    then
      o <- trng_df_algorithm (AtBuffer b) DF_RAND None ;;
      ret (TEE_SUCCESS,
           Some (match o with AtBuffer b' => b' | AtInstDfout => b end))
    else ret (TEE_SUCCESS, Some b).

(** [trng_generate(trng, buf, blen, predict)]; [buf] is the object the
    caller's pointer refers to ([None] for NULL), returned as the call
    leaves it. *)
Definition trng_generate (trng : trng_ptr) (buf : option (list Z)) (blen : Z)
    (predict : bool) : M (TEE_Result * option (list Z)) :=
  match trng with
  | TRNG_NULL => ret (TEE_ERROR_GENERIC, buf)
  | TRNG_INSTANCE =>
      match buf with
      | None => generate_error None
      | Some b =>
          t <- get_inst ;;
          let u := usr_cfg t in
          let a := addr (cfg t) in
          if blen <? TRNG_SEC_STRENGTH_LEN then generate_error buf
          else if negb (status_eqb (status t) TRNG_HEALTHY) then generate_error buf
          else if mode_eqb (mode u) TRNG_PTRNG && predict then generate_error buf
          else if negb (predict_en u) && predict then generate_error buf
          else
            match mode u with
            | TRNG_HRNG =>
                r <- (if elapsed_seed_life (stats t) >=? seed_life u
                      then trng_reseed_internal None None 0
                      else ret TEE_SUCCESS) ;;
                if failed r then generate_error buf
                else
                  t <- get_inst ;;
                  r <- (if predict && (elapsed_seed_life (stats t) >? 0)
                        then trng_reseed_internal None None 0
                        else ret TEE_SUCCESS) ;;
                  if failed r then generate_error buf
                  else
                    trng_write32 a TRNG_CTRL PRNGMODE_GEN ;;
                    generate_collect b false TRNG_SEC_STRENGTH_LEN
            | TRNG_DRNG =>
                if elapsed_seed_life (stats t) >? seed_life u then generate_error buf
                else if predict && (elapsed_seed_life (stats t) >? 0)
                then generate_error buf
                else
                  trng_write32 a TRNG_CTRL PRNGMODE_GEN ;;
                  generate_collect b false TRNG_SEC_STRENGTH_LEN
            | _ =>
                let len := if negb (df_disable u)
                           then u32 ((dfmul u + 1) * BYTES_PER_BLOCK)
                           else TRNG_SEC_STRENGTH_LEN in
                (if negb (df_disable u)
                 then upd_inst (set_dfin (zeros (Z.to_nat SIZEOF_DFIN))) ;;
                      upd_inst (set_len len)
                 else ret tt) ;;
                trng_write32 a TRNG_OSC_EN TRNG_OSC_EN_VAL_MASK ;;
                trng_soft_reset ;;
                trng_write32 a TRNG_CTRL
                  (Z.lor TRNG_CTRL_EUMODE_MASK TRNG_CTRL_TRSSEN_MASK) ;;
                generate_collect b (negb (df_disable u)) len
            end
      end
  end.

Definition trng_release (trng : trng_ptr) : M TEE_Result :=
  match trng with
  | TRNG_NULL => ret TEE_ERROR_GENERIC
  | TRNG_INSTANCE =>
      t <- get_inst ;;
      if status_eqb (status t) TRNG_UNINITIALIZED then goto_error
      else
        trng_write32_range TRNG_EXT_SEED_0 TRNG_SEED_REGS None ;;
        trng_write32_range TRNG_PER_STRING_0 TRNG_PERS_STR_REGS None ;;
        trng_hold_reset ;;
        (* Clear the instance *)
        upd_inst (fun t => set_usr_cfg (usr_cfg_zero (usr_cfg t)) t) ;;
        upd_inst (set_buf (zeros RAND_BUF_LEN)) ;;
        upd_inst (set_dfout (zeros (Z.to_nat TRNG_SEED_LEN))) ;;
        upd_inst (set_status TRNG_UNINITIALIZED) ;;
        ret TEE_SUCCESS
  end.

(** ** Service *)

(** The block loop of [versal_trng_get_random_bytes], [n] blocks left;
    [buf] is the caller's object and block [i] is generated through the
    pointer [p + i * TRNG_SEC_STRENGTH_LEN]. *)
Fixpoint get_random_blocks (trng : trng_ptr) (n : nat) (i : Z)
    (buf : option (list Z)) : M (option (list Z)) :=
  match n with
  | O => ret buf
  | S n' =>
      let off := Z.to_nat (i * TRNG_SEC_STRENGTH_LEN) in
      x <- trng_generate trng
             (match buf with Some b => Some (skipn off b) | None => None end)
             TRNG_SEC_STRENGTH_LEN false ;;
      let '(r, region) := x in
      if failed r then panic
      else
        get_random_blocks trng n' (i + 1)
          (match buf, region with
           | Some b, Some d => Some (firstn off b ++ d)
           | _, _ => buf
           end)
  end.

Definition versal_trng_get_random_bytes (trng : trng_ptr)
    (buf : option (list Z)) (len : Z) : M (TEE_Result * option (list Z)) :=
  let blocks := len / TRNG_SEC_STRENGTH_LEN in
  buf <- get_random_blocks trng (Z.to_nat blocks) 0 buf ;;
  if negb (len mod TRNG_SEC_STRENGTH_LEN =? 0) then
    x <- trng_generate trng (Some (zeros (Z.to_nat TRNG_SEC_STRENGTH_LEN)))
           TRNG_SEC_STRENGTH_LEN false ;;
    let '(r, random) := x in
    if failed r then panic
    else
      match buf, random with
      | Some b, Some rnd =>
          b' <- checked (store (Z.to_nat (blocks * TRNG_SEC_STRENGTH_LEN))
                               (firstn (Z.to_nat (len mod TRNG_SEC_STRENGTH_LEN)) rnd)
                               b) ;;
          ret (TEE_SUCCESS, Some b')
      | _, _ => fault
      end
  else ret (TEE_SUCCESS, buf).

End Driver.

(** ** Concrete runs

    The vectors of [trng_kat_test] and [trng_kat_test_v2]. *)

Definition kat_ext_seed : list Z :=
  [0x3B; 0xC3; 0xED; 0x64; 0xF4; 0x80; 0x1C; 0xC7;
   0x14; 0xCC; 0x35; 0xED; 0x57; 0x01; 0x2A; 0xE4;
   0xBC; 0xEF; 0xDE; 0xF6; 0x7C; 0x46; 0xA6; 0x34;
   0xC6; 0x79; 0xE8; 0x91; 0x5D; 0xB1; 0xDB; 0xA7;
   0x49; 0xA5; 0xBB; 0x4F; 0xED; 0x30; 0xB3; 0x7B;
   0xA9; 0x8B; 0xF5; 0x56; 0x4D; 0x40; 0x18; 0x9F].
Definition kat_pers_str : list Z :=
  [0xB2; 0x80; 0x7E; 0x4C; 0xD0; 0xE4; 0xE2; 0xA9;
   0x2F; 0x1F; 0x5D; 0xC1; 0xA2; 0x1F; 0x40; 0xFC;
   0x1F; 0x24; 0x5D; 0x42; 0x61; 0x80; 0xE6; 0xE9;
   0x71; 0x05; 0x17; 0x5B; 0xAF; 0x70; 0x30; 0x18;
   0xBC; 0x23; 0x18; 0x15; 0xCB; 0xB8; 0xA6; 0x3E;
   0x83; 0xB8; 0x4A; 0xFE; 0x38; 0xFC; 0x25; 0x87].
Definition kat_expected_out : list Z :=
  [0x91; 0x9A; 0x6B; 0x99; 0xD5; 0xBC; 0x2C; 0x11;
   0x5F; 0x3A; 0xFC; 0x0B; 0x0E; 0x7B; 0xC7; 0x69;
   0x4D; 0xE1; 0xE5; 0xFE; 0x59; 0x9E; 0xAA; 0x41;
   0xD3; 0x48; 0xFD; 0x3D; 0xD2; 0xC4; 0x50; 0x1E].
Definition kat_v2_ext_seed : list Z :=
  [0x3B; 0xC3; 0xED; 0x64; 0xF4; 0x80; 0x1C; 0xC7;
   0x14; 0xCC; 0x35; 0xED; 0x57; 0x01; 0x2A; 0xE4;
   0xBC; 0xEF; 0xDE; 0xF6; 0x7C; 0x46; 0xA6; 0x34;
   0xC6; 0x79; 0xE8; 0x91; 0x5D; 0xB1; 0xDB; 0xA7;
   0x49; 0xA5; 0xBB; 0x4F; 0xED; 0x30; 0xB3; 0x7B;
   0xA9; 0x8B; 0xF5; 0x56; 0x4D; 0x40; 0x18; 0x9F;
   0x66; 0x4E; 0x39; 0xC0; 0x60; 0xC8; 0x8E; 0xF4;
   0x1C; 0xB9; 0x9D; 0x7B; 0x97; 0x8B; 0x69; 0x62;
   0x45; 0x0C; 0xD4; 0x85; 0xFC; 0xDC; 0x5A; 0x2B;
   0xFD; 0xAB; 0x92; 0x4A; 0x12; 0x52; 0x7D; 0x45;
   0xD2; 0x61; 0x0A; 0x06; 0x74; 0xA7; 0x88; 0x36;
   0x4B; 0xA2; 0x65; 0xEE; 0x71; 0x0B; 0x5A; 0x4E;
   0x33; 0xB2; 0x7A; 0x2E; 0xC0; 0xA6; 0xF2; 0x7D;
   0xBD; 0x7D; 0xDF; 0x07; 0xBB; 0xE2; 0x86; 0xFF;
   0xF0; 0x8E; 0xA4; 0xB1; 0x46; 0xDB; 0xF7; 0x8C;
   0x3C; 0x62; 0x4D; 0xF0; 0x51; 0x50; 0xE7; 0x85].
Definition kat_v2_reseed_entropy : list Z :=
  [0xDF; 0x5E; 0x4D; 0x4F; 0x38; 0x9E; 0x2A; 0x3E;
   0xF2; 0xAB; 0x46; 0xE3; 0xA0; 0x26; 0x77; 0x84;
   0x0B; 0x9D; 0x29; 0xB0; 0x5D; 0xCE; 0xC8; 0xC3;
   0xF9; 0x4D; 0x32; 0xF7; 0xBA; 0x6F; 0xA3; 0xB5;
   0x35; 0xCB; 0xC7; 0x5C; 0x62; 0x48; 0x01; 0x65;
   0x3A; 0xAA; 0x34; 0x2D; 0x89; 0x6E; 0xEF; 0x6F;
   0x69; 0x96; 0xE7; 0x84; 0xDA; 0xEF; 0x4E; 0xBE;
   0x27; 0x4E; 0x9F; 0x88; 0xB1; 0xA0; 0x7F; 0x83;
   0xDB; 0x4A; 0xA9; 0x42; 0x01; 0xF1; 0x84; 0x71;
   0xA9; 0xEF; 0xB9; 0xE8; 0x7F; 0x81; 0xC7; 0xC1;
   0x6C; 0x5E; 0xAC; 0x00; 0x47; 0x34; 0xA1; 0x75;
   0xC0; 0xE8; 0x7F; 0x48; 0x00; 0x45; 0xC9; 0xE9;
   0x41; 0xE3; 0x8D; 0xD8; 0x4A; 0x63; 0xC4; 0x94;
   0x77; 0x59; 0xD9; 0x50; 0x2A; 0x1D; 0x4C; 0x47;
   0x64; 0xA6; 0x66; 0x60; 0x16; 0xE7; 0x29; 0xC0;
   0xB1; 0xCF; 0x3B; 0x3F; 0x54; 0x49; 0x31; 0xD4].

(** A build used for the concrete runs: a 16-byte counter block, an
    [entropy] field that holds the [(9 + 1) * 16] bytes of the largest
    multiplier, eight pad bytes and 64-bit statistics counters. *)
Definition versal_build (v2 : bool) : build :=
  mk_build 4 160 8 64 TRNG_HRNG v2.

Definition MOCK_ADDR : Z := 0xF1230000.

(** A simulated device: [STATUS] always shows DONE with [QCNT = 4] and no
    fault flag, [CORE_OUTPUT] returns a fresh word on every read, every
    other register reads 0. *)
Definition mock_read (k : nat) (a : Z) : Z :=
  if a =? MOCK_ADDR + TRNG_STATUS then 0x801
  else if a =? MOCK_ADDR + TRNG_CORE_OUTPUT then 0x01020300 + Z.of_nat k
  else 0.

(** A device whose [CORE_OUTPUT] is stuck at one word. *)
Definition stuck_read (k : nat) (a : Z) : Z :=
  if a =? MOCK_ADDR + TRNG_STATUS then 0x801
  else if a =? MOCK_ADDR + TRNG_CORE_OUTPUT then 0xDEADBEEF
  else 0.

Definition mock_hw (f : nat -> Z -> Z) : hw := mk_hw f (fun _ => 2%nat) 0 0 [].

Definition fresh_trng (v : trng_version) : versal_trng :=
  mk_trng (mk_cfg MOCK_ADDR MOCK_ADDR 0x10000 v)
          (mk_usr_cfg TRNG_HRNG 0 false false false 0 (zeros 160) (zeros 48) false)
          (zeros 240) (zeros 48) TRNG_UNINITIALIZED (zeros 4) 0
          (mk_stats 0 0 0).

Definition fresh_state (v : trng_version) (f : nat -> Z -> Z) : state :=
  mk_state (fresh_trng v) (mock_hw f) df_globals_zero.

(** The configuration of [trng_kat_test] with a chosen seed life. *)
Definition kat_cfg (life : Z) : trng_usr_cfg :=
  mk_usr_cfg TRNG_DRNG life false true true 2
             (kat_ext_seed ++ zeros 112) kat_pers_str false.

(** The configuration of [trng_health_test]. *)
Definition health_cfg : trng_usr_cfg :=
  mk_usr_cfg TRNG_HRNG 10 false false false 7 (zeros 160) (zeros 48) false.

(** PTRNG with the derivation function enabled. *)
Definition ptrng_df_cfg : trng_usr_cfg :=
  mk_usr_cfg TRNG_PTRNG 0 false false false 2 (zeros 160) (zeros 48) false.

(** The chronological list of the events a call added to the log. *)
Definition new_events (s s' : state) : list event :=
  rev (firstn (length (log (dev s')) - length (log (dev s))) (log (dev s'))).

(** The words read from the register at address [a], in the order read. *)
Fixpoint reads_at (a : Z) (evs : list event) : list Z :=
  match evs with
  | [] => []
  | EvRead a' v :: t => if a' =? a then v :: reads_at a t else reads_at a t
  | _ :: t => reads_at a t
  end.

(** Burst [k] of a list of output words. *)
Definition burst (k : nat) (ws : list Z) : list Z :=
  firstn 4 (skipn (4 * k) ws).

(** The log entries, newest first, of [k] consecutive reads of address
    [a] that start with the read number [start] of the run. *)
Fixpoint polls_events (f : nat -> Z -> Z) (a : Z) (start k : nat) : list event :=
  match k with
  | O => []
  | S k' => EvRead a (u32 (f (start + k')%nat a)) :: polls_events f a start k'
  end.

(** The state after [k] reads of address [a] and [w] opened timed waits. *)
Definition after_reads (s : state) (a : Z) (k w : nat) : state :=
  let h := dev s in
  mk_state (inst s)
    (mk_hw (dev_read h) (dev_polls h) (nread h + k) (nwait h + w)
           (polls_events (dev_read h) a (nread h) k ++ log h))
    (glob s).

(** The masked value of read number [i] at address [a]. *)
Definition masked_read (s : state) (a mask : Z) (i : nat) : Z :=
  Z.land (u32 (dev_read (dev s) i a)) mask.

(** The state with the events [evs] (in the order they happen) appended
    to the log. *)
Definition add_events (evs : list event) (s : state) : state :=
  let h := dev s in
  mk_state (inst s)
    (mk_hw (dev_read h) (dev_polls h) (nread h) (nwait h) (rev evs ++ log h))
    (glob s).

(** The bits of a byte, most significant first. *)
Definition seed_bits (b : Z) : list Z :=
  map (fun cnt => Z.land (Z.shiftr b (TRNGPSX_BYTE_LEN_IN_BITS - 1 - cnt)) 1)
      [0; 1; 2; 3; 4; 5; 6; 7].

(** The byte rebuilt from a list of bits as [trng_write_seed] does:
    [seed_construct = (uint8_t)((seed_construct << 1) | (uint8_t)bit)]. *)
Definition reconstruct (bits : list Z) : Z :=
  fold_left (fun sc bit => u8 (Z.lor (Z.shiftl sc 1) (u8 bit))) bits 0.

(** What the serial loader does for the byte [b] at index [idx]: eight
    writes to [CTRL_4], the short delay, and the long delay when
    [idx % 8 == 0]. *)
Definition seed_byte_events (a b idx : Z) : list event :=
  map (EvWrite (a + TRNG_CTRL_4)) (seed_bits b)
  ++ [EvDelay TRNGPSX_DF_2CLKS_WAIT]
  ++ (if idx mod TRNGPSX_DF_NUM_OF_BYTES_BEFORE_MIN_700CLKS_WAIT =? 0
      then [EvDelay TRNGPSX_DF_700CLKS_WAIT] else []).

Fixpoint seed_events (a : Z) (seed : list Z) (idx : Z) : list event :=
  match seed with
  | [] => []
  | b :: t => seed_byte_events a b idx ++ seed_events a t (idx + 1)
  end.

(** For every long delay of a trace, the number of whole bytes written
    to [CTRL_4] before it; [nbits] counts the bits written so far. *)
Fixpoint long_delay_positions (a : Z) (evs : list event) (nbits : Z) : list Z :=
  match evs with
  | [] => []
  | EvWrite a' _ :: t =>
      long_delay_positions a t (if a' =? a + TRNG_CTRL_4 then nbits + 1 else nbits)
  | EvDelay us :: t =>
      if us =? TRNGPSX_DF_700CLKS_WAIT
      then nbits / TRNGPSX_BYTE_LEN_IN_BITS :: long_delay_positions a t nbits
      else long_delay_positions a t nbits
  | EvRead _ _ :: t => long_delay_positions a t nbits
  end.

Definition is_byte (b : Z) : Prop := 0 <= b < 256.

(** The four words a burst reads from the register at address [a]
    when it starts in state [s]. *)
Definition burst_values (s : state) (a : Z) : list Z :=
  map (fun j => u32 (dev_read (dev s) (nread (dev s) + j)%nat a))
      [0; 1; 2; 3]%nat.

(** The state after the word loop of one burst: the four reads are
    logged and [trng->buf] holds the words. *)
Definition after_burst (s : state) (a : Z) : state :=
  mk_state (set_buf (burst_values s a) (inst s))
           (dev (after_reads s a 4 0)) (glob s).

(** The [match] flag the word loop of burst [bcnt] computes against the
    previous burst [old]. *)
Definition burst_match (bcnt : Z) (old vs : list Z) : bool :=
  if 0 <? bcnt then bytes_eqb old vs else true.

(** No burst of [ws] repeats the burst before it. *)
Definition no_repeat (ws : list Z) : Prop :=
  forall k, (0 < k)%nat -> (4 * k + 4 <= length ws)%nat ->
            burst k ws <> burst (k - 1) ws.

Section WordLoop.

Context {B : build}.

(** The value read by the next access to [CORE_OUTPUT]. *)
Definition next_word (s : state) : Z :=
  u32 (dev_read (dev s) (nread (dev s))
                (addr (cfg (inst s)) + TRNG_CORE_OUTPUT)).

(** One pass of the word loop as far as the instance and the device are
    concerned. *)
Definition after_word (wcnt : Z) (s : state) : state :=
  let h := dev s in
  mk_state (set_buf (wr (buf (inst s)) wcnt (next_word s)) (inst s))
    (mk_hw (dev_read h) (dev_polls h) (S (nread h)) (nwait h)
           (EvRead (addr (cfg (inst s)) + TRNG_CORE_OUTPUT) (next_word s) :: log h))
    (glob s).

Definition word_match (bcnt wcnt : Z) (m : bool) (s : state) : bool :=
  if (0 <? bcnt) && negb (rd (buf (inst s)) wcnt =? next_word s)
  then false else m.

End WordLoop.

(** What a call returned, if it returned. *)
Definition returned {A} (o : outcome A) : option A :=
  match o with Ok a _ => Some a | Panic _ | Fault _ => None end.

Definition is_fault {A} (o : outcome A) : bool :=
  match o with Fault _ => true | Ok _ _ | Panic _ => false end.

(** The two builds of the concrete runs. *)
Definition build_v1 : build := versal_build false.
Definition build_v2 : build := versal_build true.

(** An HRNG instance, derivation function enabled with multiplier 7,
    whose seed life of 10 generations is used up. *)
Definition hrng_expired_state : state :=
  mk_state
    (mk_trng (mk_cfg MOCK_ADDR MOCK_ADDR 0x10000 TRNG_V1) health_cfg
             (zeros 240) (zeros 48) TRNG_HEALTHY (zeros 4) 128
             (mk_stats 320 320 10))
    (mock_hw mock_read) df_globals_zero.

(** The events of a successful [trng_release] on the device at [a],
    [v] being the value read from [CTRL]. *)
Definition release_events (a v : Z) : list event :=
  map (fun i => EvWrite (a + (TRNG_EXT_SEED_0 + i * TRNG_BYTES_PER_REG)) 0)
      [0; 1; 2; 3; 4; 5; 6; 7; 8; 9; 10; 11]
  ++ map (fun i => EvWrite (a + (TRNG_PER_STRING_0 + i * TRNG_BYTES_PER_REG)) 0)
         [0; 1; 2; 3; 4; 5; 6; 7; 8; 9; 10; 11]
  ++ [EvRead (a + TRNG_CTRL) v;
      EvWrite (a + TRNG_CTRL)
        (Z.lor (Z.land v (not32 TRNG_CTRL_PRNGSRST_MASK))
               (Z.land TRNG_CTRL_PRNGSRST_MASK TRNG_CTRL_PRNGSRST_MASK));
      EvWrite (a + TRNG_RESET) TRNG_RESET_VAL_MASK;
      EvDelay RESET_DELAY].

(** The instance a successful [trng_release] leaves: configuration,
    burst buffer and [dfout] zeroed, status reset; [dfin], [len] and
    the statistics as they were. *)
Definition released {B : build} (t : versal_trng) : versal_trng :=
  mk_trng (cfg t) (usr_cfg_zero (usr_cfg t)) (dfin t)
          (zeros (Z.to_nat TRNG_SEED_LEN)) TRNG_UNINITIALIZED
          (zeros RAND_BUF_LEN) (len t) (stats t).

(** The KAT scenario without the comparison: instantiate, generate 32
    bytes, release. *)
Definition kat_then_release : outcome (TEE_Result * TEE_Result * TEE_Result) :=
  (r1 <- @trng_instantiate build_v1 TRNG_INSTANCE (Some (kat_cfg 5)) ;;
   x <- @trng_generate build_v1 TRNG_INSTANCE
          (Some (zeros 32)) 32 false ;;
   r3 <- @trng_release build_v1 TRNG_INSTANCE ;;
   ret (r1, fst x, r3)) (fresh_state TRNG_V1 mock_read).

(** A PTRNG instance with the derivation function enabled. *)
Definition ptrng_df_instance : outcome TEE_Result :=
  @trng_instantiate build_v1 TRNG_INSTANCE (Some ptrng_df_cfg)
    (fresh_state TRNG_V1 mock_read).

(** A DRNG instance with a seed life of one generation, then three
    generations in a row. *)
Definition drng_life_1 (n : nat) : outcome (list TEE_Result * trng_stats) :=
  (r0 <- @trng_instantiate build_v1 TRNG_INSTANCE (Some (kat_cfg 1)) ;;
   rs <- for_loop n 0
           (fun _ acc =>
              x <- @trng_generate build_v1 TRNG_INSTANCE
                     (Some (zeros 32)) 32 false ;;
              ret (acc ++ [fst x])) [r0] ;;
   t <- get_inst ;;
   ret (rs, stats t)) (fresh_state TRNG_V1 mock_read).

(** The same with the HRNG configuration of the health test and a seed
    life of one generation. *)
Definition hrng_life_1 (n : nat) : outcome (list TEE_Result * trng_stats) :=
  (r0 <- @trng_instantiate build_v1 TRNG_INSTANCE
           (Some (mk_usr_cfg TRNG_HRNG 1 false false false 7
                             (zeros 160) (zeros 48) false)) ;;
   rs <- for_loop n 0
           (fun _ acc =>
              x <- @trng_generate build_v1 TRNG_INSTANCE
                     (Some (zeros 32)) 32 false ;;
              ret (acc ++ [fst x])) [r0] ;;
   t <- get_inst ;;
   ret (rs, stats t)) (fresh_state TRNG_V1 mock_read).

(** The serial load of a 16-byte seed ([dlen = 0]). *)
Definition write_seed_16 : outcome Z :=
  @trng_write_seed (firstn 16 kat_v2_ext_seed) 0
    (fresh_state TRNG_V2 mock_read).

(** ** Predicates of the proofs *)

(** [keeps f m]: whatever way [m] ends, the projection [f] of the
    instance is what it was. *)
Definition keeps {X A} (f : versal_trng -> X) (m : M A) : Prop :=
  forall s, f (inst (final (m s))) = f (inst s).

(** The length a reseed with multiplier 0 leaves, and a configuration
    with the derivation function enabled. *)
Definition reseeded_at_0 (s : state) : Prop :=
  len (inst s) = (0 + 1) * BYTES_PER_BLOCK
  /\ df_disable (usr_cfg (inst s)) = false.

(** ** Further specifications *)

(** The state after one read of address [a] that returned what the
    device shows, followed by the write of [w] to the same address. *)
Definition after_rmw (s : state) (a w : Z) : state :=
  let h := dev s in
  mk_state (inst s)
    (mk_hw (dev_read h) (dev_polls h) (S (nread h)) (nwait h)
           (EvWrite a w :: EvRead a (u32 (dev_read h (nread h) a)) :: log h))
    (glob s).

(** The big-endian 32-bit word made of bytes [4 i .. 4 i + 3] of [b]. *)
Definition be_word_at (b : list Z) (i : Z) : Z :=
  16777216 * rd b (4 * i) + 65536 * rd b (4 * i + 1)
  + 256 * rd b (4 * i + 2) + rd b (4 * i + 3).

(** The 32-bit word [trng_check_seed] reads at word index [i]. *)
Definition seed_word (entropy : list Z) (i : nat) : Z :=
  le32_word (skipn (4 * i) entropy).

Definition trivial_pattern (w : Z) : Prop :=
  w = ALL_A_PATTERN_32 \/ w = ALL_5_PATTERN_32.

(** The state in which only the status of the instance has changed. *)
Definition with_status (x : trng_status) (s : state) : state :=
  mk_state (set_status x (inst s)) (dev s) (glob s).

(** The configuration checks of [trng_instantiate], in the words of the
    source. *)
Definition cfg_rejected (u : trng_usr_cfg) : Prop :=
  mode u = TRNG_MODE_OTHER
  \/ (mode u <> TRNG_PTRNG /\ seed_life u = 0)
  \/ (iseed_en u = false /\ mode u = TRNG_DRNG)
  \/ (iseed_en u = true /\ mode u = TRNG_HRNG)
  \/ (df_disable u = false
      /\ (dfmul u < TRNG_MIN_DFLENMULT \/ dfmul u > TRNG_MAX_DFLENMULT))
  \/ (df_disable u = true /\ dfmul u <> 0)
  \/ (mode u = TRNG_PTRNG
      /\ (iseed_en u = true \/ pstr_en u = true \/ predict_en u = true
          \/ seed_life u <> 0)).

(** The addresses written by a list of events, in order. *)
Fixpoint write_addrs (evs : list event) : list Z :=
  match evs with
  | [] => []
  | EvWrite a _ :: t => a :: write_addrs t
  | _ :: t => write_addrs t
  end.

(** The status the [error:] label of [trng_generate] leaves. *)
Definition status_after_generate_error (x : trng_status) : trng_status :=
  match x with
  | TRNG_CATASTROPHIC => TRNG_CATASTROPHIC
  | _ => TRNG_ERROR
  end.

(** The cases in which [trng_generate] gives up before any device
    access. *)
Definition generate_refused (t : versal_trng) (buf : option (list Z))
    (blen : Z) (predict : bool) : Prop :=
  buf = None
  \/ blen < TRNG_SEC_STRENGTH_LEN
  \/ status t <> TRNG_HEALTHY
  \/ (mode (usr_cfg t) = TRNG_PTRNG /\ predict = true)
  \/ (predict_en (usr_cfg t) = false /\ predict = true)
  \/ (mode (usr_cfg t) = TRNG_DRNG
      /\ (elapsed_seed_life (stats t) > seed_life (usr_cfg t)
          \/ (predict = true /\ elapsed_seed_life (stats t) > 0))).

(** The device accesses of [trng_reset], [v1] and [v2] being the two
    words read from [CTRL]. *)
Definition reset_events (a v1 v2 : Z) : list event :=
  [EvWrite (a + TRNG_RESET) TRNG_RESET_VAL_MASK;
   EvDelay RESET_DELAY;
   EvWrite (a + TRNG_RESET) 0;
   EvRead (a + TRNG_CTRL) v1;
   EvWrite (a + TRNG_CTRL)
     (Z.lor (Z.land v1 (not32 TRNG_CTRL_PRNGSRST_MASK))
            (Z.land TRNG_CTRL_PRNGSRST_MASK TRNG_CTRL_PRNGSRST_MASK));
   EvDelay RESET_DELAY;
   EvRead (a + TRNG_CTRL) v2;
   EvWrite (a + TRNG_CTRL)
     (Z.lor (Z.land v2 (not32 TRNG_CTRL_PRNGSRST_MASK))
            (Z.land TRNG_CTRL_PRNGSRST_MASK 0))].

(** The state after [trng_reset]. *)
Definition after_reset (s : state) : state :=
  let h := dev s in
  let a := addr (cfg (inst s)) in
  mk_state (inst s)
    (mk_hw (dev_read h) (dev_polls h) (S (S (nread h))) (nwait h)
           (rev (reset_events a
                   (u32 (dev_read h (nread h) (a + TRNG_CTRL)))
                   (u32 (dev_read h (S (nread h)) (a + TRNG_CTRL))))
            ++ log h))
    (glob s).

(** The checks [trng_reseed] makes before it looks at the seed bytes. *)
Definition reseed_rejected (t : versal_trng) (eseed : option (list Z))
    (mul : Z) : Prop :=
  status t <> TRNG_HEALTHY
  \/ mode (usr_cfg t) = TRNG_PTRNG
  \/ mode (usr_cfg t) = TRNG_MODE_OTHER
  \/ (mode (usr_cfg t) = TRNG_DRNG /\ eseed = None)
  \/ (mode (usr_cfg t) = TRNG_HRNG /\ eseed <> None)
  \/ (df_disable (usr_cfg t) = false
      /\ (mul < TRNG_MIN_DFLENMULT \/ mul > TRNG_MAX_DFLENMULT))
  \/ (df_disable (usr_cfg t) = true /\ mul <> 0).

(** [error_status res ok m]: whenever [m] returns an error, the status
    of the instance satisfies [ok]. *)
Definition error_status {A} (res : A -> TEE_Result)
    (ok : trng_status -> Prop) (m : M A) : Prop :=
  forall s a s',
    m s = Ok a s' -> res a = TEE_ERROR_GENERIC -> ok (status (inst s')).

(** The statistics right after a reseed: the byte total [b] kept, the
    bytes since the reseed and the elapsed seed life at 0. *)
Definition stats_reset (b : Z) (s : state) : Prop :=
  stats (inst s) = mk_stats b 0 0.

(** The words the next [n] reads of [CORE_OUTPUT] return. *)
Definition next_words (n : nat) (s : state) : list Z :=
  map (fun j => u32 (dev_read (dev s) (nread (dev s) + j)%nat
                       (addr (cfg (inst s)) + TRNG_CORE_OUTPUT)))
      (seq 0 n).

(** The number of words of the burst buffer. *)
Definition buflen (t : versal_trng) : nat := length (buf t).

(** ** Self tests *)

Section SelfTests.

Context {B : build}.

(** The [error:] label of the self tests, [trng->status = TRNG_ERROR],
    reached with a pointer that may be NULL. *)
Definition test_error (trng : trng_ptr) : M TEE_Result :=
  match trng with
  | TRNG_NULL => fault
  | TRNG_INSTANCE => goto_error
  end.

(** The [tests] configuration of [trng_health_test]; the members the
    initializer does not name are zero. *)
Definition health_tests : trng_usr_cfg :=
  mk_usr_cfg TRNG_HRNG 10 false false false 7
             (zeros (Z.to_nat MAX_PRE_DF_LEN))
             (zeros (Z.to_nat TRNG_PERS_STR_LEN)) false.

Definition trng_health_test (trng : trng_ptr) : M TEE_Result :=
  r <- trng_instantiate trng (Some health_tests) ;;
  if failed r then test_error trng
  else
    r <- trng_release trng ;;
    if failed r then test_error trng else ret TEE_SUCCESS.

(** The [tests] configuration of [trng_kat_test] after the two
    [memcpy]: the 48 bytes of [ext_seed] at the start of [init_seed]. *)
Definition kat_tests : trng_usr_cfg :=
  mk_usr_cfg TRNG_DRNG 5 false true true 2
             (kat_ext_seed ++ zeros (Z.to_nat MAX_PRE_DF_LEN - 48))
             kat_pers_str false.

(** [trng_kat_test(trng)]; [out] is the local array of [TRNG_GEN_LEN]
    bytes.  The [memcpy] into [tests.init_seed] needs room for the 48
    bytes of [ext_seed]. *)
Definition trng_kat_test (trng : trng_ptr) : M TEE_Result :=
  match trng with
  | TRNG_NULL => ret TEE_ERROR_GENERIC
  | TRNG_INSTANCE =>
      if MAX_PRE_DF_LEN <? TRNG_SEED_LEN then fault
      else
        r <- trng_instantiate TRNG_INSTANCE (Some kat_tests) ;;
        if failed r then goto_error
        else
          x <- trng_generate TRNG_INSTANCE (Some (zeros (Z.to_nat TRNG_GEN_LEN)))
                 TRNG_GEN_LEN false ;;
          let '(r, out) := x in
          if failed r then goto_error
          else
            match out with
            | None => fault
            | Some o =>
                o32 <- checked (load 0 (Z.to_nat TRNG_GEN_LEN) o) ;;
                if negb (bytes_eqb o32 kat_expected_out) then goto_error
                else
                  r <- trng_release TRNG_INSTANCE ;;
                  if failed r then goto_error else ret TEE_SUCCESS
            end
  end.

End SelfTests.

(** A device that answers the known-answer test of a V1 build: the
    eight reads of [CORE_OUTPUT] of the run (reads 11 to 14 and 18 to
    21) return the expected output, big-endian. *)
Definition kat_device_words : list Z :=
  zeros 11
  ++ [0x919A6B99; 0xD5BC2C11; 0x5F3AFC0B; 0x0E7BC769]
  ++ zeros 3
  ++ [0x4DE1E5FE; 0x599EAA41; 0xD348FD3D; 0xD2C4501E].

Definition kat_device_read (k : nat) (a : Z) : Z :=
  if a =? MOCK_ADDR + TRNG_STATUS then 0x801
  else if a =? MOCK_ADDR + TRNG_CORE_OUTPUT then nth k kat_device_words 0
  else 0.

(** The instance the KAT configuration gives on the simulated device. *)
Definition kat_instance : state :=
  final (@trng_instantiate build_v1 TRNG_INSTANCE (Some (kat_cfg 5))
           (fresh_state TRNG_V1 mock_read)).

(** * Properties *)

(** ** The block cipher *)

(** The cipher agrees with the AES-256 example vector of FIPS-197 C.3. *)
Example encrypt_fips197 :
  encrypt (setup_key (trng_df_init df_globals_zero) df_key DF_KEY_LEN)
          [0x00; 0x11; 0x22; 0x33; 0x44; 0x55; 0x66; 0x77;
           0x88; 0x99; 0xaa; 0xbb; 0xcc; 0xdd; 0xee; 0xff]
  = [0x8e; 0xa2; 0xb7; 0xca; 0x51; 0x67; 0x45; 0xbf;
     0xea; 0xfc; 0x49; 0x90; 0x4b; 0x49; 0x60; 0x89].
Proof. vm_compute. reflexivity. Qed.

(** ** Reasoning about the monad *)

Lemma bind_ok {A C} (m : M A) (k : A -> M C) s c s' :
  bind m k s = Ok c s' ->
  exists a s1, m s = Ok a s1 /\ k a s1 = Ok c s'.
Proof.
  unfold bind. destruct (m s) as [a s1| |]; try discriminate.
  intros H. exists a, s1. split; [reflexivity | exact H].
Qed.

Lemma bind_of_ok {A C} (m : M A) (k : A -> M C) s a s1 :
  m s = Ok a s1 -> bind m k s = k a s1.
Proof. unfold bind. intros ->. reflexivity. Qed.

Lemma final_bind {A C} (m : M A) (k : A -> M C) s :
  final (bind m k s)
  = match m s with
    | Ok a s1 => final (k a s1)
    | Panic s1 | Fault s1 => s1
    end.
Proof. unfold bind. destruct (m s); reflexivity. Qed.

Lemma keeps_ret {X A} (f : versal_trng -> X) (a : A) : keeps f (ret a).
Proof. intros s. reflexivity. Qed.

Lemma keeps_panic {X A} (f : versal_trng -> X) : keeps f (@panic A).
Proof. intros s. reflexivity. Qed.

Lemma keeps_fault {X A} (f : versal_trng -> X) : keeps f (@fault A).
Proof. intros s. reflexivity. Qed.

Lemma keeps_bind {X A C} (f : versal_trng -> X) (m : M A) (k : A -> M C) :
  keeps f m -> (forall a, keeps f (k a)) -> keeps f (bind m k).
Proof.
  intros Hm Hk s. rewrite final_bind. specialize (Hm s).
  destruct (m s) as [a s1|s1|s1]; simpl in *; auto.
  rewrite Hk. exact Hm.
Qed.

Lemma keeps_checked {X A} (f : versal_trng -> X) (o : option A) :
  keeps f (checked o).
Proof. destruct o; intros s; reflexivity. Qed.

Lemma keeps_get_inst {X} (f : versal_trng -> X) : keeps f get_inst.
Proof. intros s. reflexivity. Qed.

Lemma keeps_get_glob {X} (f : versal_trng -> X) : keeps f get_glob.
Proof. intros s. reflexivity. Qed.

Lemma keeps_put_glob {X} (f : versal_trng -> X) g : keeps f (put_glob g).
Proof. intros s. reflexivity. Qed.

Lemma keeps_upd_inst {X} (f : versal_trng -> X) (g : versal_trng -> versal_trng) :
  (forall t, f (g t) = f t) -> keeps f (upd_inst g).
Proof. intros H s. simpl. apply H. Qed.

Lemma keeps_io_read32 {X} (f : versal_trng -> X) a : keeps f (io_read32 a).
Proof. intros s. reflexivity. Qed.

Lemma keeps_io_write32 {X} (f : versal_trng -> X) a v : keeps f (io_write32 a v).
Proof. intros s. reflexivity. Qed.

Lemma keeps_udelay {X} (f : versal_trng -> X) us : keeps f (udelay us).
Proof. intros s. reflexivity. Qed.

Lemma keeps_timeout_init_us {X} (f : versal_trng -> X) t :
  keeps f (timeout_init_us t).
Proof. intros s. reflexivity. Qed.

Lemma keeps_for_loop {X A} (f : versal_trng -> X) (body : Z -> A -> M A) :
  (forall i a, keeps f (body i a)) ->
  forall n i a, keeps f (for_loop n i body a).
Proof.
  intros Hb. induction n as [|n IH]; intros i a; simpl.
  - apply keeps_ret.
  - apply keeps_bind; [apply Hb | intros a'; apply IH].
Qed.

Lemma keeps_if {X A} (f : versal_trng -> X) (c : bool) (m1 m2 : M A) :
  keeps f m1 -> keeps f m2 -> keeps f (if c then m1 else m2).
Proof. destruct c; auto. Qed.

Create HintDb keeps discriminated.

#[export] Hint Resolve keeps_ret keeps_panic keeps_fault keeps_checked
  keeps_get_inst keeps_get_glob keeps_put_glob keeps_io_read32
  keeps_io_write32 keeps_udelay keeps_timeout_init_us : keeps.

(** One step of a [keeps] proof: split binds and conditionals, close
    leaves with the hint database. *)
Ltac keeps_step :=
  lazymatch goal with
  | |- keeps _ (bind _ _) => apply keeps_bind; [ | intros ? ]
  | |- keeps _ (ret _) => apply keeps_ret
  | |- keeps _ (for_loop _ _ _ _) => apply keeps_for_loop; intros ? ?
  | |- keeps _ (upd_inst _) => apply keeps_upd_inst; intros ?; reflexivity
  | |- keeps _ (if _ then _ else _) => apply keeps_if
  | |- keeps _ (match ?x with _ => _ end) => destruct x
  | |- keeps _ _ => solve [ auto with keeps ]
  end.

Ltac keeps_auto := repeat keeps_step.

Section Frames.

Context {B : build}.
Context {X : Type} (f : versal_trng -> X).

(** The projections the frame lemmas are used with are untouched by the
    setters of the working buffers, the status and the statistics. *)
Hypothesis f_dfin : forall d t, f (set_dfin d t) = f t.
Hypothesis f_dfout : forall d t, f (set_dfout d t) = f t.
Hypothesis f_buf : forall b t, f (set_buf b t) = f t.
Hypothesis f_status : forall x t, f (set_status x t) = f t.
Hypothesis f_stats : forall x t, f (set_stats x t) = f t.

Lemma keeps_trng_read32 a off : keeps f (trng_read32 a off).
Proof. unfold trng_read32. auto with keeps. Qed.

Lemma keeps_trng_write32 a off v : keeps f (trng_write32 a off v).
Proof. unfold trng_write32. auto with keeps. Qed.

Lemma keeps_trng_write32_v2 a m v : keeps f (trng_write32_v2 a m v).
Proof. unfold trng_write32_v2. keeps_auto. Qed.

Lemma keeps_trng_clrset32 a off m v : keeps f (trng_clrset32 a off m v).
Proof. unfold trng_clrset32, io_clrsetbits32. keeps_auto. Qed.

Local Hint Resolve keeps_trng_read32 keeps_trng_write32 keeps_trng_write32_v2
  keeps_trng_clrset32 : keeps.

Lemma keeps_trng_write_perstr p : keeps f (trng_write_perstr p).
Proof. unfold trng_write_perstr. keeps_auto. Qed.

Lemma keeps_write_seed_bits a b : keeps f (write_seed_bits a b).
Proof. unfold write_seed_bits. keeps_auto. Qed.

Lemma keeps_write_seed_loop a seed n : forall idx,
  keeps f (write_seed_loop a seed n idx).
Proof.
  induction n as [|n IH]; intros idx; simpl.
  - auto with keeps.
  - apply keeps_bind; [auto with keeps|intros bs].
    apply keeps_bind; [apply keeps_write_seed_bits|intros sc].
    apply keeps_if; [auto with keeps|].
    keeps_auto; try apply IH.
Qed.

Lemma keeps_trng_write_seed seed dlen : keeps f (trng_write_seed seed dlen).
Proof.
  unfold trng_write_seed. apply keeps_bind; [auto with keeps|intros t].
  apply keeps_bind; [apply keeps_write_seed_loop|intros c].
  keeps_auto.
Qed.

Lemma keeps_trng_write32_range start n b :
  keeps f (trng_write32_range start n b).
Proof. unfold trng_write32_range. keeps_auto. Qed.

Lemma keeps_poll_loop a m e n : keeps f (poll_loop a m e n).
Proof.
  induction n as [|n IH]; simpl; [auto with keeps|].
  apply keeps_bind; [auto with keeps|intros v].
  apply keeps_if; [exact IH | auto with keeps].
Qed.

Lemma keeps_trng_wait_for_event a off m e t :
  keeps f (trng_wait_for_event a off m e t).
Proof.
  unfold trng_wait_for_event.
  apply keeps_bind; [auto with keeps|intros tref].
  apply keeps_bind; [apply keeps_poll_loop|intros _].
  keeps_auto.
Qed.

Lemma keeps_trng_soft_reset : keeps f trng_soft_reset.
Proof. unfold trng_soft_reset. keeps_auto. Qed.

Lemma keeps_trng_reset : keeps f trng_reset.
Proof. unfold trng_reset. keeps_auto; try apply keeps_trng_soft_reset. Qed.

Lemma keeps_trng_hold_reset : keeps f trng_hold_reset.
Proof. unfold trng_hold_reset. keeps_auto. Qed.

Local Hint Resolve keeps_trng_write_perstr keeps_trng_write_seed
  keeps_trng_write32_range keeps_trng_wait_for_event keeps_trng_soft_reset
  keeps_trng_reset keeps_trng_hold_reset : keeps.

Lemma keeps_dfin_store off bs : keeps f (dfin_store off bs).
Proof.
  unfold dfin_store. keeps_auto;
    try (apply keeps_upd_inst; intros ?; apply f_dfin).
Qed.

Lemma keeps_dfout_store off bs : keeps f (dfout_store off bs).
Proof.
  unfold dfout_store. keeps_auto;
    try (apply keeps_upd_inst; intros ?; apply f_dfout).
Qed.

Local Hint Resolve keeps_dfin_store keeps_dfout_store : keeps.

Lemma keeps_out_load p off n : keeps f (out_load p off n).
Proof. unfold out_load. keeps_auto. Qed.

Lemma keeps_out_store p off bs : keeps f (out_store p off bs).
Proof. unfold out_store. keeps_auto. Qed.

Lemma keeps_df_shift x src off : keeps f (df_shift x src off).
Proof. unfold df_shift. keeps_auto. Qed.

Lemma keeps_df_blocks {A} (body : Z -> A -> M A) :
  (forall i a, keeps f (body i a)) ->
  forall n i a, keeps f (df_blocks n i body a).
Proof.
  intros Hb. induction n as [|n IH]; intros i a; simpl.
  - apply keeps_ret.
  - apply keeps_bind; [apply Hb | intros a'; apply IH].
Qed.

Lemma keeps_df_step1 l i u : keeps f (df_step1 l i u).
Proof. unfold df_step1. keeps_auto. Qed.

Lemma keeps_df_step2 i p : keeps f (df_step2 i p).
Proof.
  unfold df_step2. keeps_auto;
    try apply keeps_out_load; try apply keeps_out_store.
Qed.

Lemma keeps_trng_df_algorithm out flag ps :
  keeps f (trng_df_algorithm out flag ps).
Proof.
  unfold trng_df_algorithm.
  keeps_auto; try apply keeps_df_shift;
    try (apply keeps_df_blocks; intros;
         first [apply keeps_df_step1 | apply keeps_df_step2]).
Qed.

Lemma keeps_collect_word bcnt wcnt acc : keeps f (collect_word bcnt wcnt acc).
Proof.
  unfold collect_word. destruct acc as [[m i] d]. keeps_auto;
    try (apply keeps_upd_inst; intros ?; apply f_buf).
Qed.

Lemma keeps_collect_loop n : forall bursts bcnt index dst,
  keeps f (collect_loop n bursts bcnt index dst).
Proof.
  induction n as [|n IH]; intros bursts bcnt index dst; cbn [collect_loop].
  - auto with keeps.
  - apply keeps_bind; [auto with keeps|intros t].
    apply keeps_bind; [auto with keeps|intros r].
    apply keeps_if; [auto with keeps|].
    apply keeps_bind; [keeps_auto|intros dtf].
    apply keeps_if.
    + apply keeps_bind; [|auto with keeps].
      apply keeps_upd_inst. intros t0. apply f_status.
    + apply keeps_bind.
      * apply keeps_for_loop. intros. apply keeps_collect_word.
      * intros [[m i] d]. apply keeps_if; [|apply IH].
        apply keeps_bind; [|auto with keeps].
        apply keeps_upd_inst. intros t0. apply f_status.
Qed.

Lemma keeps_trng_collect_random dst l : keeps f (trng_collect_random dst l).
Proof.
  unfold trng_collect_random. keeps_auto; try apply keeps_collect_loop.
Qed.

Lemma keeps_collect_into_entropy l : keeps f (collect_into_entropy l).
Proof.
  unfold collect_into_entropy.
  apply keeps_bind; [auto with keeps|intros t].
  apply keeps_bind; [apply keeps_trng_collect_random|intros [r d]].
  destruct d; keeps_auto;
    try (apply keeps_upd_inst; intros ?; apply f_dfin).
Qed.

Lemma keeps_reseed_nodf_v2 e p mul : keeps f (reseed_nodf_v2 e p mul).
Proof.
  unfold reseed_nodf_v2. keeps_auto;
    try (apply keeps_upd_inst; intros ?; apply f_stats).
Qed.

Lemma keeps_reseed_nodf_v1 e p : keeps f (reseed_nodf_v1 e p).
Proof.
  unfold reseed_nodf_v1.
  apply keeps_bind; [auto with keeps|intros t].
  destruct (mode (usr_cfg t)); keeps_auto;
    try apply keeps_trng_collect_random.
Qed.

Lemma keeps_trng_reseed_internal_nodf e p mul :
  keeps f (trng_reseed_internal_nodf e p mul).
Proof.
  unfold trng_reseed_internal_nodf.
  apply keeps_if; [apply keeps_reseed_nodf_v2 | apply keeps_reseed_nodf_v1].
Qed.

Lemma keeps_trng_reseed_internal_df e p :
  keeps f (trng_reseed_internal_df e p).
Proof.
  unfold trng_reseed_internal_df.
  apply keeps_bind; [apply keeps_upd_inst; intros; apply f_dfin|intros _].
  apply keeps_bind; [auto with keeps|intros t].
  destruct (mode (usr_cfg t)); keeps_auto;
    try apply keeps_trng_df_algorithm; try apply keeps_collect_into_entropy.
Qed.

Lemma keeps_goto_error : keeps f goto_error.
Proof.
  unfold goto_error. keeps_auto;
    try (apply keeps_upd_inst; intros ?; apply f_status).
Qed.

Lemma keeps_generate_error {A} (x : A) : keeps f (generate_error x).
Proof.
  unfold generate_error. keeps_auto;
    try (apply keeps_upd_inst; intros ?; apply f_status).
Qed.

End Frames.

Section FramesGenerate.

Context {B : build}.
Context {X : Type} (f : versal_trng -> X).
Hypothesis f_dfin : forall d t, f (set_dfin d t) = f t.
Hypothesis f_dfout : forall d t, f (set_dfout d t) = f t.
Hypothesis f_buf : forall b t, f (set_buf b t) = f t.
Hypothesis f_status : forall x t, f (set_status x t) = f t.
Hypothesis f_stats : forall x t, f (set_stats x t) = f t.

(** What follows the assignment of [trng->len] in
    [trng_reseed_internal]. *)
Lemma keeps_reseed_internal_tail (c : bool) e p mul
    (k : TEE_Result -> M TEE_Result) :
  (forall r, keeps f (k r)) ->
  keeps f (r <- (if c then trng_reseed_internal_nodf e p mul
                 else trng_reseed_internal_df e p) ;; k r).
Proof.
  intros Hk. apply keeps_bind; [|exact Hk].
  apply keeps_if.
  - apply keeps_trng_reseed_internal_nodf; assumption.
  - apply keeps_trng_reseed_internal_df; assumption.
Qed.

Lemma keeps_generate_collect b e l : keeps f (generate_collect b e l).
Proof.
  unfold generate_collect.
  apply keeps_bind.
  - destruct e.
    + apply keeps_bind; [apply keeps_collect_into_entropy; assumption|].
      intros r. apply keeps_ret.
    + apply keeps_bind; [apply keeps_trng_collect_random; assumption|].
      intros [r d]. apply keeps_ret.
  - intros [r b']. apply keeps_if.
    + apply keeps_generate_error; assumption.
    + apply keeps_bind; [apply keeps_upd_inst; intros; apply f_stats|intros _].
      apply keeps_bind; [apply keeps_get_inst|intros t].
      apply keeps_if; [|apply keeps_ret].
      apply keeps_bind; [apply keeps_trng_df_algorithm; assumption|].
      intros o. apply keeps_ret.
Qed.

End FramesGenerate.

(** ** Seed length after a reseed from [trng_generate] *)

Section ReseedLength.

Context {B : build}.

Lemma reseed_internal_final e p mul s :
  len (inst (final (trng_reseed_internal e p mul s)))
  = (if df_disable (usr_cfg (inst s)) then TRNG_SEED_LEN
     else u32 ((mul + 1) * BYTES_PER_BLOCK))
  /\ usr_cfg (inst (final (trng_reseed_internal e p mul s))) = usr_cfg (inst s).
Proof.
  unfold trng_reseed_internal.
  set (s1 := mk_state (set_stats (mk_stats (bytes (stats (inst s))) 0 0) (inst s))
                      (dev s) (glob s)).
  set (L := if df_disable (usr_cfg (inst s)) then TRNG_SEED_LEN
            else u32 ((mul + 1) * BYTES_PER_BLOCK)).
  set (s2 := mk_state (set_len L (inst s1)) (dev s1) (glob s1)).
  match goal with
  | |- context [bind (upd_inst ?g) ?k s] =>
      change (bind (upd_inst g) k s) with (k tt s1)
  end.
  cbv beta.
  match goal with
  | |- context [bind get_inst ?k s1] =>
      change (bind get_inst k s1) with (k (inst s1) s1)
  end.
  cbv beta.
  match goal with
  | |- context [bind (upd_inst ?g) ?k s1] =>
      change (bind (upd_inst g) k s1) with (k tt s2)
  end.
  cbv beta.
  match goal with
  | |- context [final (?m s2)] =>
      assert (Hl : keeps len m /\ keeps usr_cfg m)
  end.
  { split; apply keeps_reseed_internal_tail; try (intros; reflexivity);
      intros r; apply keeps_if;
      try (apply keeps_goto_error; intros; reflexivity);
      keeps_auto;
      try (apply keeps_trng_write32; intros; reflexivity);
      try (apply keeps_trng_clrset32; intros; reflexivity);
      try (apply keeps_trng_wait_for_event; intros; reflexivity);
      try (apply keeps_trng_read32; intros; reflexivity);
      try (apply keeps_goto_error; intros; reflexivity). }
  destruct Hl as [Hl Hu]. rewrite Hl, Hu. split; reflexivity.
Qed.

Lemma reseed_0_establishes s :
  df_disable (usr_cfg (inst s)) = false ->
  reseeded_at_0 (final (trng_reseed_internal None None 0 s)).
Proof.
  intros Hd. destruct (reseed_internal_final None None 0 s) as [Hl Hu].
  split.
  - rewrite Hl, Hd. reflexivity.
  - rewrite Hu. exact Hd.
Qed.

Lemma keeps_reseeded_at_0 {A} (m : M A) s :
  keeps len m -> keeps usr_cfg m ->
  reseeded_at_0 s -> reseeded_at_0 (final (m s)).
Proof.
  intros Hl Hu [H1 H2]. split.
  - rewrite Hl. exact H1.
  - rewrite Hu. exact H2.
Qed.

Lemma final_bind_inv {A C} (Q : state -> Prop) (m : M A) (k : A -> M C) s :
  Q (final (m s)) ->
  (forall a s1, Q s1 -> Q (final (k a s1))) ->
  Q (final (bind m k s)).
Proof.
  intros Hm Hk. rewrite final_bind.
  destruct (m s) as [a s1|s1|s1]; simpl in Hm; auto.
Qed.

(** The HRNG branch after its second reseed decision. *)
Lemma generate_hrng_tail2_inv a b buf' r s :
  reseeded_at_0 s ->
  reseeded_at_0
    (final
       ((if failed r then generate_error buf'
         else
           trng_write32 a TRNG_CTRL PRNGMODE_GEN ;;
           generate_collect b false TRNG_SEC_STRENGTH_LEN) s)).
Proof.
  intros HQ. destruct (failed r).
  - apply keeps_reseeded_at_0; auto;
      apply keeps_generate_error; intros; reflexivity.
  - apply keeps_reseeded_at_0; auto;
      (apply keeps_bind;
       [apply keeps_trng_write32; intros; reflexivity
       |intros _; apply keeps_generate_collect; intros; reflexivity]).
Qed.

(** The HRNG branch after its first reseed decision, entered with a
    length that a reseed with multiplier 0 has set. *)
Lemma generate_hrng_tail1_inv (predict : bool) a b buf' r s :
  reseeded_at_0 s ->
  reseeded_at_0
    (final
       ((if failed r then generate_error buf'
         else
           t <- get_inst ;;
           r <- (if predict && (elapsed_seed_life (stats t) >? 0)
                 then trng_reseed_internal None None 0
                 else ret TEE_SUCCESS) ;;
           if failed r then generate_error buf'
           else
             trng_write32 a TRNG_CTRL PRNGMODE_GEN ;;
             generate_collect b false TRNG_SEC_STRENGTH_LEN) s)).
Proof.
  intros HQ. destruct (failed r).
  - apply keeps_reseeded_at_0; auto;
      apply keeps_generate_error; intros; reflexivity.
  - change (bind get_inst ?k s) with (k (inst s) s). cbv beta.
    apply final_bind_inv.
    + destruct (predict && (elapsed_seed_life (stats (inst s)) >? 0)).
      * apply reseed_0_establishes. apply HQ.
      * exact HQ.
    + intros r2 s1 HQ1. apply generate_hrng_tail2_inv. exact HQ1.
Qed.

(** C9. In HRNG mode with the derivation function enabled, a
    [trng_generate] call that reseeds (seed life reached, or prediction
    resistance requested after at least one generation) runs
    [trng_reseed_internal] with multiplier 0, so whichever way the call
    ends [trng->len] is [(0 + 1) * 16 = 16], which differs from the
    configured [(dfmul + 1) * 16] for every multiplier the driver
    accepts. *)
Theorem generate_hrng_reseed_len_16 (s : state) (b : list Z) (blen : Z)
    (predict : bool) :
  mode (usr_cfg (inst s)) = TRNG_HRNG ->
  df_disable (usr_cfg (inst s)) = false ->
  status (inst s) = TRNG_HEALTHY ->
  TRNG_SEC_STRENGTH_LEN <= blen ->
  (predict = true -> predict_en (usr_cfg (inst s)) = true) ->
  seed_life (usr_cfg (inst s)) <= elapsed_seed_life (stats (inst s))
  \/ (predict = true /\ 0 < elapsed_seed_life (stats (inst s))) ->
  let s' := final (trng_generate TRNG_INSTANCE (Some b) blen predict s) in
  len (inst s') = (0 + 1) * BYTES_PER_BLOCK
  /\ len (inst s') = 16
  /\ (TRNG_MIN_DFLENMULT <= dfmul (usr_cfg (inst s)) <= TRNG_MAX_DFLENMULT ->
      len (inst s') <> (dfmul (usr_cfg (inst s)) + 1) * BYTES_PER_BLOCK).
Proof.
  intros Hm Hd Hs Hb Hp Htrig s'.
  assert (HQ : reseeded_at_0 s').
  { subst s'. unfold trng_generate.
    change (bind get_inst ?k s) with (k (inst s) s). cbv beta.
    replace (blen <? TRNG_SEC_STRENGTH_LEN) with false
      by (symmetry; apply Z.ltb_ge; exact Hb).
    rewrite Hs, Hm. cbn [status_eqb mode_eqb negb andb].
    replace (negb (predict_en (usr_cfg (inst s))) && predict) with false
      by (destruct predict; [rewrite Hp by reflexivity|];
          destruct (predict_en (usr_cfg (inst s))); reflexivity).
    destruct (elapsed_seed_life (stats (inst s)) >=? seed_life (usr_cfg (inst s)))
      eqn:Hge.
    - apply final_bind_inv.
      + apply reseed_0_establishes. exact Hd.
      + intros r s1 HQ1. apply generate_hrng_tail1_inv. exact HQ1.
    - destruct Htrig as [Hle | [Hpt Hpos]].
      + apply Z.geb_le in Hle. congruence.
      + change (bind (ret TEE_SUCCESS) ?k s) with (k TEE_SUCCESS s). cbv beta.
        cbn [failed].
        change (bind get_inst ?k s) with (k (inst s) s). cbv beta.
        replace (predict && (elapsed_seed_life (stats (inst s)) >? 0)) with true
          by (subst predict; symmetry; apply Z.gtb_lt; exact Hpos).
        apply final_bind_inv.
        * apply reseed_0_establishes. exact Hd.
        * intros r s1 HQ1. apply generate_hrng_tail2_inv. exact HQ1. }
  destruct HQ as [Hl _]. split; [exact Hl|]. split; [rewrite Hl; reflexivity|].
  intros [Hlo Hhi]. rewrite Hl.
  unfold TRNG_MIN_DFLENMULT, BYTES_PER_BLOCK in *. lia.
Qed.

End ReseedLength.

(** ** Timed poll *)

Lemma polls_events_shift f a start k :
  polls_events f a start (S k)
  = polls_events f a (S start) k ++ [EvRead a (u32 (f start a))].
Proof.
  induction k as [|k IH].
  - simpl. rewrite Nat.add_0_r. reflexivity.
  - change (polls_events f a start (S (S k)))
      with (EvRead a (u32 (f (start + S k)%nat a)) :: polls_events f a start (S k)).
    rewrite IH. simpl. replace (start + S k)%nat with (S (start + k)) by lia.
    reflexivity.
Qed.

Lemma after_reads_step s a k w :
  after_reads (after_reads s a 1 w) a k 0 = after_reads s a (S k) w.
Proof.
  unfold after_reads. cbn [inst dev glob dev_read dev_polls nread nwait log].
  rewrite (polls_events_shift (dev_read (dev s)) a (nread (dev s)) k).
  replace (nread (dev s) + 1)%nat with (S (nread (dev s))) by lia.
  rewrite <- app_assoc.
  change (polls_events (dev_read (dev s)) a (nread (dev s)) 1)
    with [EvRead a (u32 (dev_read (dev s) (nread (dev s) + 0)%nat a))].
  rewrite Nat.add_0_r. cbn [app].
  replace (S (nread (dev s)) + k)%nat with (nread (dev s) + S k)%nat by lia.
  replace (nwait (dev s) + w + 0)%nat with (nwait (dev s) + w)%nat by lia.
  rewrite ?Nat.add_0_r. reflexivity.
Qed.

Lemma io_read32_after s a :
  io_read32 a s = Ok (u32 (dev_read (dev s) (nread (dev s)) a)) (after_reads s a 1 0).
Proof.
  unfold io_read32, after_reads. cbn [polls_events app].
  rewrite !Nat.add_0_r. replace (nread (dev s) + 1)%nat with (S (nread (dev s))) by lia.
  reflexivity.
Qed.

(** The polling loop performs [k <= n] reads: every read but the last
    one misses the event, and it stops before the deadline only on a
    read that shows the event. *)
Lemma poll_loop_spec a mask ev n : forall s,
  exists k, (k <= n)%nat
    /\ poll_loop a mask ev n s = Ok tt (after_reads s a k 0)
    /\ (forall j, (j + 1 < k)%nat ->
          masked_read s a mask (nread (dev s) + j) <> ev)
    /\ ((k < n)%nat ->
          (0 < k)%nat /\ masked_read s a mask (nread (dev s) + k - 1) = ev)
    /\ ((forall j, (j < n)%nat ->
           masked_read s a mask (nread (dev s) + j) <> ev) -> k = n).
Proof.
  induction n as [|n IH]; intros s.
  - exists 0%nat. split; [lia|]. split.
    + unfold after_reads. simpl. rewrite !Nat.add_0_r. destruct s as [t [f p r w l] g].
      reflexivity.
    + split; [intros j Hj; lia|]. split; [intros Hk; lia|]. reflexivity.
  - cbn [poll_loop]. rewrite (bind_of_ok _ _ _ _ _ (io_read32_after s a)).
    destruct (Z.land (u32 (dev_read (dev s) (nread (dev s)) a)) mask =? ev) eqn:Hv.
    + (* the first poll shows the event *)
      exists 1%nat. cbn [negb]. split; [lia|]. split; [reflexivity|].
      split; [intros j Hj; lia|]. split.
      * intros _. split; [lia|]. unfold masked_read.
        replace (nread (dev s) + 1 - 1)%nat with (nread (dev s)) by lia.
        apply Z.eqb_eq. exact Hv.
      * intros Hall. exfalso. apply (Hall 0%nat); [lia|].
        unfold masked_read. rewrite Nat.add_0_r. apply Z.eqb_eq. exact Hv.
    + cbn [negb].
      destruct (IH (after_reads s a 1 0)) as [k [Hk [Hrun [Hmiss [Hearly Hfull]]]]].
      exists (S k). split; [lia|]. split.
      { rewrite Hrun. rewrite after_reads_step. reflexivity. }
      assert (Hnr : nread (dev (after_reads s a 1 0)) = S (nread (dev s))).
      { unfold after_reads. cbn. lia. }
      assert (Hmr : forall i, masked_read (after_reads s a 1 0) a mask i
                              = masked_read s a mask i) by reflexivity.
      split; [|split].
      * intros j Hj. destruct j as [|j].
        -- unfold masked_read. rewrite Nat.add_0_r. apply Z.eqb_neq. exact Hv.
        -- specialize (Hmiss j). rewrite Hnr, Hmr in Hmiss.
           replace (nread (dev s) + S j)%nat with (S (nread (dev s)) + j)%nat by lia.
           apply Hmiss. lia.
      * intros Hlt. assert (Hlt' : (k < n)%nat) by lia.
        destruct (Hearly Hlt') as [Hpos Hm]. split; [lia|].
        rewrite Hnr, Hmr in Hm.
        replace (nread (dev s) + S k - 1)%nat with (S (nread (dev s)) + k - 1)%nat by lia.
        exact Hm.
      * intros Hall. f_equal. apply Hfull. intros j Hj.
        rewrite Hnr, Hmr.
        replace (S (nread (dev s)) + j)%nat with (nread (dev s) + S j)%nat by lia.
        apply Hall. lia.
Qed.

(** A timed wait in full: the reads of the loop, then the read after
    it, whose masked value alone decides the result. *)
Lemma wait_for_event_run (addr off mask ev tmo : Z) (s : state) :
  let n := dev_polls (dev s) (nwait (dev s)) in
  exists k : nat,
    let v := u32 (dev_read (dev s) (nread (dev s) + k) (addr + off)) in
    (k <= n)%nat
    /\ trng_wait_for_event addr off mask ev tmo s
       = Ok (if negb (Z.land v mask =? ev) then TEE_ERROR_GENERIC else TEE_SUCCESS)
            (after_reads s (addr + off) (S k) 1)
    /\ (forall j, (j + 1 < k)%nat ->
          masked_read s (addr + off) mask (nread (dev s) + j) <> ev)
    /\ ((k < n)%nat ->
          masked_read s (addr + off) mask (nread (dev s) + k - 1) = ev)
    /\ ((forall j, (j < n)%nat ->
           masked_read s (addr + off) mask (nread (dev s) + j) <> ev) -> k = n).
Proof.
  intros n.
  set (s0 := after_reads s (addr + off) 0 1).
  assert (Hinit : timeout_init_us tmo s = Ok n s0).
  { unfold timeout_init_us, s0, after_reads, n. cbn [polls_events app].
    rewrite Nat.add_0_r. replace (nwait (dev s) + 1)%nat with (S (nwait (dev s))) by lia.
    reflexivity. }
  destruct (poll_loop_spec (addr + off) mask ev n s0)
    as [k [Hk [Hrun [Hmiss [Hearly Hfull]]]]].
  assert (Hs1 : after_reads s0 (addr + off) k 0 = after_reads s (addr + off) k 1).
  { unfold s0, after_reads. cbn [inst dev glob dev_read dev_polls nread nwait log polls_events app].
    rewrite !Nat.add_0_r. reflexivity. }
  assert (Hs2 : after_reads (after_reads s (addr + off) k 1) (addr + off) 1 0
                = after_reads s (addr + off) (S k) 1).
  { unfold after_reads.
    cbn [inst dev glob dev_read dev_polls nread nwait log polls_events app].
    rewrite !Nat.add_0_r.
    replace (nread (dev s) + k + 1)%nat with (nread (dev s) + S k)%nat by lia.
    reflexivity. }
  assert (Hnr0 : nread (dev s0) = nread (dev s)).
  { unfold s0, after_reads. cbn. lia. }
  exists k. cbv zeta.
  set (v := u32 (dev_read (dev s) (nread (dev s) + k) (addr + off))).
  split; [exact Hk|]. split.
  { unfold trng_wait_for_event.
    rewrite (bind_of_ok _ _ _ _ _ Hinit).
    rewrite (bind_of_ok _ _ _ _ _ Hrun). rewrite Hs1.
    rewrite (bind_of_ok _ _ _ _ _ (io_read32_after _ _)). rewrite Hs2.
    change (nread (dev (after_reads s (addr + off) k 1))) with (nread (dev s) + k)%nat.
    change (dev_read (dev (after_reads s (addr + off) k 1))) with (dev_read (dev s)).
    fold v. destruct (negb (Z.land v mask =? ev)); reflexivity. }
  split; [intros j Hj; specialize (Hmiss j Hj); rewrite Hnr0 in Hmiss; exact Hmiss|].
  split; [intros Hlt; destruct (Hearly Hlt) as [_ Hm]; rewrite Hnr0 in Hm; exact Hm|].
  intros Hall. apply Hfull. intros j Hj. rewrite Hnr0. apply Hall. exact Hj.
Qed.

(** C6. [trng_wait_for_event] always returns, and always through one
    read of the register made after the polling loop has ended.  With
    [n] polls fitting before the deadline, the loop makes [k <= n] reads
    and the final read is read number [k] of the call; the result is
    the generic error exactly when that final read, masked, differs from
    the expected value.  When no poll before the deadline shows the
    event ([k = n], the timeout case), the outcome is still decided by
    the read made after the deadline. *)
Theorem wait_for_event_final_read (addr off mask ev tmo : Z) (s : state) :
  let n := dev_polls (dev s) (nwait (dev s)) in
  exists (k : nat) (r : TEE_Result),
    let v := u32 (dev_read (dev s) (nread (dev s) + k) (addr + off)) in
    (k <= n)%nat
    /\ trng_wait_for_event addr off mask ev tmo s
       = Ok r (after_reads s (addr + off) (S k) 1)
    /\ log (dev (after_reads s (addr + off) (S k) 1))
       = EvRead (addr + off) v
           :: polls_events (dev_read (dev s)) (addr + off) (nread (dev s)) k
           ++ log (dev s)
    /\ (r = TEE_ERROR_GENERIC <-> Z.land v mask <> ev)
    /\ (r = TEE_SUCCESS <-> Z.land v mask = ev)
    /\ (forall j, (j + 1 < k)%nat ->
          masked_read s (addr + off) mask (nread (dev s) + j) <> ev)
    /\ ((k < n)%nat ->
          masked_read s (addr + off) mask (nread (dev s) + k - 1) = ev)
    /\ ((forall j, (j < n)%nat ->
           masked_read s (addr + off) mask (nread (dev s) + j) <> ev) -> k = n).
Proof.
  intros n.
  destruct (wait_for_event_run addr off mask ev tmo s)
    as [k [Hk [Hrun [Hmiss [Hearly Hfull]]]]].
  set (v := u32 (dev_read (dev s) (nread (dev s) + k) (addr + off))) in *.
  exists k, (if negb (Z.land v mask =? ev) then TEE_ERROR_GENERIC else TEE_SUCCESS).
  cbv zeta. fold v.
  split; [exact Hk|]. split; [exact Hrun|]. split; [reflexivity|].
  destruct (Z.land v mask =? ev) eqn:Hv; cbn [negb].
  - apply Z.eqb_eq in Hv.
    split; [split; [discriminate|congruence]|].
    split; [split; [intros _; exact Hv|reflexivity]|].
    auto.
  - apply Z.eqb_neq in Hv.
    split; [split; [intros _; exact Hv|reflexivity]|].
    split; [split; [discriminate|congruence]|].
    auto.
Qed.

(** ** Service call of length 0 *)

(** C10. [versal_trng_get_random_bytes] with [len = 0] makes no
    [trng_generate] call and no device access, leaves the caller's
    buffer and the instance as they are (whatever the status, and even
    for a NULL instance pointer) and returns [TEE_SUCCESS]. *)
Theorem get_random_bytes_len_0 {B : build} (trng : trng_ptr)
    (buf : option (list Z)) (s : state) :
  versal_trng_get_random_bytes trng buf 0 s = Ok (TEE_SUCCESS, buf) s.
Proof. reflexivity. Qed.

(** ** Serial seed load *)

Lemma add_events_app e1 e2 s :
  add_events e2 (add_events e1 s) = add_events (e1 ++ e2) s.
Proof.
  unfold add_events. cbn [inst dev glob dev_read dev_polls nread nwait log].
  rewrite rev_app_distr, app_assoc. reflexivity.
Qed.

Lemma add_events_nil s : add_events [] s = s.
Proof. destruct s as [t [f p r w l] g]. reflexivity. Qed.

Lemma write_seed_bits_run a b s :
  write_seed_bits a b s
  = Ok (reconstruct (seed_bits b))
       (add_events (map (EvWrite (a + TRNG_CTRL_4)) (seed_bits b)) s).
Proof. reflexivity. Qed.

Lemma reconstruct_seed_bits b : is_byte b -> reconstruct (seed_bits b) = b.
Proof.
  intros [Hlo Hhi].
  assert (Hall : forallb (fun n => reconstruct (seed_bits (Z.of_nat n)) =? Z.of_nat n)
                         (seq 0 256) = true) by (vm_compute; reflexivity).
  rewrite forallb_forall in Hall.
  specialize (Hall (Z.to_nat b)).
  rewrite Z2Nat.id in Hall by exact Hlo.
  apply Z.eqb_eq. apply Hall. apply in_seq. lia.
Qed.

Lemma load_one (i : nat) (seed : list Z) :
  (i < length seed)%nat -> load i 1 seed = Some [nth i seed 0].
Proof.
  intros Hi. unfold load.
  replace (i + 1 <=? length seed)%nat with true
    by (symmetry; apply Nat.leb_le; lia).
  f_equal. revert i Hi. induction seed as [|x t IH]; intros i Hi.
  - simpl in Hi. lia.
  - destruct i as [|i]; [reflexivity|]. simpl in Hi.
    change (skipn (S i) (x :: t)) with (skipn i t).
    change (nth (S i) (x :: t) 0) with (nth i t 0).
    apply IH. lia.
Qed.

Lemma firstn_skipn_cons (i n : nat) (l : list Z) :
  (i < length l)%nat ->
  firstn (S n) (skipn i l) = nth i l 0 :: firstn n (skipn (S i) l).
Proof.
  revert i. induction l as [|x t IH]; intros i Hi.
  - simpl in Hi. lia.
  - destruct i as [|i].
    + reflexivity.
    + change (skipn (S i) (x :: t)) with (skipn i t).
      change (skipn (S (S i)) (x :: t)) with (skipn (S i) t).
      change (nth (S i) (x :: t) 0) with (nth i t 0).
      apply IH. simpl in Hi. lia.
Qed.

(** The byte loop writes [n] bytes from index [i] on and never leaves
    through the mismatch branch. *)
Lemma write_seed_loop_run a seed n : forall (i : nat) s,
  Forall is_byte seed ->
  (i + n <= length seed)%nat ->
  write_seed_loop a seed n (Z.of_nat i) s
  = Ok true (add_events (seed_events a (firstn n (skipn i seed)) (Z.of_nat i)) s).
Proof.
  induction n as [|n IH]; intros i s Hb Hlen.
  - cbn [write_seed_loop firstn seed_events]. rewrite add_events_nil. reflexivity.
  - cbn [write_seed_loop]. rewrite Nat2Z.id.
    rewrite load_one by lia. cbn [checked].
    change (bind (ret ?x) ?k s) with (k x s). cbv beta.
    change (rd [nth i seed 0] 0) with (nth i seed 0).
    set (b := nth i seed 0).
    assert (Hbyte : is_byte b).
    { rewrite Forall_forall in Hb. apply Hb. apply nth_In. lia. }
    rewrite (bind_of_ok _ _ _ _ _ (write_seed_bits_run a b s)).
    rewrite reconstruct_seed_bits by exact Hbyte.
    rewrite Z.eqb_refl. cbn [negb].
    rewrite firstn_skipn_cons by lia. fold b. cbn [seed_events].
    replace (Z.of_nat i + 1) with (Z.of_nat (S i)) by lia.
    unfold seed_byte_events.
    destruct (Z.of_nat i mod TRNGPSX_DF_NUM_OF_BYTES_BEFORE_MIN_700CLKS_WAIT =? 0).
    + change (bind (udelay ?d) ?k ?s0) with (k tt (add_events [EvDelay d] s0)).
      cbv beta.
      change (bind (udelay ?d) ?k ?s0) with (k tt (add_events [EvDelay d] s0)).
      cbv beta.
      rewrite IH by (assumption || lia).
      rewrite !add_events_app. rewrite <- !app_assoc. reflexivity.
    + change (bind (udelay ?d) ?k ?s0) with (k tt (add_events [EvDelay d] s0)).
      cbv beta.
      change (bind (ret tt) ?k ?s0) with (k tt s0). cbv beta.
      rewrite IH by (assumption || lia).
      rewrite !add_events_app. rewrite <- !app_assoc. reflexivity.
Qed.

Lemma seed_len_no_wrap dlen :
  u32 ((u8 dlen + 1) * TRNGPSX_BLOCK_LEN_IN_BYTES)
  = (u8 dlen + 1) * TRNGPSX_BLOCK_LEN_IN_BYTES.
Proof.
  unfold u32, u8, TRNGPSX_BLOCK_LEN_IN_BYTES.
  assert (H := Z.mod_pos_bound dlen 256 ltac:(lia)).
  apply Z.mod_small. lia.
Qed.

(** The whole serial load: its result and the exact sequence of device
    events. *)
Lemma trng_write_seed_run (seed : list Z) (dlen : Z) (s : state) :
  Forall is_byte seed ->
  (u8 dlen + 1) * TRNGPSX_BLOCK_LEN_IN_BYTES <= Z.of_nat (length seed) ->
  trng_write_seed seed dlen s
  = Ok 0 (add_events
            (seed_events (addr (cfg (inst s)))
               (firstn (Z.to_nat ((u8 dlen + 1) * TRNGPSX_BLOCK_LEN_IN_BYTES)) seed) 0)
            s).
Proof.
  intros Hb Hlen. unfold trng_write_seed.
  change (bind get_inst ?k s) with (k (inst s) s). cbv beta.
  rewrite seed_len_no_wrap.
  set (n := Z.to_nat ((u8 dlen + 1) * TRNGPSX_BLOCK_LEN_IN_BYTES)).
  assert (Hn : (0 + n <= length seed)%nat) by (subst n; lia).
  rewrite (bind_of_ok _ _ _ _ _
             (write_seed_loop_run (addr (cfg (inst s))) seed n 0%nat s Hb Hn)).
  reflexivity.
Qed.

(** C8. In the serial seed loader the byte rebuilt from the bits written
    to [CTRL_4] is the source byte, for every byte value; hence the
    mismatch branch is never taken and [trng_write_seed] returns 0 for
    every [dlen] and every seed buffer that holds the [(dlen + 1) * 16]
    bytes it reads. *)
Theorem trng_write_seed_succeeds (seed : list Z) (dlen : Z) (s : state) :
  Forall is_byte seed ->
  (u8 dlen + 1) * TRNGPSX_BLOCK_LEN_IN_BYTES <= Z.of_nat (length seed) ->
  (forall b a s0, In b seed ->
     exists s1, write_seed_bits a b s0 = Ok b s1)
  /\ exists s', trng_write_seed seed dlen s = Ok 0 s'.
Proof.
  intros Hb Hlen. split.
  - intros b a s0 Hin. rewrite write_seed_bits_run.
    rewrite reconstruct_seed_bits; [eexists; reflexivity|].
    rewrite Forall_forall in Hb. apply Hb. exact Hin.
  - eexists. apply trng_write_seed_run; assumption.
Qed.

(** ** The input packer of the derivation function *)

Section Packer.

Context {B : build}.

(** The fields of [struct trng_dfin] have non-negative sizes and the
    structure fits the address space. *)
Hypothesis iv_nonneg : 0 <= DF_IP_IV_LEN.
Hypothesis pre_df_nonneg : 0 <= MAX_PRE_DF_LEN.
Hypothesis pad_nonneg : 0 <= DF_PAD_DATA_LEN.
Hypothesis dfin_fits : SIZEOF_DFIN < 18446744073709551616.

Lemma df_pack_params_inv len has_pstr dfin_len val1 xfer src offset :
  0 <= len ->
  df_pack_params len has_pstr = Some (dfin_len, val1, xfer, src, offset) ->
  0 <= offset
  /\ src - offset = DFIN_ENTROPY_OFF + len
  /\ src + xfer = SIZEOF_DFIN
  /\ DF_PAD_DATA_LEN <= xfer.
Proof using iv_nonneg pre_df_nonneg pad_nonneg dfin_fits.
  intros Hlen. unfold df_pack_params.
  assert (Hsz : SIZEOF_DFIN
                = 4 * DF_IP_IV_LEN + 8 + MAX_PRE_DF_LEN + 48 + DF_PAD_DATA_LEN)
    by reflexivity.
  assert (Hps : DFIN_PSTR_OFF = 4 * DF_IP_IV_LEN + 8 + MAX_PRE_DF_LEN)
    by reflexivity.
  assert (Hpd : DFIN_PAD_OFF = 4 * DF_IP_IV_LEN + 8 + MAX_PRE_DF_LEN + 48)
    by reflexivity.
  assert (Hen : DFIN_ENTROPY_OFF = 4 * DF_IP_IV_LEN + 8) by reflexivity.
  assert (Hpl : TRNG_PERS_STR_LEN = 48) by reflexivity.
  destruct has_pstr; cbn [negb].
  - destruct (len >? MAX_PRE_DF_LEN) eqn:Hg; [discriminate|].
    intros H. injection H as _ _ Hx Hs Ho. subst xfer src offset.
    assert (Hle : len <= MAX_PRE_DF_LEN)
      by (rewrite Z.gtb_ltb in Hg; apply Z.ltb_ge in Hg; lia).
    unfold usize. rewrite Z.mod_small by lia. lia.
  - destruct (len >? MAX_PRE_DF_LEN + TRNG_PERS_STR_LEN) eqn:Hg; [discriminate|].
    intros H. injection H as _ _ Hx Hs Ho. subst xfer src offset.
    assert (Hle : len <= MAX_PRE_DF_LEN + TRNG_PERS_STR_LEN)
      by (rewrite Z.gtb_ltb in Hg; apply Z.ltb_ge in Hg; lia).
    unfold usize. rewrite Z.mod_small by lia. lia.
Qed.

Lemma bind_no_panic {A C} (m : M A) (k : A -> M C) :
  (forall s s', m s <> Panic s') ->
  (forall a s s', k a s <> Panic s') ->
  forall s s', bind m k s <> Panic s'.
Proof.
  intros Hm Hk s s'. unfold bind. specialize (Hm s).
  destruct (m s) as [a s1|s1|s1].
  - apply Hk.
  - exfalso. exact (Hm s1 eq_refl).
  - discriminate.
Qed.

Lemma checked_no_panic {A} (o : option A) s s' : checked o s <> Panic s'.
Proof. destruct o; discriminate. Qed.

Lemma dfin_store_no_panic off bs s s' : dfin_store off bs s <> Panic s'.
Proof.
  unfold dfin_store. apply bind_no_panic; [discriminate|]. intros t.
  apply bind_no_panic; [apply checked_no_panic|]. intros d. discriminate.
Qed.

(** Past its guard the move reads and writes memory and never panics. *)
Lemma df_shift_guard (xfer src offset : Z) (s s' : state) :
  offset <> 0 ->
  df_shift xfer src offset s = Panic s' -> xfer > offset.
Proof.
  intros Hoff. unfold df_shift.
  replace (offset =? 0) with false by (symmetry; apply Z.eqb_neq; exact Hoff).
  cbn [negb].
  destruct (xfer >? offset) eqn:Hg.
  - intros _. rewrite Z.gtb_ltb in Hg. apply Z.ltb_lt in Hg. lia.
  - intros H. exfalso. revert H.
    apply bind_no_panic; [discriminate|]. intros t.
    apply bind_no_panic; [apply checked_no_panic|]. intros bs.
    apply bind_no_panic; [apply dfin_store_no_panic|]. intros _.
    apply dfin_store_no_panic.
Qed.

(** C7. When the packer's move toward the entropy is made (non-zero
    offset, no panic), the transfer length is at most the offset, so the
    source range [[src, src + xfer_len)] and the destination range
    [[src - offset, src - offset + xfer_len)] share no byte, and both lie
    inside [struct trng_dfin]; the move ends in the panic exactly when
    its ranges would overlap ([xfer_len > offset]). *)
Theorem df_shift_no_overlap (len : Z) (has_pstr : bool)
    (dfin_len val1 xfer src offset : Z) (s : state) :
  0 <= len ->
  df_pack_params len has_pstr = Some (dfin_len, val1, xfer, src, offset) ->
  offset <> 0 ->
  let dst := src - offset in
  (xfer > offset <-> df_shift xfer src offset s = Panic s)
  /\ (df_shift xfer src offset s <> Panic s ->
        xfer <= offset
        /\ DFIN_ENTROPY_OFF <= dst
        /\ dst + xfer <= src
        /\ src + xfer <= SIZEOF_DFIN
        /\ (forall i, src <= i < src + xfer -> ~ (dst <= i < dst + xfer))).
Proof using iv_nonneg pre_df_nonneg pad_nonneg dfin_fits.
  intros Hlen Hp Hoff dst.
  destruct (df_pack_params_inv _ _ _ _ _ _ _ Hlen Hp) as [Ho [Hd [Hs Hx]]].
  assert (Hpanic : xfer > offset -> df_shift xfer src offset s = Panic s).
  { intros Hgt. unfold df_shift.
    replace (offset =? 0) with false by (symmetry; apply Z.eqb_neq; exact Hoff).
    cbn [negb].
    replace (xfer >? offset) with true by (symmetry; apply Z.gtb_lt; lia).
    reflexivity. }
  split.
  - split; [exact Hpanic|]. apply df_shift_guard. exact Hoff.
  - intros Hrun.
    assert (Hle : xfer <= offset).
    { destruct (Z_le_gt_dec xfer offset) as [H|H]; [exact H|].
      exfalso. apply Hrun. apply Hpanic. exact H. }
    subst dst. split; [exact Hle|]. split; [lia|]. split; [lia|].
    split; [lia|]. intros i Hi. lia.
Qed.

End Packer.

(** ** Stuck-output detection *)

Lemma store_ok (off : nat) (bs mem : list Z) :
  (off + length bs <= length mem)%nat ->
  exists m', store off bs mem = Some m' /\ length m' = length mem.
Proof.
  intros H. unfold store.
  replace (off + length bs <=? length mem)%nat with true
    by (symmetry; apply Nat.leb_le; exact H).
  eexists. split; [reflexivity|].
  rewrite !length_app, length_firstn, length_skipn. lia.
Qed.

Lemma bytes_eqb_eq a b : bytes_eqb a b = true <-> a = b.
Proof.
  revert b. induction a as [|x a IH]; intros [|y b]; simpl;
    try (split; [discriminate|discriminate]); try (split; reflexivity).
  rewrite andb_true_iff, Z.eqb_eq, IH. split.
  - intros [-> ->]. reflexivity.
  - intros H. injection H as -> ->. split; reflexivity.
Qed.

Section StuckOutput.

Context {B : build}.

(** The word loop of one burst without a destination. *)
Lemma collect_words_null bcnt index s :
  length (buf (inst s)) = RAND_BUF_LEN ->
  for_loop (Z.to_nat BURST_WORDS) 0 (collect_word bcnt) (true, index, None) s
  = Ok (burst_match bcnt (buf (inst s))
          (burst_values s (addr (cfg (inst s)) + TRNG_CORE_OUTPUT)),
        index, None)
       (after_burst s (addr (cfg (inst s)) + TRNG_CORE_OUTPUT)).
Proof.
  destruct s as [[c u di do st bf l sts] [f p r w lg] g]. cbn [inst buf].
  intros Hb.
  destruct bf as [|b0 [|b1 [|b2 [|b3 [|b4 bf]]]]]; try discriminate Hb.
  change (Z.to_nat BURST_WORDS) with 4%nat.
  unfold burst_match, after_burst, after_reads, burst_values. cbn.
  change (Pos.to_nat 1) with 1%nat. change (Pos.to_nat 2) with 2%nat.
  change (Pos.to_nat 3) with 3%nat. cbn.
  replace (r + 0)%nat with r by lia.
  replace (r + 1)%nat with (S r) by lia.
  replace (r + 2)%nat with (S (S r)) by lia.
  replace (r + 3)%nat with (S (S (S r))) by lia.
  replace (r + 4)%nat with (S (S (S (S r)))) by lia.
  replace (w + 0)%nat with w by lia.
  unfold set_buf, ret. cbn [cfg usr_cfg dfin dfout status buf len stats].
  destruct (0 <? bcnt); cbn [andb]; [|reflexivity].
  destruct (b0 =? u32 (f r (addr c + TRNG_CORE_OUTPUT)));
  destruct (b1 =? u32 (f (S r) (addr c + TRNG_CORE_OUTPUT)));
  destruct (b2 =? u32 (f (S (S r)) (addr c + TRNG_CORE_OUTPUT)));
  destruct (b3 =? u32 (f (S (S (S r))) (addr c + TRNG_CORE_OUTPUT)));
  reflexivity.
Qed.

Lemma collect_word_null_eq bcnt wcnt m idx s :
  collect_word bcnt wcnt (m, idx, None) s
  = Ok (word_match bcnt wcnt m s, idx, None) (after_word wcnt s).
Proof. reflexivity. Qed.

Lemma collect_word_some_eq bcnt wcnt m idx d s :
  collect_word bcnt wcnt (m, idx, Some d) s
  = match store (Z.to_nat (4 * idx)) (be32_bytes (next_word s)) d with
    | Some d' => Ok (word_match bcnt wcnt m s, idx + 1, Some d') (after_word wcnt s)
    | None => Fault (after_word wcnt s)
    end.
Proof.
  unfold collect_word.
  change (bind get_inst ?k s) with (k (inst s) s). cbv beta.
  unfold trng_read32, bind, io_read32, upd_inst, checked.
  cbn [inst dev glob].
  fold (next_word s).
  destruct (store (Z.to_nat (4 * idx)) (be32_bytes (next_word s)) d);
    reflexivity.
Qed.

(** With a destination that has room, the word loop does to the
    instance and the device what it does without a destination. *)
Lemma for_loop_words_some bcnt n : forall wcnt m idx0 idx d s m' s',
  0 <= idx ->
  (Z.to_nat (4 * idx) + 4 * n <= length d)%nat ->
  for_loop n wcnt (collect_word bcnt) (m, idx0, None) s
  = Ok (m', idx0, None) s' ->
  exists d', length d' = length d
    /\ for_loop n wcnt (collect_word bcnt) (m, idx, Some d) s
       = Ok (m', idx + Z.of_nat n, Some d') s'.
Proof.
  induction n as [|n IH]; intros wcnt m idx0 idx d s m' s' Hidx Hlen Hrun.
  - cbn [for_loop] in *. injection Hrun as -> ->.
    exists d. split; [reflexivity|]. unfold ret. rewrite Z.add_0_r. reflexivity.
  - cbn [for_loop] in *.
    rewrite (bind_of_ok _ _ _ _ _ (collect_word_null_eq bcnt wcnt m idx0 s)) in Hrun.
    unfold bind at 1. rewrite collect_word_some_eq.
    destruct (store_ok (Z.to_nat (4 * idx)) (be32_bytes (next_word s)) d)
      as [d1 [Hst Hl1]]; [cbn [be32_bytes length]; lia|].
    rewrite Hst.
    destruct (IH (wcnt + 1) (word_match bcnt wcnt m s) idx0 (idx + 1) d1
                 (after_word wcnt s) m' s') as [d' [Hl' Hrun']].
    + lia.
    + rewrite Hl1. replace (4 * (idx + 1)) with (4 * idx + 4) by lia.
      rewrite Z2Nat.inj_add by lia. change (Z.to_nat 4) with 4%nat. lia.
    + exact Hrun.
    + exists d'. split; [congruence|]. rewrite Hrun'.
      replace (idx + 1 + Z.of_nat n) with (idx + Z.of_nat (S n)) by lia.
      reflexivity.
Qed.

(** The word loop of one burst, with or without a destination [dst]
    that has room for the four words at word index [idx]. *)
Lemma collect_words_run bcnt idx dst s :
  length (buf (inst s)) = RAND_BUF_LEN ->
  0 <= idx ->
  (forall d, dst = Some d -> (Z.to_nat (4 * idx) + 16 <= length d)%nat) ->
  exists idx' dst',
    for_loop (Z.to_nat BURST_WORDS) 0 (collect_word bcnt) (true, idx, dst) s
    = Ok (burst_match bcnt (buf (inst s))
            (burst_values s (addr (cfg (inst s)) + TRNG_CORE_OUTPUT)),
          idx', dst')
         (after_burst s (addr (cfg (inst s)) + TRNG_CORE_OUTPUT))
    /\ 0 <= idx'
    /\ (forall d', dst' = Some d' ->
          exists d, dst = Some d /\ length d' = length d /\ idx' = idx + 4)
    /\ (dst' = None -> dst = None).
Proof.
  intros Hb Hidx Hroom. destruct dst as [d|].
  - destruct (for_loop_words_some bcnt 4 0 true idx idx d s _ _ Hidx
                (Hroom d eq_refl) (collect_words_null bcnt idx s Hb))
      as [d' [Hl Hrun]].
    exists (idx + 4), (Some d'). split; [exact Hrun|]. split; [lia|].
    split; [|discriminate].
    intros d2 Hd2. injection Hd2 as <-. exists d. auto.
  - exists idx, None. split; [apply collect_words_null; exact Hb|].
    split; [exact Hidx|]. split; [discriminate|reflexivity].
Qed.

Lemma reads_at_app a e1 e2 :
  reads_at a (e1 ++ e2) = reads_at a e1 ++ reads_at a e2.
Proof.
  induction e1 as [|e t IH]; [reflexivity|].
  destruct e as [a' v|a' v|us]; cbn [app reads_at]; rewrite IH;
    try reflexivity.
  destruct (a' =? a); reflexivity.
Qed.

Lemma reads_at_other a a' f start k :
  a' <> a -> reads_at a (rev (polls_events f a' start k)) = [].
Proof.
  intros Hne. induction k as [|k IH]; [reflexivity|].
  cbn [polls_events rev]. rewrite reads_at_app, IH. cbn [reads_at app].
  replace (a' =? a) with false by (symmetry; apply Z.eqb_neq; exact Hne).
  reflexivity.
Qed.

Lemma reads_at_burst s a :
  reads_at a (rev (polls_events (dev_read (dev s)) a (nread (dev s)) 4))
  = burst_values s a.
Proof.
  unfold burst_values. cbn [polls_events rev app reads_at map].
  rewrite !Z.eqb_refl. reflexivity.
Qed.

Lemma log_after_reads s a k w :
  log (dev (after_reads s a k w))
  = polls_events (dev_read (dev s)) a (nread (dev s)) k ++ log (dev s).
Proof. reflexivity. Qed.

Lemma burst_app_old k (W V : list Z) :
  (4 * k + 4 <= length W)%nat -> burst k (W ++ V) = burst k W.
Proof.
  intros H. unfold burst. rewrite skipn_app, firstn_app.
  rewrite length_skipn.
  replace (4 - (length W - 4 * k))%nat with 0%nat by lia.
  cbn [firstn]. rewrite app_nil_r. reflexivity.
Qed.

Lemma burst_app_new c (W V : list Z) :
  length W = (4 * c)%nat -> length V = 4%nat -> burst c (W ++ V) = V.
Proof.
  intros HW HV. unfold burst. rewrite skipn_app.
  rewrite skipn_all2 by lia. rewrite HW.
  replace (4 * c - 4 * c)%nat with 0%nat by lia. cbn [skipn app].
  rewrite <- HV. apply firstn_all.
Qed.

Lemma no_repeat_extend c (W V old : list Z) :
  length W = (4 * c)%nat -> length V = 4%nat ->
  no_repeat W ->
  ((0 < c)%nat -> burst (c - 1) W = old /\ V <> old) ->
  no_repeat (W ++ V).
Proof.
  intros HW HV Hno Hnew k Hk Hlen.
  rewrite length_app in Hlen.
  destruct (Nat.eq_dec k c) as [->|Hkc].
  - rewrite burst_app_new by assumption.
    rewrite burst_app_old by lia.
    destruct (Hnew Hk) as [Hold Hne]. rewrite Hold. exact Hne.
  - rewrite !burst_app_old by lia. apply Hno; lia.
Qed.

Lemma status_core_distinct a : a + TRNG_STATUS <> a + TRNG_CORE_OUTPUT.
Proof. unfold TRNG_STATUS, TRNG_CORE_OUTPUT. lia. Qed.

Lemma ctrl_core_distinct a : a + TRNG_CTRL <> a + TRNG_CORE_OUTPUT.
Proof. unfold TRNG_CTRL, TRNG_CORE_OUTPUT. lia. Qed.

(** The burst loop.  [evs] are the events of the call so far, [c] the
    bursts completed; they hold no repeated burst and [trng->buf] is the
    last of them.  The loop returns, and either the words it has read in
    the end still hold no repeated burst, or it has returned the error
    with the status set to catastrophic. *)
Lemma collect_loop_inv n : forall bursts (c : nat) idx dst s evs L0,
  let A := addr (cfg (inst s)) + TRNG_CORE_OUTPUT in
  bursts = Z.of_nat (c + n) ->
  length (buf (inst s)) = RAND_BUF_LEN ->
  0 <= idx ->
  (forall d, dst = Some d -> (Z.to_nat (4 * idx) + 16 * n <= length d)%nat) ->
  log (dev s) = rev evs ++ L0 ->
  length (reads_at A evs) = (4 * c)%nat ->
  ((0 < c)%nat -> burst (c - 1) (reads_at A evs) = buf (inst s)) ->
  no_repeat (reads_at A evs) ->
  exists r dst' s' evs',
    collect_loop n bursts (Z.of_nat c) idx dst s = Ok (r, dst') s'
    /\ log (dev s') = rev evs' ++ L0
    /\ (no_repeat (reads_at A evs')
        \/ (r = TEE_ERROR_GENERIC /\ status (inst s') = TRNG_CATASTROPHIC)).
Proof.
  induction n as [|n IH];
    intros bursts c idx dst s evs L0 A Hbursts Hbuf Hidx Hroom Hlog HlenW Hlast Hno.
  - exists TEE_SUCCESS, dst, s, evs. split; [reflexivity|]. split; [exact Hlog|].
    left. exact Hno.
  - cbn [collect_loop].
    change (bind get_inst ?k s) with (k (inst s) s). cbv beta.
    set (a := addr (cfg (inst s))) in *.
    destruct (wait_for_event_run a TRNG_STATUS TRNG_STATUS_QCNT_MASK
                (Z.shiftl TRNG_MAX_QCNT TRNG_STATUS_QCNT_SHIFT)
                TRNG_GENERATE_TIMEOUT s) as [k [_ [Hwait _]]].
    rewrite (bind_of_ok _ _ _ _ _ Hwait). clear Hwait.
    set (s1 := after_reads s (a + TRNG_STATUS) (S k) 1).
    set (E1 := rev (polls_events (dev_read (dev s)) (a + TRNG_STATUS)
                                 (nread (dev s)) (S k))).
    assert (Hlog1 : log (dev s1) = rev (evs ++ E1) ++ L0).
    { unfold s1, E1. rewrite log_after_reads, Hlog, rev_app_distr, rev_involutive.
      rewrite app_assoc. reflexivity. }
    assert (HW1 : reads_at A (evs ++ E1) = reads_at A evs).
    { rewrite reads_at_app. unfold E1.
      rewrite reads_at_other by apply status_core_distinct.
      apply app_nil_r. }
    match goal with
    | |- context [failed ?r] => destruct (failed r)
    end.
    { (* timeout *)
      exists TEE_ERROR_GENERIC, dst, s1, (evs ++ E1).
      split; [reflexivity|]. split; [exact Hlog1|].
      left. rewrite HW1. exact Hno. }
    (* the DTF check *)
    assert (Hdtf : exists (dtf : bool) s2 E2,
      (if negb (mode_eqb (mode (usr_cfg (inst s))) TRNG_PTRNG)
       then val <- trng_read32 a TRNG_STATUS ;;
            ret (negb (Z.land val TRNG_STATUS_DTF_MASK =? 0))
       else ret false) s1 = Ok dtf s2
      /\ inst s2 = inst s
      /\ log (dev s2) = rev (evs ++ E2) ++ L0
      /\ reads_at A (evs ++ E2) = reads_at A evs).
    { destruct (negb (mode_eqb (mode (usr_cfg (inst s))) TRNG_PTRNG)).
      - unfold trng_read32.
        rewrite (bind_of_ok _ _ _ _ _ (io_read32_after s1 (a + TRNG_STATUS))).
        eexists _, (after_reads s1 (a + TRNG_STATUS) 1 0),
          (E1 ++ rev (polls_events (dev_read (dev s1)) (a + TRNG_STATUS)
                                   (nread (dev s1)) 1)).
        split; [reflexivity|]. split; [reflexivity|]. split.
        + rewrite log_after_reads, Hlog1.
          rewrite !rev_app_distr, rev_involutive, <- !app_assoc. reflexivity.
        + rewrite app_assoc, reads_at_app, HW1.
          rewrite reads_at_other by apply status_core_distinct.
          apply app_nil_r.
      - exists false, s1, E1. split; [reflexivity|]. split; [reflexivity|].
        split; [exact Hlog1|exact HW1]. }
    destruct Hdtf as [dtf [s2 [E2 [Hrun2 [Hinst2 [Hlog2 HW2]]]]]].
    rewrite (bind_of_ok _ _ _ _ _ Hrun2). clear Hrun2.
    destruct dtf.
    { (* DTF set *)
      eexists TEE_ERROR_GENERIC, dst, _, (evs ++ E2).
      split; [reflexivity|]. split; [exact Hlog2|].
      right. split; reflexivity. }
    (* the four words *)
    assert (Hbuf2 : length (buf (inst s2)) = RAND_BUF_LEN) by (rewrite Hinst2; exact Hbuf).
    assert (Hroom2 : forall d, dst = Some d ->
                       (Z.to_nat (4 * idx) + 16 <= length d)%nat).
    { intros d Hd. specialize (Hroom d Hd). lia. }
    destruct (collect_words_run (Z.of_nat c) idx dst s2 Hbuf2 Hidx Hroom2)
      as [idx' [dst' [Hwords [Hidx' [Hsome Hnone]]]]].
    rewrite (bind_of_ok _ _ _ _ _ Hwords). clear Hwords.
    rewrite Hinst2. fold a. fold A.
    set (V := burst_values s2 A).
    set (s3 := after_burst s2 A).
    set (E3 := E2 ++ rev (polls_events (dev_read (dev s2)) A (nread (dev s2)) 4)).
    assert (HV : length V = 4%nat) by reflexivity.
    assert (Hlog3 : log (dev s3) = rev (evs ++ E3) ++ L0).
    { unfold s3, after_burst, E3. cbn [dev]. rewrite log_after_reads, Hlog2.
      rewrite !rev_app_distr, rev_involutive, <- !app_assoc. reflexivity. }
    assert (HW3 : reads_at A (evs ++ E3) = reads_at A evs ++ V).
    { unfold E3. rewrite app_assoc, reads_at_app, HW2, reads_at_burst.
      reflexivity. }
    destruct ((1 <? bursts) && (0 <? Z.of_nat c)
              && burst_match (Z.of_nat c) (buf (inst s)) V) eqn:Hdup.
    { (* repeated burst *)
      eexists TEE_ERROR_GENERIC, dst', _, (evs ++ E3).
      split; [reflexivity|]. split; [exact Hlog3|].
      right. split; reflexivity. }
    (* next burst *)
    assert (Hno3 : no_repeat (reads_at A evs ++ V)).
    { apply (no_repeat_extend c _ _ (buf (inst s))); try assumption.
      intros Hc. split; [apply Hlast; exact Hc|].
      intros Heq.
      assert (H1 : (1 <? bursts) = true) by (apply Z.ltb_lt; lia).
      assert (H2 : (0 <? Z.of_nat c) = true) by (apply Z.ltb_lt; lia).
      rewrite H1, H2 in Hdup. cbn [andb] in Hdup.
      unfold burst_match in Hdup. rewrite H2 in Hdup.
      assert (Htrue : bytes_eqb (buf (inst s)) V = true)
        by (apply bytes_eqb_eq; symmetry; exact Heq).
      congruence. }
    destruct (IH bursts (S c) idx' dst' s3 (evs ++ E3) L0)
      as [r [dst'' [s' [evs' [Hrun [Hlog' Hres]]]]]].
    + lia.
    + reflexivity.
    + exact Hidx'.
    + intros d' Hd'. destruct (Hsome d' Hd') as [d [Hd [Hl Hi]]].
      specialize (Hroom d Hd). rewrite Hl. subst idx'.
      replace (4 * (idx + 4)) with (4 * idx + 16) by lia.
      rewrite Z2Nat.inj_add by lia. change (Z.to_nat 16) with 16%nat. lia.
    + exact Hlog3.
    + change (addr (cfg (inst s3)) + TRNG_CORE_OUTPUT)
        with (addr (cfg (inst s2)) + TRNG_CORE_OUTPUT).
      rewrite Hinst2. fold a. fold A. rewrite HW3, length_app, HlenW, HV. lia.
    + intros _.
      change (addr (cfg (inst s3)) + TRNG_CORE_OUTPUT)
        with (addr (cfg (inst s2)) + TRNG_CORE_OUTPUT).
      rewrite Hinst2. fold a. fold A. rewrite HW3.
      replace (S c - 1)%nat with c by lia.
      rewrite burst_app_new by assumption. reflexivity.
    + change (addr (cfg (inst s3)) + TRNG_CORE_OUTPUT)
        with (addr (cfg (inst s2)) + TRNG_CORE_OUTPUT).
      rewrite Hinst2. fold a. fold A. rewrite HW3. exact Hno3.
    + exists r, dst'', s', evs'.
      replace (Z.of_nat c + 1) with (Z.of_nat (S c)) by lia.
      split; [exact Hrun|]. split; [exact Hlog'|].
      revert Hres.
      change (addr (cfg (inst s3)) + TRNG_CORE_OUTPUT)
        with (addr (cfg (inst s2)) + TRNG_CORE_OUTPUT).
      rewrite Hinst2. fold a. fold A. auto.
Qed.

Lemma new_events_of_log (s s' : state) evs :
  log (dev s') = rev evs ++ log (dev s) -> new_events s s' = evs.
Proof.
  intros H. unfold new_events. rewrite H, length_app.
  replace (length (rev evs) + length (log (dev s)) - length (log (dev s)))%nat
    with (length (rev evs) + 0)%nat by lia.
  rewrite firstn_app_2. cbn [firstn]. rewrite app_nil_r. apply rev_involutive.
Qed.

(** C4. [trng_collect_random] returns for every device behaviour when
    the destination (if any) has room for [len] bytes.  If among the
    words it has read from [CORE_OUTPUT] some burst after the first
    equals the burst read just before it, the call has returned
    [TEE_ERROR_GENERIC] and the status is [TRNG_CATASTROPHIC]. *)
Theorem collect_random_stuck_output (dst : option (list Z)) (len : Z)
    (s : state) :
  length (buf (inst s)) = RAND_BUF_LEN ->
  (forall d, dst = Some d -> usize len <= Z.of_nat (length d)) ->
  exists r dst' s',
    trng_collect_random dst len s = Ok (r, dst') s'
    /\ forall k : nat,
         let ws := reads_at (addr (cfg (inst s)) + TRNG_CORE_OUTPUT)
                            (new_events s s') in
         (0 < k)%nat -> (4 * k + 4 <= length ws)%nat ->
         burst k ws = burst (k - 1) ws ->
         r = TEE_ERROR_GENERIC /\ status (inst s') = TRNG_CATASTROPHIC.
Proof.
  intros Hbuf Hroom. unfold trng_collect_random.
  change (bind get_inst ?k s) with (k (inst s) s). cbv beta.
  set (a := addr (cfg (inst s))).
  set (bursts := usize len / TRNG_BURST_SIZE).
  assert (Hb0 : 0 <= bursts).
  { unfold bursts, usize, TRNG_BURST_SIZE. apply Z.div_pos; [|lia].
    apply Z.mod_pos_bound. lia. }
  assert (Hb16 : 16 * bursts <= usize len).
  { unfold bursts, TRNG_BURST_SIZE.
    assert (H := Z.mul_div_le (usize len) 16 ltac:(lia)). lia. }
  unfold trng_clrset32, io_clrsetbits32.
  set (v := u32 (dev_read (dev s) (nread (dev s)) (a + TRNG_CTRL))).
  set (x := Z.lor (Z.land v (not32 TRNG_CTRL_PRNGSTART_MASK))
                  (Z.land TRNG_CTRL_PRNGSTART_MASK TRNG_CTRL_PRNGSTART_MASK)).
  set (s0 := mk_state (inst s)
               (mk_hw (dev_read (dev s)) (dev_polls (dev s)) (S (nread (dev s)))
                      (nwait (dev s))
                      (EvWrite (a + TRNG_CTRL) x
                         :: EvRead (a + TRNG_CTRL) v :: log (dev s)))
               (glob s)).
  match goal with
  | |- context [bind ?m ?k s] =>
      assert (Hstart : m s = Ok tt s0) by reflexivity;
      rewrite (bind_of_ok m k s tt s0 Hstart)
  end.
  assert (Hrd : reads_at (addr (cfg (inst s0)) + TRNG_CORE_OUTPUT)
                  [EvRead (a + TRNG_CTRL) v; EvWrite (a + TRNG_CTRL) x] = []).
  { change (addr (cfg (inst s0))) with a. cbn [reads_at].
    replace (a + TRNG_CTRL =? a + TRNG_CORE_OUTPUT) with false
      by (symmetry; apply Z.eqb_neq; apply ctrl_core_distinct).
    reflexivity. }
  destruct (collect_loop_inv (Z.to_nat bursts) bursts 0 0 dst s0
              [EvRead (a + TRNG_CTRL) v; EvWrite (a + TRNG_CTRL) x] (log (dev s)))
    as [r [dst' [s' [evs' [Hrun [Hlog Hres]]]]]].
  - cbn [Nat.add]. rewrite Z2Nat.id by exact Hb0. reflexivity.
  - exact Hbuf.
  - lia.
  - intros d Hd. specialize (Hroom d Hd). cbn [Z.mul Z.to_nat Nat.add]. lia.
  - reflexivity.
  - rewrite Hrd. reflexivity.
  - intros H. lia.
  - rewrite Hrd. intros k Hk Hlen. cbn [length] in Hlen. lia.
  - change (addr (cfg (inst s0))) with a in Hres.
    exists r, dst', s'. split; [exact Hrun|].
    intros k. cbv zeta. rewrite (new_events_of_log s s' evs' Hlog).
    intros Hk Hlen Hdup.
    destruct Hres as [Hno | Hcat]; [|exact Hcat].
    exfalso. exact (Hno k Hk Hlen Hdup).
Qed.

End StuckOutput.

(** ** Release *)

(** A successful [trng_release]: twelve zero writes to the seed
    registers, twelve to the personalization registers, the reset held;
    the instance is left as [released] describes, so [trng->dfin] is not
    touched. *)
Lemma trng_release_run {B : build} (s : state) :
  status (inst s) <> TRNG_UNINITIALIZED ->
  let a := addr (cfg (inst s)) in
  let v := u32 (dev_read (dev s) (nread (dev s)) (a + TRNG_CTRL)) in
  trng_release TRNG_INSTANCE s
  = Ok TEE_SUCCESS
       (mk_state (released (inst s))
          (mk_hw (dev_read (dev s)) (dev_polls (dev s)) (S (nread (dev s)))
                 (nwait (dev s))
                 (rev (release_events a v) ++ log (dev s)))
          (glob s)).
Proof.
  intros Hst a v. subst a v.
  destruct s as [[c u di do st bf l sts] [f p r w lg] g].
  cbn [inst status] in Hst.
  destruct st; [congruence| | |]; reflexivity.
Qed.

(** [trng_release] on an uninitialized instance is an error. *)
Lemma trng_release_uninitialized {B : build} (s : state) :
  status (inst s) = TRNG_UNINITIALIZED ->
  trng_release TRNG_INSTANCE s
  = Ok TEE_ERROR_GENERIC
       (mk_state (set_status TRNG_ERROR (inst s)) (dev s) (glob s)).
Proof.
  intros Hst. unfold trng_release.
  change (bind get_inst ?k s) with (k (inst s) s). cbv beta.
  rewrite Hst. reflexivity.
Qed.

(** C1. The KAT scenario on the V1 path (DRNG, derivation function with
    multiplier 2, the seed and personalization string of
    [trng_kat_test]): instantiate, generate, release all succeed and the
    status is back to uninitialized, yet the [entropy] field of
    [trng->dfin] still holds the 48 bytes of the initial seed and the
    bytes after it still hold the personalization string; the
    configuration, [dfout] and the burst buffer are zeroed. *)
Theorem release_leaves_seed_in_dfin :
  let s' := final kat_then_release in
  returned kat_then_release = Some (TEE_SUCCESS, TEE_SUCCESS, TEE_SUCCESS)
  /\ status (inst s') = TRNG_UNINITIALIZED
  /\ firstn 48 (skipn (Z.to_nat (@DFIN_ENTROPY_OFF build_v1)) (dfin (inst s')))
     = kat_ext_seed
  /\ firstn 48 (skipn (Z.to_nat (@DFIN_ENTROPY_OFF build_v1) + 48) (dfin (inst s')))
     = kat_pers_str
  /\ init_seed (usr_cfg (inst s')) = zeros 160
  /\ pstr (usr_cfg (inst s')) = zeros 48
  /\ dfout (inst s') = zeros 48
  /\ buf (inst s') = zeros 4.
Proof. vm_compute. repeat split; reflexivity. Qed.

(** ** Output length of the derivation function *)

Ltac bind_inv H :=
  let a := fresh "a" in
  let s := fresh "s" in
  let H1 := fresh "Hrun" in
  apply bind_ok in H; destruct H as [a [s [H1 H]]].

(** Step 2 into a caller's buffer reads block [32 .. 48) first: it
    returns only if the buffer holds 48 bytes. *)
Lemma df_step2_buffer_48 {B : build} (b : list Z) s o s' :
  df_blocks DF_SEED_BLOCKS 0 df_step2 (AtBuffer b) s = Ok o s' ->
  (48 <= length b)%nat.
Proof.
  change DF_SEED_BLOCKS with 3%nat. cbn [df_blocks]. intros H.
  bind_inv H. clear H. unfold df_step2 in Hrun. bind_inv Hrun. clear Hrun.
  change (0 =? 0) with true in Hrun0. cbv iota in Hrun0.
  unfold out_load, checked, load in Hrun0.
  change (Z.to_nat TRNG_SEC_STRENGTH_LEN) with 32%nat in Hrun0.
  change (Z.to_nat BLK_SIZE) with 16%nat in Hrun0.
  destruct (32 + 16 <=? length b)%nat eqn:Hle; [|discriminate].
  apply Nat.leb_le in Hle. exact Hle.
Qed.

(** Whatever the flag, [trng_df_algorithm] returns only when the object
    behind its [dfout] argument holds the 48 bytes it writes. *)
Lemma df_algorithm_buffer_48 {B : build} (b : list Z) flag ps s o s' :
  trng_df_algorithm (AtBuffer b) flag ps s = Ok o s' ->
  (48 <= length b)%nat.
Proof.
  unfold trng_df_algorithm. intros H.
  bind_inv H. bind_inv H. bind_inv H. bind_inv H. bind_inv H.
  destruct (df_pack_params (len a3) match ps with Some _ => true | None => false end)
    as [[[[[dfin_len val1] xfer] src] offset]|]; [|discriminate].
  do 9 bind_inv H.
  eapply df_step2_buffer_48. exact H.
Qed.

(** C2. PTRNG with the derivation function enabled: the derivation
    function run with flag RAND stores three blocks through its
    [dfout] argument.  [versal_trng_get_random_bytes] for 32 bytes into
    a 32-byte object therefore ends in an access outside the object;
    with a 64-byte object [trng_generate] succeeds and bytes 32..47,
    beyond the 32 requested, are overwritten while bytes 48..63 keep
    their value. *)
Theorem df_rand_writes_48_bytes :
  let s1 := final ptrng_df_instance in
  returned ptrng_df_instance = Some TEE_SUCCESS
  /\ status (inst s1) = TRNG_HEALTHY
  /\ is_fault (@versal_trng_get_random_bytes build_v1 TRNG_INSTANCE
                 (Some (zeros 32)) 32 s1) = true
  /\ is_fault (@trng_generate build_v1 TRNG_INSTANCE (Some (zeros 32)) 32 false s1)
     = true
  /\ exists b,
       returned (@trng_generate build_v1 TRNG_INSTANCE (Some (zeros 64)) 32 false s1)
       = Some (TEE_SUCCESS, Some b)
       /\ length b = 64%nat
       /\ Forall (fun x => x <> 0) (firstn 16 (skipn 32 b))
       /\ skipn 48 b = zeros 16.
Proof.
  cbv zeta. split; [vm_compute; reflexivity|].
  split; [vm_compute; reflexivity|].
  split; [vm_compute; reflexivity|].
  split; [vm_compute; reflexivity|].
  eexists. split; [vm_compute; reflexivity|].
  split; [reflexivity|]. split; [|reflexivity].
  cbn [skipn firstn]. repeat constructor; discriminate.
Qed.

(** ** Seed life *)

(** The seed-life guard of the DRNG branch lets a generation through
    whenever the elapsed seed life is at most the seed life, equality
    included. *)
Lemma drng_generate_at_seed_life {B : build} (s : state) (b : list Z) (blen : Z) :
  mode (usr_cfg (inst s)) = TRNG_DRNG ->
  status (inst s) = TRNG_HEALTHY ->
  TRNG_SEC_STRENGTH_LEN <= blen ->
  elapsed_seed_life (stats (inst s)) <= seed_life (usr_cfg (inst s)) ->
  trng_generate TRNG_INSTANCE (Some b) blen false s
  = (trng_write32 (addr (cfg (inst s))) TRNG_CTRL PRNGMODE_GEN ;;
     generate_collect b false TRNG_SEC_STRENGTH_LEN) s.
Proof.
  intros Hm Hs Hb Hle. unfold trng_generate.
  change (bind get_inst ?k s) with (k (inst s) s). cbv beta.
  replace (blen <? TRNG_SEC_STRENGTH_LEN) with false
    by (symmetry; apply Z.ltb_ge; exact Hb).
  rewrite Hs, Hm. cbn [status_eqb mode_eqb negb andb].
  rewrite !andb_false_r.
  replace (elapsed_seed_life (stats (inst s)) >? seed_life (usr_cfg (inst s)))
    with false
    by (symmetry; rewrite Z.gtb_ltb; apply Z.ltb_ge; exact Hle).
  reflexivity.
Qed.

(** C3. A DRNG instance with [seed_life = 1]: the first generation
    brings [elapsed_seed_life] to 1, the second is accepted all the same
    and brings it to 2, above the seed life; only the third is refused.
    The same run in HRNG mode reseeds before the second generation and
    never exceeds the seed life. *)
Theorem drng_generates_past_seed_life :
  seed_life (kat_cfg 1) = 1
  /\ returned (drng_life_1 1)
     = Some ([TEE_SUCCESS; TEE_SUCCESS], mk_stats 32 32 1)
  /\ returned (drng_life_1 2)
     = Some ([TEE_SUCCESS; TEE_SUCCESS; TEE_SUCCESS], mk_stats 64 64 2)
  /\ status (inst (final (drng_life_1 2))) = TRNG_HEALTHY
  /\ returned (drng_life_1 3)
     = Some ([TEE_SUCCESS; TEE_SUCCESS; TEE_SUCCESS; TEE_ERROR_GENERIC],
             mk_stats 64 64 2)
  /\ returned (hrng_life_1 3)
     = Some ([TEE_SUCCESS; TEE_SUCCESS; TEE_SUCCESS; TEE_SUCCESS],
             mk_stats 96 32 1).
Proof. repeat split; vm_compute; reflexivity. Qed.

(** ** Delays of the serial seed load *)

(** In the trace of the serial load every long delay comes when the
    number of bytes written is 1 modulo 8, hence never after a whole
    number of 8-byte groups. *)
Lemma seed_events_long_delays a seed : forall idx,
  0 <= idx ->
  Forall (fun p => p mod 8 = 1)
         (long_delay_positions a (seed_events a seed idx) (8 * idx)).
Proof.
  induction seed as [|b t IH]; intros idx Hidx.
  - constructor.
  - cbn [seed_events]. unfold seed_byte_events, seed_bits.
    cbn [map app long_delay_positions].
    repeat (rewrite Z.eqb_refl; cbn [long_delay_positions]).
    change (TRNGPSX_DF_2CLKS_WAIT =? TRNGPSX_DF_700CLKS_WAIT) with false.
    cbv iota.
    replace (8 * idx + 1 + 1 + 1 + 1 + 1 + 1 + 1 + 1) with (8 * (idx + 1)) by lia.
    destruct (idx mod TRNGPSX_DF_NUM_OF_BYTES_BEFORE_MIN_700CLKS_WAIT =? 0) eqn:Hm.
    + cbn [app long_delay_positions]. rewrite Z.eqb_refl.
      constructor; [|apply IH; lia].
      apply Z.eqb_eq in Hm.
      unfold TRNGPSX_DF_NUM_OF_BYTES_BEFORE_MIN_700CLKS_WAIT,
        TRNGPSX_BYTE_LEN_IN_BITS in *.
      rewrite Z.mul_comm, Z.div_mul by lia.
      rewrite Z.add_mod, Hm by lia. reflexivity.
    + cbn [app]. apply IH. lia.
Qed.

(** C5. The serial load of a 16-byte seed ([dlen = 0]) succeeds with
    128 bit writes to [CTRL_4] and 16 short delays, and issues the long
    delay twice: after 1 byte and after 9 bytes have been written, not
    after 8 and after 16. *)
Theorem write_seed_long_delay_after_1_and_9 :
  let s0 := fresh_state TRNG_V2 mock_read in
  let evs := new_events s0 (final write_seed_16) in
  returned write_seed_16 = Some 0
  /\ evs = seed_events MOCK_ADDR (firstn 16 kat_v2_ext_seed) 0
  /\ length (filter (fun e => match e with
                              | EvWrite a _ => a =? MOCK_ADDR + TRNG_CTRL_4
                              | _ => false
                              end) evs) = 128%nat
  /\ length (filter (fun e => match e with
                              | EvDelay us => us =? TRNGPSX_DF_2CLKS_WAIT
                              | _ => false
                              end) evs) = 16%nat
  /\ long_delay_positions MOCK_ADDR evs 0 = [1; 9].
Proof. cbv zeta. repeat split; vm_compute; reflexivity. Qed.

(** ** Witnesses *)

Lemma collect_random_stuck_output_witness :
  exists r dst' s',
    trng_collect_random (Some (zeros 32)) 32
      (fresh_state TRNG_V1 stuck_read) = Ok (r, dst') s'
    /\ r = TEE_ERROR_GENERIC /\ status (inst s') = TRNG_CATASTROPHIC.
Proof.
  destruct (collect_random_stuck_output (Some (zeros 32)) 32
              (fresh_state TRNG_V1 stuck_read))
    as [r [dst' [s' [Hrun Hdup]]]].
  - reflexivity.
  - intros d Hd. injection Hd as <-. vm_compute. discriminate.
  - exists r, dst', s'. split; [exact Hrun|].
    assert (Hs : s' = final (trng_collect_random (Some (zeros 32)) 32
                               (fresh_state TRNG_V1 stuck_read)))
      by (rewrite Hrun; reflexivity).
    apply (Hdup 1%nat).
    + lia.
    + rewrite Hs. vm_compute. lia.
    + rewrite Hs. vm_compute. reflexivity.
Defined.

Lemma df_shift_no_overlap_witness :
  let s := fresh_state TRNG_V1 mock_read in
  (56 > 112 <-> @df_shift build_v1 56 184 112 s = Panic s)
  /\ (@df_shift build_v1 56 184 112 s <> Panic s ->
        56 <= 112
        /\ @DFIN_ENTROPY_OFF build_v1 <= 184 - 112
        /\ 184 - 112 + 56 <= 184
        /\ 184 + 56 <= @SIZEOF_DFIN build_v1
        /\ (forall i, 184 <= i < 184 + 56 -> ~ (184 - 112 <= i < 184 - 112 + 56))).
Proof.
  assert (H1 : 0 <= @DF_IP_IV_LEN build_v1) by (vm_compute; discriminate).
  assert (H2 : 0 <= @MAX_PRE_DF_LEN build_v1) by (vm_compute; discriminate).
  assert (H3 : 0 <= @DF_PAD_DATA_LEN build_v1) by (vm_compute; discriminate).
  assert (H4 : @SIZEOF_DFIN build_v1 < 18446744073709551616)
    by (vm_compute; reflexivity).
  apply (@df_shift_no_overlap build_v1 H1 H2 H3 H4 48 true 128 96 56 184 112).
  - lia.
  - vm_compute. reflexivity.
  - lia.
Defined.

Lemma kat_v2_seed_bytes : Forall is_byte kat_v2_ext_seed.
Proof.
  apply Forall_forall. intros b Hb.
  assert (H : forallb (fun x => (0 <=? x) && (x <? 256)) kat_v2_ext_seed = true)
    by (vm_compute; reflexivity).
  rewrite forallb_forall in H. specialize (H b Hb).
  apply andb_true_iff in H. destruct H as [H1 H2].
  apply Z.leb_le in H1. apply Z.ltb_lt in H2. split; assumption.
Qed.

Lemma trng_write_seed_succeeds_witness :
  (forall b a s0, In b kat_v2_ext_seed ->
     exists s1, write_seed_bits a b s0 = Ok b s1)
  /\ exists s', trng_write_seed kat_v2_ext_seed 7
                  (fresh_state TRNG_V2 mock_read) = Ok 0 s'.
Proof.
  apply (trng_write_seed_succeeds kat_v2_ext_seed 7
           (fresh_state TRNG_V2 mock_read)).
  - exact kat_v2_seed_bytes.
  - vm_compute. discriminate.
Defined.

Lemma generate_hrng_reseed_len_16_witness :
  let s' := final (@trng_generate build_v1 TRNG_INSTANCE (Some (zeros 32)) 32
                     false hrng_expired_state) in
  len (inst s') = (0 + 1) * BYTES_PER_BLOCK
  /\ len (inst s') = 16
  /\ (TRNG_MIN_DFLENMULT <= 7 <= TRNG_MAX_DFLENMULT ->
      len (inst s') <> (7 + 1) * BYTES_PER_BLOCK).
Proof.
  apply (@generate_hrng_reseed_len_16 build_v1 hrng_expired_state
           (zeros 32) 32 false).
  - reflexivity.
  - reflexivity.
  - reflexivity.
  - vm_compute. discriminate.
  - discriminate.
  - left. vm_compute. discriminate.
Defined.

(** * Further properties of the driver *)

(** ** Read-modify-write of a register *)

Lemma testbit_not32 (m i : Z) :
  0 <= i ->
  Z.testbit (not32 m) i = if i <? 32 then negb (Z.testbit m i) else false.
Proof.
  intros Hi. unfold not32, u32.
  change 4294967295 with (Z.ones 32). change 4294967296 with (2 ^ 32).
  rewrite Z.lxor_spec.
  destruct (i <? 32) eqn:Hlt.
  - apply Z.ltb_lt in Hlt.
    rewrite Z.ones_spec_low by lia.
    rewrite Z.mod_pow2_bits_low by lia.
    destruct (Z.testbit m i); reflexivity.
  - apply Z.ltb_ge in Hlt.
    rewrite Z.ones_spec_high by lia.
    rewrite Z.mod_pow2_bits_high by lia. reflexivity.
Qed.

Lemma testbit_u32_high (x i : Z) : 32 <= i -> Z.testbit (u32 x) i = false.
Proof.
  intros Hi. unfold u32. change 4294967296 with (2 ^ 32).
  apply Z.mod_pow2_bits_high. lia.
Qed.

(** The value a read-modify-write stores: inside the mask the bits of
    the new value, outside it the bits that were read. *)
Lemma rmw_bits (x mask val i : Z) :
  0 <= i ->
  Z.testbit (Z.lor (Z.land (u32 x) (not32 mask)) (Z.land mask val)) i
  = if Z.testbit mask i then Z.testbit val i else Z.testbit (u32 x) i.
Proof.
  intros Hi. rewrite Z.lor_spec, !Z.land_spec, testbit_not32 by exact Hi.
  destruct (i <? 32) eqn:Hlt.
  - destruct (Z.testbit mask i), (Z.testbit val i), (Z.testbit (u32 x) i);
      reflexivity.
  - apply Z.ltb_ge in Hlt. rewrite testbit_u32_high by exact Hlt.
    destruct (Z.testbit mask i), (Z.testbit val i); reflexivity.
Qed.

(** X1. [trng_clrset32] is one read of the register followed by one
    write to it and nothing else; every bit of the value written is the
    bit of [val] where [mask] has a 1 and the bit just read where [mask]
    has a 0. *)
Theorem trng_clrset32_preserves_unmasked (a off mask val : Z) (s : state) :
  exists w : Z,
    trng_clrset32 a off mask val s = Ok tt (after_rmw s (a + off) w)
    /\ forall i, 0 <= i ->
         Z.testbit w i
         = if Z.testbit mask i then Z.testbit val i
           else Z.testbit (u32 (dev_read (dev s) (nread (dev s)) (a + off))) i.
Proof.
  eexists. split; [reflexivity|].
  intros i Hi. rewrite Z.lor_spec, Z.land_spec.
  rewrite testbit_not32 by exact Hi. rewrite !Z.land_spec.
  destruct (i <? 32) eqn:Hlt.
  - destruct (Z.testbit mask i), (Z.testbit val i),
      (Z.testbit (u32 (dev_read (dev s) (nread (dev s)) (a + off))) i);
      reflexivity.
  - apply Z.ltb_ge in Hlt. rewrite testbit_u32_high by exact Hlt.
    destruct (Z.testbit mask i), (Z.testbit val i); reflexivity.
Qed.

(** X2. [trng_write32_v2] reads the register, writes it back with the
    masked bits replaced by those of [value] and the others kept, reads
    it again, and returns 0 exactly when the masked read-back equals the
    masked value (1 otherwise). *)
Theorem trng_write32_v2_verifies (a mask value : Z) (s : state) :
  let old := u32 (dev_read (dev s) (nread (dev s)) a) in
  let back := u32 (dev_read (dev s) (S (nread (dev s))) a) in
  exists (w st : Z) (s' : state),
    trng_write32_v2 a mask value s = Ok st s'
    /\ new_events s s' = [EvRead a old; EvWrite a w; EvRead a back]
    /\ inst s' = inst s
    /\ (forall i, 0 <= i ->
          Z.testbit w i
          = if Z.testbit mask i then Z.testbit value i else Z.testbit old i)
    /\ (st = 0 <-> Z.land back mask = Z.land mask value)
    /\ (st = 1 <-> Z.land back mask <> Z.land mask value).
Proof.
  intros old back.
  set (w := Z.lor (Z.land old (not32 mask)) (Z.land mask value)).
  set (s' := mk_state (inst s)
               (mk_hw (dev_read (dev s)) (dev_polls (dev s))
                      (S (S (nread (dev s)))) (nwait (dev s))
                      (EvRead a back :: EvWrite a w :: EvRead a old :: log (dev s)))
               (glob s)).
  exists w, (if Z.land back mask =? Z.land mask value then 0 else 1), s'.
  split.
  { unfold trng_write32_v2, bind, io_read32, io_write32.
    cbn [inst dev glob dev_read dev_polls nread nwait log].
    fold old. fold w. fold back.
    destruct (Z.land back mask =? Z.land mask value); reflexivity. }
  split.
  { apply new_events_of_log. reflexivity. }
  split; [reflexivity|].
  split; [intros i Hi; apply rmw_bits; exact Hi|].
  destruct (Z.land back mask =? Z.land mask value) eqn:Hv.
  - apply Z.eqb_eq in Hv. split; split; intros; try assumption; try reflexivity;
      try discriminate; congruence.
  - apply Z.eqb_neq in Hv. split; split; intros; try assumption; try reflexivity;
      try discriminate; congruence.
Qed.


(** ** Parallel register load *)

Lemma lor_shift_byte (x b : Z) :
  0 <= b < 256 -> Z.lor (Z.shiftl x 8) b = 256 * x + b.
Proof.
  intros Hb.
  assert (Hland : Z.land (Z.shiftl x 8) b = 0).
  { apply Z.bits_inj'. intros i Hi. rewrite Z.land_spec, Z.bits_0.
    destruct (Z.lt_ge_cases i 8) as [Hlt|Hge].
    - rewrite Z.shiftl_spec_low by exact Hlt. reflexivity.
    - replace b with (b mod 2 ^ 8) by (apply Z.mod_small; exact Hb).
      rewrite Z.mod_pow2_bits_high by lia. apply andb_false_r. }
  rewrite <- Z.lxor_lor by exact Hland.
  rewrite <- Z.add_nocarry_lxor by exact Hland.
  rewrite Z.shiftl_mul_pow2 by lia. change (2 ^ 8) with 256. lia.
Qed.

Lemma pack_step (v b : Z) :
  0 <= v < 16777216 -> 0 <= b < 256 ->
  Z.lor (u32 (Z.shiftl v 8)) b = 256 * v + b.
Proof.
  intros Hv Hb. rewrite Z.shiftl_mul_pow2 by lia. change (2 ^ 8) with 256.
  unfold u32. rewrite Z.mod_small by lia.
  rewrite <- (lor_shift_byte v b Hb).
  rewrite Z.shiftl_mul_pow2 by lia. reflexivity.
Qed.

Lemma pack_word_bytes (b0 b1 b2 b3 : Z) :
  is_byte b0 -> is_byte b1 -> is_byte b2 -> is_byte b3 ->
  pack_word [b0; b1; b2; b3]
  = 16777216 * b0 + 65536 * b1 + 256 * b2 + b3.
Proof.
  unfold is_byte. intros H0 H1 H2 H3. unfold pack_word. cbn [fold_left].
  rewrite (pack_step 0 b0) by lia.
  rewrite (pack_step _ b1) by lia.
  rewrite (pack_step _ b2) by lia.
  rewrite (pack_step _ b3) by lia. lia.
Qed.

Lemma load_four (i : nat) (b : list Z) :
  (4 * i + 4 <= length b)%nat ->
  load (4 * i) 4 b
  = Some [nth (4 * i) b 0; nth (4 * i + 1) b 0;
          nth (4 * i + 2) b 0; nth (4 * i + 3) b 0].
Proof.
  intros H. unfold load.
  replace (4 * i + 4 <=? length b)%nat with true
    by (symmetry; apply Nat.leb_le; exact H).
  f_equal.
  rewrite (firstn_skipn_cons (4 * i) 3 b) by lia.
  rewrite (firstn_skipn_cons (S (4 * i)) 2 b) by lia.
  rewrite (firstn_skipn_cons (S (S (4 * i))) 1 b) by lia.
  rewrite (firstn_skipn_cons (S (S (S (4 * i)))) 0 b) by lia.
  cbn [firstn].
  replace (4 * i + 1)%nat with (S (4 * i)) by lia.
  replace (4 * i + 2)%nat with (S (S (4 * i))) by lia.
  replace (4 * i + 3)%nat with (S (S (S (4 * i)))) by lia.
  reflexivity.
Qed.

(** A loop whose pass [j] only logs the event [ev j]. *)
Lemma for_loop_events (body : Z -> unit -> M unit) (ev : nat -> event) (n : nat) :
  forall (i : nat) (s : state),
  (forall j s0, (i <= j < i + n)%nat ->
     body (Z.of_nat j) tt s0 = Ok tt (add_events [ev j] s0)) ->
  for_loop n (Z.of_nat i) body tt s = Ok tt (add_events (map ev (seq i n)) s).
Proof.
  induction n as [|n IH]; intros i s Hbody.
  - cbn [for_loop seq map]. rewrite add_events_nil. reflexivity.
  - cbn [for_loop seq map].
    rewrite (bind_of_ok _ _ _ _ _ (Hbody i s ltac:(lia))).
    replace (Z.of_nat i + 1) with (Z.of_nat (S i)) by lia.
    rewrite IH by (intros j s0 Hj; apply Hbody; lia).
    rewrite add_events_app. reflexivity.
Qed.

(** X3. [trng_write32_range] with a buffer of bytes writes, for
    [i = 0 .. num_regs - 1] in this order, the big-endian word made of
    bytes [4 i .. 4 i + 3] to the register at
    [start + (11 - i) * 4]: the first word of the buffer lands in the
    last register of the bank.  It makes no other device access and
    does not change the instance. *)
Theorem trng_write32_range_reverse_order (start : Z) (n : nat) (b : list Z)
    (s : state) :
  Forall is_byte b ->
  (4 * n <= length b)%nat ->
  trng_write32_range start (Z.of_nat n) (Some b) s
  = Ok tt
      (add_events
         (map (fun j => EvWrite (addr (cfg (inst s))
                                 + (start + (11 - Z.of_nat j) * 4))
                                (be_word_at b (Z.of_nat j)))
              (seq 0 n)) s).
Proof.
  intros Hb Hlen. unfold trng_write32_range.
  change (bind get_inst ?k s) with (k (inst s) s). cbv beta.
  rewrite Nat2Z.id.
  apply (for_loop_events _
           (fun j => EvWrite (addr (cfg (inst s)) + (start + (11 - Z.of_nat j) * 4))
                             (be_word_at b (Z.of_nat j))) n 0%nat s).
  intros j s0 Hj.
  change (Z.to_nat TRNG_BYTES_PER_REG) with 4%nat.
  replace (Z.to_nat (Z.of_nat j * TRNG_BYTES_PER_REG)) with (4 * j)%nat
    by (unfold TRNG_BYTES_PER_REG; lia).
  rewrite load_four by lia. cbn [checked].
  assert (Hnth : forall k, (k < length b)%nat -> is_byte (nth k b 0)).
  { intros k Hk. rewrite Forall_forall in Hb. apply Hb. apply nth_In. exact Hk. }
  unfold bind, ret. rewrite pack_word_bytes by (apply Hnth; lia).
  unfold be_word_at, rd.
  replace (Z.to_nat (4 * Z.of_nat j)) with (4 * j)%nat by lia.
  replace (Z.to_nat (4 * Z.of_nat j + 1)) with (4 * j + 1)%nat by lia.
  replace (Z.to_nat (4 * Z.of_nat j + 2)) with (4 * j + 2)%nat by lia.
  replace (Z.to_nat (4 * Z.of_nat j + 3)) with (4 * j + 3)%nat by lia.
  reflexivity.
Qed.

(** With a NULL buffer [trng_write32_range] writes 0 to the registers
    [start, start + 4, ...] in ascending order, and does nothing else. *)
Lemma trng_write32_range_null_zeroes (start : Z) (n : nat) (s : state) :
  trng_write32_range start (Z.of_nat n) None s
  = Ok tt
      (add_events
         (map (fun j => EvWrite (addr (cfg (inst s)) + (start + Z.of_nat j * 4)) 0)
              (seq 0 n)) s).
Proof.
  unfold trng_write32_range.
  change (bind get_inst ?k s) with (k (inst s) s). cbv beta.
  rewrite Nat2Z.id.
  apply (for_loop_events _
           (fun j => EvWrite (addr (cfg (inst s)) + (start + Z.of_nat j * 4)) 0)
           n 0%nat s).
  intros j s0 Hj. reflexivity.
Qed.

(** ** Seed pattern check *)

Lemma check_seed_loop_spec (n : nat) : forall entropy,
  check_seed_loop entropy n = TEE_ERROR_GENERIC
  <-> exists i, (i < n)%nat /\ trivial_pattern (seed_word entropy i).
Proof.
  induction n as [|n IH]; intros entropy.
  - cbn [check_seed_loop]. split; [discriminate|].
    intros [i [Hi _]]. lia.
  - cbn [check_seed_loop].
    assert (Hshift : forall i, seed_word (skipn 4 entropy) i
                               = seed_word entropy (S i)).
    { intros i. unfold seed_word. rewrite skipn_skipn.
      replace (4 * i + 4)%nat with (4 * S i)%nat by lia. reflexivity. }
    destruct (le32_word entropy =? ALL_A_PATTERN_32) eqn:HA.
    { split; [|reflexivity]. intros _. exists 0%nat. split; [lia|].
      left. apply Z.eqb_eq in HA. exact HA. }
    destruct (le32_word entropy =? ALL_5_PATTERN_32) eqn:H5.
    { split; [|reflexivity]. intros _. exists 0%nat. split; [lia|].
      right. apply Z.eqb_eq in H5. exact H5. }
    rewrite IH. apply Z.eqb_neq in HA. apply Z.eqb_neq in H5. split.
    + intros [i [Hi Hp]]. exists (S i). split; [lia|].
      rewrite <- Hshift. exact Hp.
    + intros [i [Hi Hp]]. destruct i as [|i].
      * exfalso. unfold seed_word in Hp. cbn [Nat.mul skipn] in Hp.
        destruct Hp as [Hp|Hp]; [apply HA|apply H5]; exact Hp.
      * exists i. split; [lia|]. rewrite Hshift. exact Hp.
Qed.

(** X4. [trng_check_seed] returns the error exactly when one of the
    first [len / 4] 32-bit words of the entropy is [0xAAAAAAAA] or
    [0x55555555]; the bytes after the last whole word are not looked
    at. *)
Theorem trng_check_seed_rejects_patterns (entropy : list Z) (len : Z) :
  trng_check_seed entropy len = TEE_ERROR_GENERIC
  <-> exists i : nat,
        Z.of_nat i < u32 len / 4 /\ trivial_pattern (seed_word entropy i).
Proof.
  unfold trng_check_seed. rewrite check_seed_loop_spec.
  assert (H0 : 0 <= u32 len / 4).
  { apply Z.div_pos; [|lia]. unfold u32. apply Z.mod_pos_bound. lia. }
  split; intros [i [Hi Hp]]; exists i; (split; [lia|exact Hp]).
Qed.


(** ** Release and the rejections of the state machine *)

Section Rejections.

Context {B : build}.

(** X5. [trng_release] on an instance that is not uninitialized returns
    [TEE_SUCCESS] after exactly these device accesses: 0 written to the
    twelve seed registers and to the twelve personalization registers,
    [PRNGSRST] set in [CTRL] by a read-modify-write, 1 written to
    [RESET], and the reset delay.  It leaves the status uninitialized,
    the configuration, the burst buffer and [dfout] zeroed, and [dfin],
    [len] and the statistics untouched. *)
Theorem trng_release_effects (s : state) :
  status (inst s) <> TRNG_UNINITIALIZED ->
  exists s',
    trng_release TRNG_INSTANCE s = Ok TEE_SUCCESS s'
    /\ new_events s s'
       = release_events (addr (cfg (inst s)))
           (u32 (dev_read (dev s) (nread (dev s)) (addr (cfg (inst s)) + TRNG_CTRL)))
    /\ status (inst s') = TRNG_UNINITIALIZED
    /\ usr_cfg (inst s') = usr_cfg_zero (usr_cfg (inst s))
    /\ buf (inst s') = zeros RAND_BUF_LEN
    /\ dfout (inst s') = zeros (Z.to_nat TRNG_SEED_LEN)
    /\ dfin (inst s') = dfin (inst s)
    /\ len (inst s') = len (inst s)
    /\ stats (inst s') = stats (inst s)
    /\ cfg (inst s') = cfg (inst s).
Proof.
  intros Hst. eexists. split; [apply trng_release_run; exact Hst|].
  split; [apply new_events_of_log; reflexivity|].
  repeat split.
Qed.

(** X6. [trng_release] refuses an uninitialized instance: it returns the
    error and sets the status to [TRNG_ERROR] without touching the device
    or anything else of the instance. *)
Theorem trng_release_refuses_uninitialized (s : state) :
  status (inst s) = TRNG_UNINITIALIZED ->
  trng_release TRNG_INSTANCE s
  = Ok TEE_ERROR_GENERIC (with_status TRNG_ERROR s).
Proof. intros Hst. apply trng_release_uninitialized. exact Hst. Qed.

(** Each rule of [cfg_rejected] fires one of the checks. *)
Lemma cfg_rejected_check (u : trng_usr_cfg) :
  cfg_rejected u ->
  negb (mode_eqb (mode u) TRNG_HRNG) && negb (mode_eqb (mode u) TRNG_DRNG)
    && negb (mode_eqb (mode u) TRNG_PTRNG) = true
  \/ negb (mode_eqb (mode u) TRNG_PTRNG) && (seed_life u =? 0) = true
  \/ negb (iseed_en u) && mode_eqb (mode u) TRNG_DRNG = true
  \/ iseed_en u && mode_eqb (mode u) TRNG_HRNG = true
  \/ negb (df_disable u)
     && ((dfmul u <? TRNG_MIN_DFLENMULT) || (dfmul u >? TRNG_MAX_DFLENMULT))
     = true
  \/ df_disable u && negb (dfmul u =? 0) = true
  \/ mode_eqb (mode u) TRNG_PTRNG
     && (iseed_en u || pstr_en u || predict_en u || negb (seed_life u =? 0))
     = true.
Proof.
  intros [H|[[H1 H2]|[[H1 H2]|[[H1 H2]|[[H1 H2]|[[H1 H2]|[H1 H2]]]]]]].
  - left. rewrite H. reflexivity.
  - right. left. rewrite H2. destruct (mode u); (reflexivity || congruence).
  - do 2 right. left. rewrite H1, H2. reflexivity.
  - do 3 right. left. rewrite H1, H2. reflexivity.
  - do 4 right. left. rewrite H1. cbn [negb andb].
    apply orb_true_iff. destruct H2 as [H2|H2].
    + left. apply Z.ltb_lt. exact H2.
    + right. rewrite Z.gtb_ltb. apply Z.ltb_lt. lia.
  - do 5 right. left. rewrite H1. cbn [andb].
    apply negb_true_iff. apply Z.eqb_neq. exact H2.
  - do 6 right. rewrite H1. cbn [mode_eqb andb].
    destruct H2 as [H2|[H2|[H2|H2]]].
    + rewrite H2. reflexivity.
    + rewrite H2. apply orb_true_iff. left. apply orb_true_iff. left.
      apply orb_true_r.
    + rewrite H2. apply orb_true_iff. left. apply orb_true_r.
    + apply orb_true_iff. right. apply negb_true_iff. apply Z.eqb_neq. exact H2.
Qed.

(** What [trng_instantiate] does when it rejects the call. *)
Lemma trng_instantiate_rejected_run (cfg' : option trng_usr_cfg) (s : state) :
  (cfg' = None
   \/ status (inst s) <> TRNG_UNINITIALIZED
   \/ exists u, cfg' = Some u /\ cfg_rejected u) ->
  trng_instantiate TRNG_INSTANCE cfg' s
  = Ok TEE_ERROR_GENERIC (with_status TRNG_ERROR s).
Proof.
  intros H. unfold trng_instantiate.
  destruct cfg' as [u|]; [|reflexivity].
  change (bind get_inst ?k s) with (k (inst s) s). cbv beta.
  destruct (status_eqb (status (inst s)) TRNG_UNINITIALIZED) eqn:Hs;
    cbn [negb]; [|reflexivity].
  assert (Hst : status (inst s) = TRNG_UNINITIALIZED)
    by (destruct (status (inst s)); (reflexivity || discriminate Hs)).
  destruct H as [H|[H|[u' [Hu H]]]]; [discriminate H|congruence|].
  injection Hu as <-.
  apply cfg_rejected_check in H.
  repeat match goal with
         | |- (if ?c then goto_error else _) s = _ =>
             destruct c eqn:?; [reflexivity|]
         end.
  exfalso.
  repeat match type of H with
         | _ \/ _ => destruct H as [H|H]; [congruence|]
         end.
  congruence.
Qed.

(** X7. [trng_instantiate] rejects, with the error returned, the status
    set to [TRNG_ERROR] and neither the device nor the stored
    configuration touched: a NULL configuration, an instance that is not
    uninitialized, and every configuration that breaks one of its rules
    (unknown mode; zero seed life outside PTRNG; DRNG without an initial
    seed; HRNG with one; a multiplier outside [2, 9] with the derivation
    function enabled, or non-zero with it disabled; PTRNG with an
    initial seed, a personalization string, prediction resistance or a
    seed life). *)
Theorem trng_instantiate_rejects (cfg' : option trng_usr_cfg) (s : state) :
  (cfg' = None
   \/ status (inst s) <> TRNG_UNINITIALIZED
   \/ exists u, cfg' = Some u /\ cfg_rejected u) ->
  trng_instantiate TRNG_INSTANCE cfg' s
  = Ok TEE_ERROR_GENERIC (with_status TRNG_ERROR s).
Proof. apply trng_instantiate_rejected_run. Qed.

End Rejections.


(** ** Reset and instantiation *)

Lemma trng_clrset32_run (a off mask val : Z) (s : state) :
  trng_clrset32 a off mask val s
  = Ok tt (after_rmw s (a + off)
             (Z.lor (Z.land (u32 (dev_read (dev s) (nread (dev s)) (a + off)))
                            (not32 mask))
                    (Z.land mask val))).
Proof. reflexivity. Qed.

Lemma trng_reset_run (s : state) : trng_reset s = Ok tt (after_reset s).
Proof. destruct s as [t [f p r w lg] g]. reflexivity. Qed.

(** X8. [trng_reset] pulses the hardware reset (1 to [RESET], the reset
    delay, 0 to [RESET]) and then the soft reset of the PRNG: [CTRL] is
    read and written with [PRNGSRST] set, and after the reset delay read
    and written with [PRNGSRST] cleared; both writes keep every other
    bit of [CTRL] as read.  Nothing else is accessed and the instance is
    unchanged. *)
Theorem trng_reset_sequence (s : state) :
  let a := addr (cfg (inst s)) in
  let v1 := u32 (dev_read (dev s) (nread (dev s)) (a + TRNG_CTRL)) in
  let v2 := u32 (dev_read (dev s) (S (nread (dev s))) (a + TRNG_CTRL)) in
  exists (w1 w2 : Z) (s' : state),
    trng_reset s = Ok tt s'
    /\ inst s' = inst s
    /\ new_events s s'
       = [EvWrite (a + TRNG_RESET) 1; EvDelay RESET_DELAY;
          EvWrite (a + TRNG_RESET) 0;
          EvRead (a + TRNG_CTRL) v1; EvWrite (a + TRNG_CTRL) w1;
          EvDelay RESET_DELAY;
          EvRead (a + TRNG_CTRL) v2; EvWrite (a + TRNG_CTRL) w2]
    /\ (forall i, 0 <= i ->
          Z.testbit w1 i = if i =? 0 then true else Z.testbit v1 i)
    /\ (forall i, 0 <= i ->
          Z.testbit w2 i = if i =? 0 then false else Z.testbit v2 i).
Proof.
  intros a v1 v2. do 3 eexists.
  split; [apply trng_reset_run|].
  split; [reflexivity|].
  split; [apply new_events_of_log; reflexivity|].
  assert (Hm : forall i, 0 <= i ->
            Z.testbit TRNG_CTRL_PRNGSRST_MASK i = (i =? 0)).
  { intros i Hi. unfold TRNG_CTRL_PRNGSRST_MASK, BIT.
    change (Z.shiftl 1 0) with 1.
    destruct (i =? 0) eqn:H0.
    - apply Z.eqb_eq in H0. subst i. reflexivity.
    - apply Z.eqb_neq in H0. apply Z.bits_above_log2; cbn; lia. }
  split; intros i Hi.
  - unfold v1. rewrite rmw_bits by exact Hi. rewrite (Hm i Hi).
    destruct (i =? 0) eqn:H0; [|reflexivity].
    apply Z.eqb_eq in H0. subst i. reflexivity.
  - unfold v2. rewrite rmw_bits by exact Hi. rewrite (Hm i Hi).
    destruct (i =? 0) eqn:H0; [|reflexivity].
    apply Z.testbit_0_l.
Qed.

Section Inst.
Context {B : build}.

(** The V2 health-test defaults programmed by [trng_instantiate]. *)
Lemma cutoff_defaults_run (a : Z) (s : state) :
  exists w1 w2 w3 s1 s2,
    s1 = after_rmw s (a + TRNG_CTRL_3) w1
    /\ s2 = after_rmw s1 (a + TRNG_CTRL_2) w2
    /\ (trng_clrset32 a TRNG_CTRL_3 TRNG_CTRL_3_APTCUTOFF_MASK
          (Z.shiftl TRNG_CTRL_3_APTCUTOFF_DEFVAL TRNG_CTRL_3_APTCUTOFF_SHIFT) ;;
        trng_clrset32 a TRNG_CTRL_2 TRNG_CTRL_2_RCTCUTOFF_MASK
          (Z.shiftl TRNG_CTRL_2_RCTCUTOFF_DEFVAL TRNG_CTRL_2_RCTCUTOFF_SHIFT) ;;
        trng_clrset32 a TRNG_CTRL_2 TRNG_CTRL_2_DIT_MASK
          (Z.shiftl TRNG_CTRL_2_DIT_DEFVAL TRNG_CTRL_2_DIT_SHIFT)) s
       = Ok tt (after_rmw s2 (a + TRNG_CTRL_2) w3).
Proof.
  do 5 eexists. split; [reflexivity|]. split; [reflexivity|].
  rewrite (bind_of_ok _ _ _ _ _ (trng_clrset32_run _ _ _ _ _)).
  rewrite (bind_of_ok _ _ _ _ _ (trng_clrset32_run _ _ _ _ _)).
  apply trng_clrset32_run.
Qed.

(** X9. [trng_instantiate] in PTRNG mode with a valid configuration
    succeeds: the configuration is stored, the status is healthy, and
    the only registers written are [RESET] and [CTRL] (the reset pulses)
    and, on a V2 device, [CTRL_3] and [CTRL_2] (the cutoff and DIT
    defaults).  No seed or personalization register is written and no
    reseed is run. *)
Theorem trng_instantiate_ptrng (u : trng_usr_cfg) (s : state) :
  status (inst s) = TRNG_UNINITIALIZED ->
  mode u = TRNG_PTRNG ->
  iseed_en u = false -> pstr_en u = false -> predict_en u = false ->
  seed_life u = 0 ->
  (df_disable u = false
   /\ TRNG_MIN_DFLENMULT <= dfmul u <= TRNG_MAX_DFLENMULT)
  \/ (df_disable u = true /\ dfmul u = 0) ->
  exists s',
    trng_instantiate TRNG_INSTANCE (Some u) s = Ok TEE_SUCCESS s'
    /\ status (inst s') = TRNG_HEALTHY
    /\ usr_cfg (inst s') = u
    /\ stats (inst s') = stats (inst s)
    /\ write_addrs (new_events s s')
       = map (Z.add (addr (cfg (inst s))))
             ([TRNG_RESET; TRNG_RESET; TRNG_CTRL; TRNG_CTRL]
              ++ if version_eqb (version (cfg (inst s))) TRNG_V2
                 then [TRNG_CTRL_3; TRNG_CTRL_2; TRNG_CTRL_2] else []).
Proof.
  intros Hst Hm Hi Hp Hpr Hl Hdf. unfold trng_instantiate.
  change (bind get_inst ?k s) with (k (inst s) s). cbv beta.
  rewrite Hst, Hm, Hi, Hp, Hpr, Hl.
  cbn [status_eqb mode_eqb negb andb orb Z.eqb].
  assert (Hg : (negb (df_disable u)
                && ((dfmul u <? TRNG_MIN_DFLENMULT)
                    || (dfmul u >? TRNG_MAX_DFLENMULT))) = false
               /\ (df_disable u && negb (dfmul u =? 0)) = false).
  { destruct Hdf as [[Hd [Hlo Hhi]]|[Hd H0]]; rewrite Hd; cbn [negb andb].
    - split; [|reflexivity].
      replace (dfmul u <? TRNG_MIN_DFLENMULT) with false
        by (symmetry; apply Z.ltb_ge; exact Hlo).
      replace (dfmul u >? TRNG_MAX_DFLENMULT) with false
        by (symmetry; rewrite Z.gtb_ltb; apply Z.ltb_ge; exact Hhi).
      reflexivity.
    - split; [reflexivity|]. rewrite H0. reflexivity. }
  destruct Hg as [Hg1 Hg2]. rewrite Hg1, Hg2.
  change (bind (upd_inst ?f) ?k s)
    with (k tt (mk_state (f (inst s)) (dev s) (glob s))).
  cbv beta.
  rewrite (bind_of_ok _ _ _ _ _ (trng_reset_run _)).
  destruct (version_eqb (version (cfg (inst s))) TRNG_V2) eqn:Hv;
    cbn [andb].
  - match goal with
    | |- context [bind (bind (trng_clrset32 ?a _ _ _) _) _ ?s0] =>
        destruct (cutoff_defaults_run a s0)
          as [w1 [w2 [w3 [s1 [s2 [Hs1 [Hs2 Hrun]]]]]]]
    end.
    rewrite (bind_of_ok _ _ _ _ _ Hrun).
    eexists. split; [reflexivity|].
    subst s2 s1.
    split; [reflexivity|]. split; [reflexivity|]. split; [reflexivity|].
    destruct s as [t [f p r w lg] g].
    erewrite new_events_of_log.
    2:{         cbv beta iota zeta delta
          [after_rmw after_reset inst dev glob dev_read dev_polls nread nwait
           log reset_events rev app].
        match goal with
        | |- ?x :: ?t = _ =>
            change (x :: t) with (rev (rev (firstn 14 (x :: t))) ++ lg)
        end.
        reflexivity. }
    reflexivity.
  - change (bind (ret ?x) ?k ?s0) with (k x s0). cbv beta.
    eexists. split; [reflexivity|].
    split; [reflexivity|]. split; [reflexivity|]. split; [reflexivity|].
    destruct s as [t [f p r w lg] g].
    erewrite new_events_of_log.
    2:{         cbv beta iota zeta delta
          [after_reset inst dev glob dev_read dev_polls nread nwait log].
        reflexivity. }
    reflexivity.
Qed.

End Inst.

Section Refusals.
Context {B : build}.

(** What [trng_generate] does when it is refused. *)
Lemma trng_generate_refused_run (buf : option (list Z)) (blen : Z)
    (predict : bool) (s : state) :
  generate_refused (inst s) buf blen predict ->
  trng_generate TRNG_INSTANCE buf blen predict s
  = Ok (TEE_ERROR_GENERIC, buf)
       (with_status (status_after_generate_error (status (inst s))) s).
Proof.
  intros H.
  assert (Herr : forall (x : option (list Z)),
            generate_error x s
            = Ok (TEE_ERROR_GENERIC, x)
                 (with_status (status_after_generate_error (status (inst s))) s)).
  { intros x. unfold generate_error, with_status.
    change (bind get_inst ?k s) with (k (inst s) s). cbv beta.
    destruct s as [[c uc di do st bf l sts] h g]. cbn [inst status].
    destruct st; reflexivity. }
  unfold trng_generate. destruct buf as [b|]; [|apply Herr].
  change (bind get_inst ?k s) with (k (inst s) s). cbv beta.
  destruct (blen <? TRNG_SEC_STRENGTH_LEN) eqn:Hb; [apply Herr|].
  destruct (negb (status_eqb (status (inst s)) TRNG_HEALTHY)) eqn:Hs;
    [apply Herr|].
  destruct (mode_eqb (mode (usr_cfg (inst s))) TRNG_PTRNG && predict) eqn:Hp;
    [apply Herr|].
  destruct (negb (predict_en (usr_cfg (inst s))) && predict) eqn:Hq;
    [apply Herr|].
  apply Z.ltb_ge in Hb. apply negb_false_iff in Hs.
  assert (Hst : status (inst s) = TRNG_HEALTHY)
    by (destruct (status (inst s)); (reflexivity || discriminate Hs)).
  destruct H as [H|[H|[H|[[Hm Hpr]|[[He Hpr]|[Hm H]]]]]].
  - discriminate H.
  - lia.
  - congruence.
  - rewrite Hm, Hpr in Hp. discriminate Hp.
  - rewrite He, Hpr in Hq. discriminate Hq.
  - rewrite Hm.
    destruct (elapsed_seed_life (stats (inst s)) >? seed_life (usr_cfg (inst s)))
      eqn:Hgt; [apply Herr|].
    destruct (predict && (elapsed_seed_life (stats (inst s)) >? 0)) eqn:Hpp;
      [apply Herr|].
    exfalso. rewrite Z.gtb_ltb in Hgt. apply Z.ltb_ge in Hgt.
    destruct H as [H|[Hpr H]]; [lia|].
    rewrite Hpr in Hpp. cbn [andb] in Hpp.
    rewrite Z.gtb_ltb in Hpp. apply Z.ltb_ge in Hpp. lia.
Qed.

(** X10. [trng_generate] gives up without any device access and without
    writing to the caller's buffer when the buffer is NULL, the length
    is below 32, the status is not healthy, prediction resistance is
    requested in PTRNG mode or without being enabled, or (DRNG) the
    elapsed seed life exceeds the seed life or prediction resistance is
    requested after a generation.  It returns the error; a catastrophic
    status stays catastrophic, any other status becomes [TRNG_ERROR]. *)
Theorem trng_generate_refused (buf : option (list Z)) (blen : Z)
    (predict : bool) (s : state) :
  generate_refused (inst s) buf blen predict ->
  exists s',
    trng_generate TRNG_INSTANCE buf blen predict s
    = Ok (TEE_ERROR_GENERIC, buf) s'
    /\ dev s' = dev s
    /\ status (inst s')
       = (match status (inst s) with
          | TRNG_CATASTROPHIC => TRNG_CATASTROPHIC
          | _ => TRNG_ERROR
          end)
    /\ usr_cfg (inst s') = usr_cfg (inst s)
    /\ stats (inst s') = stats (inst s)
    /\ dfin (inst s') = dfin (inst s).
Proof.
  intros H. eexists. split; [apply trng_generate_refused_run; exact H|].
  repeat split.
Qed.

End Refusals.

Section Service.
Context {B : build}.

(** A refused first generation ends the service call in [panic()]. *)
Lemma get_random_bytes_panic_run (buf : option (list Z)) (len : Z)
    (s : state) :
  0 < len ->
  (status (inst s) <> TRNG_HEALTHY
   \/ (mode (usr_cfg (inst s)) = TRNG_DRNG
       /\ elapsed_seed_life (stats (inst s)) > seed_life (usr_cfg (inst s)))) ->
  versal_trng_get_random_bytes TRNG_INSTANCE buf len s
  = Panic (with_status (status_after_generate_error (status (inst s))) s).
Proof.
  intros Hlen Hst.
  assert (Href : forall x, generate_refused (inst s) x TRNG_SEC_STRENGTH_LEN false).
  { intros x. destruct Hst as [Hst|[Hm He]].
    - right. right. left. exact Hst.
    - do 5 right. split; [exact Hm|]. left. exact He. }
  unfold versal_trng_get_random_bytes.
  destruct (Z.to_nat (len / TRNG_SEC_STRENGTH_LEN)) as [|n] eqn:Hn.
  - cbn [get_random_blocks].
    change (bind (ret ?x) ?k s) with (k x s). cbv beta.
    assert (Hmod : (len mod TRNG_SEC_STRENGTH_LEN =? 0) = false).
    { apply Z.eqb_neq. intros Hm.
      assert (Hd := Z.div_mod len TRNG_SEC_STRENGTH_LEN ltac:(discriminate)).
      assert (Hq : len / TRNG_SEC_STRENGTH_LEN <= 0).
      { destruct (Z_le_gt_dec (len / TRNG_SEC_STRENGTH_LEN) 0); [assumption|lia]. }
      assert (Hq0 : 0 <= len / TRNG_SEC_STRENGTH_LEN)
        by (apply Z.div_pos; unfold TRNG_SEC_STRENGTH_LEN; lia).
      unfold TRNG_SEC_STRENGTH_LEN in *. lia. }
    rewrite Hmod. cbn [negb].
    rewrite (bind_of_ok _ _ _ _ _
               (trng_generate_refused_run _ _ false s (Href _))).
    reflexivity.
  - cbn [get_random_blocks]. unfold bind at 1.
    unfold bind at 1.
    rewrite (trng_generate_refused_run _ _ false s (Href _)).
    reflexivity.
Qed.

(** X11. [versal_trng_get_random_bytes] for a positive length ends in
    [panic()] before any device access and before any byte of the
    caller's buffer is written when the instance is not healthy, and
    also when it is a DRNG whose elapsed seed life exceeds its seed
    life. *)
Theorem get_random_bytes_unhealthy_panics (buf : option (list Z)) (len : Z)
    (s : state) :
  0 < len ->
  (status (inst s) <> TRNG_HEALTHY
   \/ (mode (usr_cfg (inst s)) = TRNG_DRNG
       /\ elapsed_seed_life (stats (inst s)) > seed_life (usr_cfg (inst s)))) ->
  versal_trng_get_random_bytes TRNG_INSTANCE buf len s
  = Panic (with_status (status_after_generate_error (status (inst s))) s).
Proof. apply get_random_bytes_panic_run. Qed.

(** X12. [versal_trng_get_random_bytes] never hands an error back: when
    it returns, the result is [TEE_SUCCESS] (a failed generation ends in
    [panic()] instead), and for a positive length the instance was
    healthy and, as a DRNG, within its seed life. *)
Theorem get_random_bytes_returns_success (buf b' : option (list Z))
    (len : Z) (r : TEE_Result) (s s' : state) :
  versal_trng_get_random_bytes TRNG_INSTANCE buf len s = Ok (r, b') s' ->
  r = TEE_SUCCESS
  /\ (0 < len ->
      status (inst s) = TRNG_HEALTHY
      /\ (mode (usr_cfg (inst s)) = TRNG_DRNG ->
          elapsed_seed_life (stats (inst s)) <= seed_life (usr_cfg (inst s)))).
Proof.
  intros Hrun. split.
  - unfold versal_trng_get_random_bytes in Hrun.
    apply bind_ok in Hrun. destruct Hrun as [b1 [s1 [_ Hrun]]].
    destruct (negb (len mod TRNG_SEC_STRENGTH_LEN =? 0)).
    + apply bind_ok in Hrun. destruct Hrun as [[r2 rnd] [s2 [_ Hrun]]].
      cbv beta iota in Hrun.
      destruct (failed r2); [discriminate Hrun|].
      destruct b1 as [b|]; [|discriminate Hrun].
      destruct rnd as [rd'|]; [|discriminate Hrun].
      apply bind_ok in Hrun. destruct Hrun as [b2 [s3 [_ Hrun]]].
      unfold ret in Hrun. injection Hrun as <- _ _. reflexivity.
    + unfold ret in Hrun. injection Hrun as <- _ _. reflexivity.
  - intros Hlen.
    assert (Hst : status (inst s) = TRNG_HEALTHY).
    { destruct (status (inst s)) eqn:E; [|reflexivity| |];
        rewrite (get_random_bytes_panic_run buf len s Hlen) in Hrun
          by (left; rewrite E; discriminate);
        discriminate Hrun. }
    split; [exact Hst|]. intros Hm.
    destruct (Z_le_gt_dec (elapsed_seed_life (stats (inst s)))
                (seed_life (usr_cfg (inst s)))) as [Hle|Hgt];
      [exact Hle|].
    rewrite (get_random_bytes_panic_run buf len s Hlen) in Hrun
      by (right; split; [exact Hm|exact Hgt]).
    discriminate Hrun.
Qed.


End Service.

Section Reseed.
Context {B : build}.

(** Each rule of [reseed_rejected] fires one of the checks. *)
Lemma reseed_rejected_check (t : versal_trng) (eseed : option (list Z))
    (mul : Z) :
  reseed_rejected t eseed mul ->
  negb (status_eqb (status t) TRNG_HEALTHY) = true
  \/ negb (mode_eqb (mode (usr_cfg t)) TRNG_DRNG)
     && negb (mode_eqb (mode (usr_cfg t)) TRNG_HRNG) = true
  \/ mode_eqb (mode (usr_cfg t)) TRNG_DRNG && negb (is_some eseed) = true
  \/ negb (mode_eqb (mode (usr_cfg t)) TRNG_DRNG) && is_some eseed = true
  \/ negb (df_disable (usr_cfg t))
     && ((mul <? TRNG_MIN_DFLENMULT) || (mul >? TRNG_MAX_DFLENMULT)) = true
  \/ df_disable (usr_cfg t) && negb (mul =? 0) = true.
Proof.
  intros [H|[H|[H|[[H1 H2]|[[H1 H2]|[[H1 H2]|[H1 H2]]]]]]].
  - left. destruct (status t); (reflexivity || congruence).
  - right. left. rewrite H. reflexivity.
  - right. left. rewrite H. reflexivity.
  - do 2 right. left. rewrite H1, H2. reflexivity.
  - do 3 right. left. rewrite H1.
    destruct eseed; [reflexivity|congruence].
  - do 4 right. left. rewrite H1. cbn [negb andb].
    apply orb_true_iff. destruct H2 as [H2|H2].
    + left. apply Z.ltb_lt. exact H2.
    + right. rewrite Z.gtb_ltb. apply Z.ltb_lt. lia.
  - do 5 right. rewrite H1. cbn [andb].
    apply negb_true_iff. apply Z.eqb_neq. exact H2.
Qed.

(** What [trng_reseed] does when it rejects the call. *)
Lemma trng_reseed_rejected_run (eseed : option (list Z)) (mul : Z) (s : state) :
  reseed_rejected (inst s) eseed mul
  \/ (exists seed x,
        eseed = Some seed
        /\ load 0 (Z.to_nat (len (inst s))) seed = Some x
        /\ load 0 (Z.to_nat (len (inst s))) (init_seed (usr_cfg (inst s)))
           = Some x) ->
  trng_reseed TRNG_INSTANCE eseed mul s
  = Ok TEE_ERROR_GENERIC (with_status TRNG_ERROR s).
Proof.
  intros H. unfold trng_reseed.
  change (bind get_inst ?k s) with (k (inst s) s). cbv beta zeta.
  repeat match goal with
         | |- (if ?c then goto_error else _) s = _ =>
             destruct c eqn:?; [reflexivity|]
         end.
  destruct H as [H|[seed [x [He [Hx Hy]]]]].
  - exfalso. apply reseed_rejected_check in H.
    repeat match type of H with
           | _ \/ _ => destruct H as [H|H]; [congruence|]
           end.
    congruence.
  - subst eseed. rewrite Hx, Hy. cbn [checked].
    change (bind (ret ?a) ?k) with (k a). cbv beta.
    change (bind (ret ?a) ?k) with (k a). cbv beta.
    change (bind (ret ?a) ?k s) with (k a s). cbv beta.
    replace (bytes_eqb x x) with true
      by (symmetry; apply bytes_eqb_eq; reflexivity).
    reflexivity.
Qed.

(** X13. [trng_reseed] refuses, with the error returned, the status set
    to [TRNG_ERROR] and no device access: an instance that is not
    healthy, PTRNG mode, DRNG without a seed, HRNG with a seed, a
    multiplier outside [2, 9] with the derivation function enabled or
    non-zero with it disabled, and a seed whose first [trng->len] bytes
    equal those of the initial seed. *)
Theorem trng_reseed_rejects (eseed : option (list Z)) (mul : Z) (s : state) :
  reseed_rejected (inst s) eseed mul
  \/ (exists seed x,
        eseed = Some seed
        /\ load 0 (Z.to_nat (len (inst s))) seed = Some x
        /\ load 0 (Z.to_nat (len (inst s))) (init_seed (usr_cfg (inst s)))
           = Some x) ->
  trng_reseed TRNG_INSTANCE eseed mul s
  = Ok TEE_ERROR_GENERIC (with_status TRNG_ERROR s).
Proof. apply trng_reseed_rejected_run. Qed.

End Reseed.


(** ** Errors and the status of the instance *)

#[local] Hint Resolve keeps_trng_read32 keeps_trng_write32
  keeps_trng_write32_v2 keeps_trng_clrset32 keeps_trng_write_perstr
  keeps_trng_write_seed keeps_trng_write32_range keeps_trng_wait_for_event
  keeps_trng_soft_reset keeps_trng_reset keeps_trng_hold_reset : keeps.

Lemma es_bind {A C} (res : C -> TEE_Result) ok (m : M A) (k : A -> M C) :
  (forall x, error_status res ok (k x)) -> error_status res ok (bind m k).
Proof.
  intros Hk s c s' Hrun Hres.
  apply bind_ok in Hrun. destruct Hrun as [a [s1 [_ Hrun]]].
  exact (Hk a s1 c s' Hrun Hres).
Qed.

Lemma es_if {A} (res : A -> TEE_Result) ok (c : bool) (m1 m2 : M A) :
  error_status res ok m1 -> error_status res ok m2 ->
  error_status res ok (if c then m1 else m2).
Proof. destruct c; auto. Qed.

Lemma es_ret_success {A} (res : A -> TEE_Result) ok (a : A) :
  res a = TEE_SUCCESS -> error_status res ok (ret a).
Proof.
  intros Ha s a' s' Hrun Hres. injection Hrun as <- _. congruence.
Qed.

Lemma es_goto_error (ok : trng_status -> Prop) :
  ok TRNG_ERROR -> error_status (fun r => r) ok goto_error.
Proof.
  intros Hok s a s' Hrun _. injection Hrun as _ <-. exact Hok.
Qed.

Lemma es_generate_error {A} (x : A) :
  error_status fst
    (fun st => st = TRNG_ERROR \/ st = TRNG_CATASTROPHIC)
    (generate_error x).
Proof.
  intros s a s' Hrun _. unfold generate_error in Hrun.
  change (bind get_inst ?k s) with (k (inst s) s) in Hrun. cbv beta in Hrun.
  destruct (status (inst s)) eqn:Hst; cbn [status_eqb negb] in Hrun;
    injection Hrun as _ <-; cbn [inst status set_status]; auto.
Qed.

Ltac es_step :=
  lazymatch goal with
  | |- error_status _ _ (bind _ _) => apply es_bind; intros ?
  | |- error_status _ _ goto_error => apply es_goto_error; reflexivity
  | |- error_status _ _ (generate_error _) => apply es_generate_error
  | |- error_status _ _ (ret _) => apply es_ret_success; reflexivity
  | |- error_status _ _ (if _ then _ else _) => apply es_if
  | |- error_status _ _ (match ?x with _ => _ end) => destruct x
  end.

Section ErrorStatus.
Context {B : build}.

Lemma es_trng_reseed_internal e p mul :
  error_status (fun r => r) (eq TRNG_ERROR) (trng_reseed_internal e p mul).
Proof. unfold trng_reseed_internal. repeat (es_step; cbv zeta). Qed.

Lemma es_trng_instantiate c :
  error_status (fun r => r) (eq TRNG_ERROR) (trng_instantiate TRNG_INSTANCE c).
Proof. unfold trng_instantiate. repeat (es_step; cbv zeta). Qed.

Lemma es_trng_reseed e mul :
  error_status (fun r => r) (eq TRNG_ERROR) (trng_reseed TRNG_INSTANCE e mul).
Proof. unfold trng_reseed. repeat (es_step; cbv zeta). Qed.

Lemma es_trng_release :
  error_status (fun r => r) (eq TRNG_ERROR) (trng_release TRNG_INSTANCE).
Proof. unfold trng_release. repeat (es_step; cbv zeta). Qed.

(** X14. Whenever [trng_instantiate], [trng_reseed], [trng_release] or
    [trng_reseed_internal] returns an error for an instance (not the
    NULL pointer), it leaves the status of the instance at
    [TRNG_ERROR], whatever the device did and whatever the status was,
    a catastrophic one included. *)
Theorem error_return_sets_status_error
    (c : option trng_usr_cfg) (e p : option (list Z)) (mul : Z)
    (s s' : state) :
  trng_instantiate TRNG_INSTANCE c s = Ok TEE_ERROR_GENERIC s'
  \/ trng_reseed TRNG_INSTANCE e mul s = Ok TEE_ERROR_GENERIC s'
  \/ trng_release TRNG_INSTANCE s = Ok TEE_ERROR_GENERIC s'
  \/ trng_reseed_internal e p mul s = Ok TEE_ERROR_GENERIC s' ->
  status (inst s') = TRNG_ERROR.
Proof.
  intros [H|[H|[H|H]]]; symmetry.
  - exact (es_trng_instantiate c s _ s' H eq_refl).
  - exact (es_trng_reseed e mul s _ s' H eq_refl).
  - exact (es_trng_release s _ s' H eq_refl).
  - exact (es_trng_reseed_internal e p mul s _ s' H eq_refl).
Qed.

Lemma es_generate_collect b e l :
  error_status fst
    (fun st => st = TRNG_ERROR \/ st = TRNG_CATASTROPHIC)
    (generate_collect b e l).
Proof. unfold generate_collect. repeat (es_step; cbv zeta). Qed.

(** X15. Whenever [trng_generate] returns an error for an instance, the
    status it leaves is [TRNG_ERROR] or [TRNG_CATASTROPHIC]: the
    instance cannot stay healthy after a failed generation. *)
Theorem generate_error_never_healthy (buf b' : option (list Z)) (blen : Z)
    (predict : bool) (s s' : state) :
  trng_generate TRNG_INSTANCE buf blen predict s
  = Ok (TEE_ERROR_GENERIC, b') s' ->
  status (inst s') = TRNG_ERROR \/ status (inst s') = TRNG_CATASTROPHIC.
Proof.
  intros H.
  assert (Hes : error_status fst
                  (fun st => st = TRNG_ERROR \/ st = TRNG_CATASTROPHIC)
                  (trng_generate TRNG_INSTANCE buf blen predict)).
  { unfold trng_generate.
    repeat (lazymatch goal with
            | |- error_status _ _ (generate_collect _ _ _) =>
                apply es_generate_collect
            | _ => es_step
            end; cbv zeta). }
  exact (Hes s _ s' H eq_refl).
Qed.

End ErrorStatus.

(** ** Statistics across a reseed *)

Lemma stats_reset_keeps {A} (m : M A) b s :
  keeps stats m -> stats_reset b s -> stats_reset b (final (m s)).
Proof. intros Hk Hs. unfold stats_reset. rewrite Hk. exact Hs. Qed.

Lemma stats_reset_nodf_v2 e p mul b s :
  stats_reset b s -> stats_reset b (final (reseed_nodf_v2 e p mul s)).
Proof.
  intros Hs. unfold reseed_nodf_v2.
  apply final_bind_inv; [exact Hs|intros t s1 H1; cbv zeta].
  apply final_bind_inv;
    [apply stats_reset_keeps; [keeps_auto|exact H1]|intros _ s2 H2].
  apply final_bind_inv;
    [apply stats_reset_keeps; [keeps_auto|exact H2]|intros pm s3 H3].
  apply final_bind_inv;
    [apply stats_reset_keeps; [keeps_auto|exact H3]|intros _ s4 H4].
  apply final_bind_inv;
    [apply stats_reset_keeps; [keeps_auto|exact H4]|intros _ s5 H5].
  unfold stats_reset in *. cbn. rewrite H5. reflexivity.
Qed.

Section ReseedStats.
Context {B : build}.

Lemma stats_reset_reseed_internal (e p : option (list Z)) (mul : Z)
    (s : state) :
  stats_reset (bytes (stats (inst s))) (final (trng_reseed_internal e p mul s)).
Proof.
  unfold trng_reseed_internal.
  apply final_bind_inv; [reflexivity|intros _ s1 H1].
  apply final_bind_inv; [exact H1|intros t s2 H2].
  apply final_bind_inv;
    [apply stats_reset_keeps; [keeps_auto|exact H2]|intros _ s3 H3].
  apply final_bind_inv.
  - destruct (df_disable (usr_cfg t) || version_eqb (version (cfg t)) TRNG_V2).
    + unfold trng_reseed_internal_nodf. destruct CFG_VERSAL_RNG_DRV_V2.
      * apply stats_reset_nodf_v2. exact H3.
      * apply stats_reset_keeps; [|exact H3].
        apply keeps_reseed_nodf_v1; intros; reflexivity.
    + apply stats_reset_keeps; [|exact H3].
      apply keeps_trng_reseed_internal_df; intros; reflexivity.
  - intros r s4 H4. apply stats_reset_keeps; [|exact H4].
    apply keeps_if; [apply keeps_goto_error; intros; reflexivity|].
    cbv zeta. keeps_auto;
      try (apply keeps_goto_error; intros; reflexivity).
Qed.

(** X16. However [trng_reseed_internal] ends, it leaves the bytes since
    the last reseed and the elapsed seed life at 0 and the total byte
    count as it was. *)
Theorem reseed_internal_resets_stats (e p : option (list Z)) (mul : Z)
    (s : state) :
  stats (inst (final (trng_reseed_internal e p mul s)))
  = mk_stats (bytes (stats (inst s))) 0 0.
Proof. apply stats_reset_reseed_internal. Qed.

End ReseedStats.


(** ** The bytes [trng_collect_random] delivers *)

Lemma store_split (P bs R : list Z) :
  (length bs <= length R)%nat ->
  store (length P) bs (P ++ R) = Some (P ++ bs ++ skipn (length bs) R).
Proof.
  intros H. unfold store. rewrite length_app.
  replace (length P + length bs <=? length P + length R)%nat with true
    by (symmetry; apply Nat.leb_le; lia).
  rewrite firstn_app, firstn_all, Nat.sub_diag. cbn [firstn].
  rewrite app_nil_r, skipn_app.
  rewrite skipn_all2 by lia.
  replace (length P + length bs - length P)%nat with (length bs) by lia.
  reflexivity.
Qed.

Lemma next_words_S n wcnt s :
  next_words (S n) s = next_word s :: next_words n (after_word wcnt s).
Proof.
  unfold next_words, next_word, after_word.
  cbn [seq map inst dev cfg set_buf dev_read nread].
  rewrite Nat.add_0_r. f_equal.
  rewrite <- seq_shift, map_map. apply map_ext. intros j.
  rewrite Nat.add_succ_r. reflexivity.
Qed.

(** With a destination [P ++ R] whose prefix [P] ends at the word index,
    the word loop appends the big-endian bytes of the words it reads. *)
Lemma for_loop_words_data bcnt n : forall wcnt m idx0 idx P R s m' s',
  0 <= idx ->
  length P = Z.to_nat (4 * idx) ->
  (4 * n <= length R)%nat ->
  for_loop n wcnt (collect_word bcnt) (m, idx0, None) s
  = Ok (m', idx0, None) s' ->
  for_loop n wcnt (collect_word bcnt) (m, idx, Some (P ++ R)) s
  = Ok (m', idx + Z.of_nat n,
        Some ((P ++ flat_map be32_bytes (next_words n s)) ++ skipn (4 * n) R))
       s'.
Proof.
  induction n as [|n IH]; intros wcnt m idx0 idx P R s m' s' Hidx HP HR Hrun.
  - cbn [for_loop] in *. injection Hrun as -> ->.
    unfold ret. cbn [next_words seq map flat_map Nat.mul skipn].
    rewrite Z.add_0_r, app_nil_r. reflexivity.
  - cbn [for_loop] in *.
    rewrite (bind_of_ok _ _ _ _ _ (collect_word_null_eq bcnt wcnt m idx0 s)) in Hrun.
    unfold bind at 1. rewrite collect_word_some_eq.
    rewrite <- HP.
    rewrite store_split by (cbn [be32_bytes length]; lia).
    rewrite app_assoc.
    rewrite (IH (wcnt + 1) (word_match bcnt wcnt m s) idx0 (idx + 1)
                (P ++ be32_bytes (next_word s))
                (skipn (length (be32_bytes (next_word s))) R)
                (after_word wcnt s) m' s').
    + rewrite (next_words_S n wcnt s). cbn [flat_map].
      rewrite skipn_skipn.
      replace (4 * n + length (be32_bytes (next_word s)))%nat
        with (4 * S n)%nat by (cbn [be32_bytes length]; lia).
      replace (idx + 1 + Z.of_nat n) with (idx + Z.of_nat (S n)) by lia.
      rewrite <- !app_assoc. reflexivity.
    + lia.
    + rewrite length_app, HP. cbn [be32_bytes length].
      replace (4 * (idx + 1)) with (4 * idx + 4) by lia.
      rewrite Z2Nat.inj_add by lia. reflexivity.
    + rewrite length_skipn. cbn [be32_bytes length]. lia.
    + exact Hrun.
Qed.

Lemma burst_values_next_words s :
  burst_values s (addr (cfg (inst s)) + TRNG_CORE_OUTPUT) = next_words 4 s.
Proof. reflexivity. Qed.

(** The burst loop when it succeeds: the events it adds, the words
    among them, and the destination it leaves. *)
Lemma collect_loop_data n : forall bursts bcnt idx P R s dst' s',
  length (buf (inst s)) = RAND_BUF_LEN ->
  0 <= idx ->
  length P = Z.to_nat (4 * idx) ->
  (16 * n <= length R)%nat ->
  collect_loop n bursts bcnt idx (Some (P ++ R)) s
  = Ok (TEE_SUCCESS, dst') s' ->
  exists evs,
    log (dev s') = rev evs ++ log (dev s)
    /\ length (reads_at (addr (cfg (inst s)) + TRNG_CORE_OUTPUT) evs)
       = (4 * n)%nat
    /\ dst' = Some (P ++ flat_map be32_bytes
                           (reads_at (addr (cfg (inst s)) + TRNG_CORE_OUTPUT) evs)
                      ++ skipn (16 * n) R)
    /\ status (inst s') = status (inst s)
    /\ cfg (inst s') = cfg (inst s).
Proof.
  induction n as [|n IH]; intros bursts bcnt idx P R s dst' s' Hbuf Hidx HP HR Hrun.
  - cbn [collect_loop] in Hrun. unfold ret in Hrun.
    injection Hrun as <- <-. exists [].
    cbn [rev app reads_at length flat_map Nat.mul skipn].
    repeat split; reflexivity.
  - cbn [collect_loop] in Hrun.
    change (bind get_inst ?k s) with (k (inst s) s) in Hrun. cbv beta in Hrun.
    set (a := addr (cfg (inst s))) in *.
    set (A := a + TRNG_CORE_OUTPUT) in *.
    destruct (wait_for_event_run a TRNG_STATUS TRNG_STATUS_QCNT_MASK
                (Z.shiftl TRNG_MAX_QCNT TRNG_STATUS_QCNT_SHIFT)
                TRNG_GENERATE_TIMEOUT s) as [k [_ [Hwait _]]].
    rewrite (bind_of_ok _ _ _ _ _ Hwait) in Hrun. clear Hwait.
    set (s1 := after_reads s (a + TRNG_STATUS) (S k) 1) in *.
    set (E1 := rev (polls_events (dev_read (dev s)) (a + TRNG_STATUS)
                                 (nread (dev s)) (S k))).
    assert (Hlog1 : log (dev s1) = rev E1 ++ log (dev s)).
    { unfold s1, E1. rewrite log_after_reads, rev_involutive. reflexivity. }
    assert (HW1 : reads_at A E1 = []).
    { unfold E1. apply reads_at_other. apply status_core_distinct. }
    match type of Hrun with
    | context [failed ?r] => destruct (failed r)
    end.
    { unfold ret in Hrun. discriminate Hrun. }
    assert (Hdtf : exists (dtf : bool) s2 E2,
      (if negb (mode_eqb (mode (usr_cfg (inst s))) TRNG_PTRNG)
       then val <- trng_read32 a TRNG_STATUS ;;
            ret (negb (Z.land val TRNG_STATUS_DTF_MASK =? 0))
       else ret false) s1 = Ok dtf s2
      /\ inst s2 = inst s
      /\ log (dev s2) = rev E2 ++ log (dev s)
      /\ reads_at A E2 = []).
    { destruct (negb (mode_eqb (mode (usr_cfg (inst s))) TRNG_PTRNG)).
      - unfold trng_read32.
        rewrite (bind_of_ok _ _ _ _ _ (io_read32_after s1 (a + TRNG_STATUS))).
        eexists _, (after_reads s1 (a + TRNG_STATUS) 1 0),
          (E1 ++ rev (polls_events (dev_read (dev s1)) (a + TRNG_STATUS)
                                   (nread (dev s1)) 1)).
        split; [reflexivity|]. split; [reflexivity|]. split.
        + rewrite log_after_reads, Hlog1.
          rewrite !rev_app_distr, rev_involutive, <- !app_assoc. reflexivity.
        + rewrite reads_at_app, HW1.
          rewrite reads_at_other by apply status_core_distinct.
          reflexivity.
      - exists false, s1, E1. split; [reflexivity|]. split; [reflexivity|].
        split; [exact Hlog1|exact HW1]. }
    destruct Hdtf as [dtf [s2 [E2 [Hrun2 [Hinst2 [Hlog2 HW2]]]]]].
    rewrite (bind_of_ok _ _ _ _ _ Hrun2) in Hrun. clear Hrun2.
    destruct dtf.
    { cbv [bind upd_inst ret] in Hrun. discriminate Hrun. }
    assert (Hbuf2 : length (buf (inst s2)) = RAND_BUF_LEN)
      by (rewrite Hinst2; exact Hbuf).
    assert (HA2 : addr (cfg (inst s2)) + TRNG_CORE_OUTPUT = A)
      by (rewrite Hinst2; reflexivity).
    assert (Hwords := for_loop_words_data bcnt 4 0 true idx idx P R s2 _ _
                        Hidx HP ltac:(lia) (collect_words_null bcnt idx s2 Hbuf2)).
    change (Z.to_nat BURST_WORDS) with 4%nat in Hrun.
    rewrite (bind_of_ok _ _ _ _ _ Hwords) in Hrun. clear Hwords.
    cbv beta iota in Hrun.
    rewrite HA2 in Hrun.
    set (V := next_words 4 s2) in *.
    set (s3 := after_burst s2 A) in *.
    match type of Hrun with
    | (if ?c then _ else _) _ = _ => destruct c
    end.
    { cbv [bind upd_inst ret] in Hrun. discriminate Hrun. }
    assert (HV : reads_at A (rev (polls_events (dev_read (dev s2)) A
                                    (nread (dev s2)) 4)) = V).
    { rewrite reads_at_burst. rewrite <- HA2. apply burst_values_next_words. }
    assert (HVl : length V = 4%nat) by reflexivity.
    destruct (IH bursts (bcnt + 1) (idx + Z.of_nat 4)
                (P ++ flat_map be32_bytes V) (skipn (4 * 4) R) s3 dst' s')
      as [evs' [Hlog' [Hlen' [Hdst' [Hst' Hcfg']]]]].
    + reflexivity.
    + lia.
    + rewrite length_app, HP.
      assert (Hfl : length (flat_map be32_bytes V) = 16%nat) by reflexivity.
      rewrite Hfl.
      replace (4 * (idx + Z.of_nat 4)) with (4 * idx + 16) by lia.
      rewrite Z2Nat.inj_add by lia. reflexivity.
    + rewrite length_skipn. lia.
    + exact Hrun.
    + assert (HA3 : addr (cfg (inst s3)) + TRNG_CORE_OUTPUT = A)
        by (unfold s3, after_burst; cbn [inst cfg set_buf]; exact HA2).
      rewrite HA3 in Hlen', Hdst'.
      exists (E2 ++ rev (polls_events (dev_read (dev s2)) A (nread (dev s2)) 4)
                 ++ evs').
      split.
      { rewrite Hlog'. unfold s3, after_burst. cbn [dev].
        rewrite log_after_reads, Hlog2.
        rewrite !rev_app_distr, rev_involutive, <- !app_assoc. reflexivity. }
      rewrite !reads_at_app, HW2, HV. cbn [app].
      split; [rewrite length_app, HVl, Hlen'; lia|].
      split.
      { rewrite Hdst', flat_map_app, skipn_skipn, <- !app_assoc.
        replace (16 * n + 4 * 4)%nat with (16 * S n)%nat by lia.
        reflexivity. }
      split.
      { rewrite Hst'. unfold s3, after_burst. cbn [inst status set_buf].
        rewrite Hinst2. reflexivity. }
      rewrite Hcfg'. unfold s3, after_burst. cbn [inst cfg set_buf].
      rewrite Hinst2. reflexivity.
Qed.

(** [trng_collect_random] when it succeeds, in terms of the events
    [evs] it adds to the log. *)
Lemma trng_collect_random_data (d : list Z) (len : Z) (s s' : state)
    (dst' : option (list Z)) :
  length (buf (inst s)) = RAND_BUF_LEN ->
  usize len <= Z.of_nat (length d) ->
  trng_collect_random (Some d) len s = Ok (TEE_SUCCESS, dst') s' ->
  let A := addr (cfg (inst s)) + TRNG_CORE_OUTPUT in
  let n := Z.to_nat (usize len / TRNG_BURST_SIZE) in
  exists evs,
    log (dev s') = rev evs ++ log (dev s)
    /\ length (reads_at A evs) = (4 * n)%nat
    /\ dst' = Some (flat_map be32_bytes (reads_at A evs) ++ skipn (16 * n) d)
    /\ status (inst s') = status (inst s).
Proof.
  intros Hbuf Hroom Hrun A n. unfold trng_collect_random in Hrun.
  change (bind get_inst ?k s) with (k (inst s) s) in Hrun. cbv beta in Hrun.
  set (a := addr (cfg (inst s))) in *.
  assert (Hb0 : 0 <= usize len / TRNG_BURST_SIZE).
  { unfold usize, TRNG_BURST_SIZE. apply Z.div_pos; [|lia].
    apply Z.mod_pos_bound. lia. }
  assert (Hb16 : 16 * (usize len / TRNG_BURST_SIZE) <= usize len).
  { unfold TRNG_BURST_SIZE.
    assert (H := Z.mul_div_le (usize len) 16 ltac:(lia)). lia. }
  rewrite (bind_of_ok _ _ _ _ _ (trng_clrset32_run _ _ _ _ _)) in Hrun.
  match type of Hrun with
  | collect_loop _ _ _ _ _ ?s0 = _ => set (s0' := s0) in *
  end.
  assert (Hn16 : (16 * n <= length d)%nat) by (unfold n; lia).
  destruct (collect_loop_data _ _ 0 0 [] d s0' dst' s' Hbuf
              ltac:(lia) eq_refl Hn16 Hrun)
    as [evs [Hlog [Hlen [Hdst [Hst _]]]]].
  change (addr (cfg (inst s0')) + TRNG_CORE_OUTPUT) with A in Hlen, Hdst.
  fold n in Hlen, Hdst. unfold s0' in Hlog.
  match type of Hlog with
  | _ = _ ++ log (dev (after_rmw _ ?x ?w)) =>
      exists ([EvRead x (u32 (dev_read (dev s) (nread (dev s)) x)); EvWrite x w]
              ++ evs)
  end.
  split.
  { rewrite Hlog, rev_app_distr, <- app_assoc. reflexivity. }
  rewrite reads_at_app. cbn [reads_at].
  replace (a + TRNG_CTRL =? A) with false
    by (symmetry; apply Z.eqb_neq; apply ctrl_core_distinct).
  cbn [app].
  split; [exact Hlen|]. split; [exact Hdst|]. exact Hst.
Qed.

(** X17. When [trng_collect_random] succeeds on a destination with room
    for [len] bytes, it has read four words from [CORE_OUTPUT] for each
    of the [len / 16] bursts, the destination starts with the
    big-endian bytes of these words in the order read, the bytes after
    them are untouched, and the status is unchanged. *)
Theorem collect_random_delivers_words (d : list Z) (len : Z)
    (s s' : state) (dst' : option (list Z)) :
  length (buf (inst s)) = RAND_BUF_LEN ->
  usize len <= Z.of_nat (length d) ->
  trng_collect_random (Some d) len s = Ok (TEE_SUCCESS, dst') s' ->
  let ws := reads_at (addr (cfg (inst s)) + TRNG_CORE_OUTPUT)
                     (new_events s s') in
  let n := Z.to_nat (usize len / TRNG_BURST_SIZE) in
  length ws = (4 * n)%nat
  /\ dst' = Some (flat_map be32_bytes ws ++ skipn (16 * n) d)
  /\ status (inst s') = status (inst s).
Proof.
  intros Hbuf Hroom Hrun ws n.
  destruct (trng_collect_random_data d len s s' dst' Hbuf Hroom Hrun)
    as [evs [Hlog H]].
  unfold ws. rewrite (new_events_of_log s s' evs Hlog). exact H.
Qed.


(** ** A generation that needs no reseed *)

Lemma generate_error_result {A} (x y : A) r s s' :
  generate_error x s = Ok (r, y) s' -> r = TEE_ERROR_GENERIC.
Proof.
  unfold generate_error.
  change (bind get_inst ?k s) with (k (inst s) s). cbv beta.
  destruct (negb (status_eqb (status (inst s)) TRNG_CATASTROPHIC));
    cbv [bind upd_inst ret]; intros H; injection H as <- _ _; reflexivity.
Qed.

Lemma ok_final {A} (m : M A) s a s' : m s = Ok a s' -> final (m s) = s'.
Proof. intros ->. reflexivity. Qed.

Section Generation.
Context {B : build}.

(** The tail of [trng_generate] in DRNG and HRNG mode: the write of
    [PRNGMODE_GEN] to [CTRL], the collection of 32 bytes into the
    caller's buffer and the accounting. *)
Lemma generate_tail_data (b : list Z) (s s' : state) (b' : option (list Z)) :
  length (buf (inst s)) = RAND_BUF_LEN ->
  (32 <= length b)%nat ->
  mode (usr_cfg (inst s)) <> TRNG_PTRNG ->
  (trng_write32 (addr (cfg (inst s))) TRNG_CTRL PRNGMODE_GEN ;;
   generate_collect b false TRNG_SEC_STRENGTH_LEN) s
  = Ok (TEE_SUCCESS, b') s' ->
  exists evs,
    new_events s s'
    = EvWrite (addr (cfg (inst s)) + TRNG_CTRL) PRNGMODE_GEN :: evs
    /\ length (reads_at (addr (cfg (inst s)) + TRNG_CORE_OUTPUT) evs) = 8%nat
    /\ b' = Some (flat_map be32_bytes
                    (reads_at (addr (cfg (inst s)) + TRNG_CORE_OUTPUT) evs)
                  ++ skipn 32 b)
    /\ status (inst s') = status (inst s)
    /\ stats (inst s')
       = mk_stats (ustat (bytes (stats (inst s)) + 32))
                  (ustat (bytes_reseed (stats (inst s)) + 32))
                  (ustat (elapsed_seed_life (stats (inst s)) + 1)).
Proof.
  intros Hbuf Hroom Hmode Hrun.
  set (a := addr (cfg (inst s))) in *.
  set (s0 := add_events [EvWrite (a + TRNG_CTRL) PRNGMODE_GEN] s).
  assert (Hw : trng_write32 a TRNG_CTRL PRNGMODE_GEN s = Ok tt s0)
    by reflexivity.
  rewrite (bind_of_ok _ _ _ _ _ Hw) in Hrun. clear Hw.
  unfold generate_collect in Hrun.
  apply bind_ok in Hrun. destruct Hrun as [x [s1 [Hx Hrun]]].
  apply bind_ok in Hx. destruct Hx as [[r dst] [s2 [Hc Hx]]].
  unfold ret in Hx. injection Hx as <- <-.
  cbv beta iota in Hrun.
  destruct r; cbn [failed] in Hrun;
    [|apply generate_error_result in Hrun; discriminate Hrun].
  destruct (trng_collect_random_data b TRNG_SEC_STRENGTH_LEN s0 s2 dst
              Hbuf ltac:(change (usize TRNG_SEC_STRENGTH_LEN) with 32; lia) Hc)
    as [evs [Hlog [Hlen [Hdst Hst]]]].
  change (addr (cfg (inst s0))) with a in Hlen, Hdst.
  change (Z.to_nat (usize TRNG_SEC_STRENGTH_LEN / TRNG_BURST_SIZE))
    with 2%nat in Hlen, Hdst.
  assert (Hu : usr_cfg (inst s2) = usr_cfg (inst s)).
  { rewrite <- (ok_final _ _ _ _ Hc).
    transitivity (usr_cfg (inst s0)); [|reflexivity].
    apply (keeps_trng_collect_random usr_cfg); intros; reflexivity. }
  assert (Hs : stats (inst s2) = stats (inst s)).
  { rewrite <- (ok_final _ _ _ _ Hc).
    transitivity (stats (inst s0)); [|reflexivity].
    apply (keeps_trng_collect_random stats); intros; reflexivity. }
  change (bind (upd_inst ?f) ?k s2)
    with (k tt (mk_state (f (inst s2)) (dev s2) (glob s2))) in Hrun.
  cbv beta in Hrun.
  match type of Hrun with
  | bind get_inst ?k ?s3 = _ =>
      change (bind get_inst k s3) with (k (inst s3) s3) in Hrun
  end.
  cbv beta in Hrun. cbn [inst usr_cfg set_stats] in Hrun.
  rewrite Hu in Hrun.
  replace (mode_eqb (mode (usr_cfg (inst s))) TRNG_PTRNG) with false in Hrun
    by (destruct (mode (usr_cfg (inst s))); (reflexivity || congruence)).
  rewrite andb_false_r in Hrun. unfold ret in Hrun.
  injection Hrun as <- <-.
  exists evs. split.
  { apply new_events_of_log. cbn [dev log]. rewrite Hlog.
    unfold s0, add_events. cbn [dev log rev app].
    change (rev (EvWrite (a + TRNG_CTRL) PRNGMODE_GEN :: evs))
      with (rev evs ++ [EvWrite (a + TRNG_CTRL) PRNGMODE_GEN]).
    rewrite <- app_assoc. reflexivity. }
  split; [exact Hlen|]. split; [rewrite Hdst; reflexivity|].
  split; [exact Hst|].
  cbn [inst stats set_stats]. rewrite Hs. reflexivity.
Qed.

(** A successful generation that needs no reseed. *)
Lemma generate_no_reseed_data (b : list Z) (blen : Z)
    (predict : bool) (s s' : state) (b' : option (list Z)) :
  length (buf (inst s)) = RAND_BUF_LEN ->
  (32 <= length b)%nat ->
  (mode (usr_cfg (inst s)) = TRNG_DRNG
   \/ (mode (usr_cfg (inst s)) = TRNG_HRNG
       /\ elapsed_seed_life (stats (inst s)) < seed_life (usr_cfg (inst s))
       /\ (predict = false \/ elapsed_seed_life (stats (inst s)) <= 0))) ->
  trng_generate TRNG_INSTANCE (Some b) blen predict s
  = Ok (TEE_SUCCESS, b') s' ->
  let a := addr (cfg (inst s)) in
  let ws := reads_at (a + TRNG_CORE_OUTPUT) (new_events s s') in
  hd_error (new_events s s') = Some (EvWrite (a + TRNG_CTRL) PRNGMODE_GEN)
  /\ length ws = 8%nat
  /\ b' = Some (flat_map be32_bytes ws ++ skipn 32 b)
  /\ status (inst s) = TRNG_HEALTHY
  /\ status (inst s') = TRNG_HEALTHY
  /\ stats (inst s')
     = mk_stats (ustat (bytes (stats (inst s)) + 32))
                (ustat (bytes_reseed (stats (inst s)) + 32))
                (ustat (elapsed_seed_life (stats (inst s)) + 1)).
Proof.
  intros Hbuf Hroom Hmode Hrun a ws.
  unfold trng_generate in Hrun.
  change (bind get_inst ?k s) with (k (inst s) s) in Hrun.
  cbv beta zeta in Hrun.
  repeat match type of Hrun with
         | (if ?c then generate_error _ else _) _ = _ =>
             destruct c eqn:?;
             [apply generate_error_result in Hrun; discriminate Hrun|]
         end.
  assert (Hst : status (inst s) = TRNG_HEALTHY).
  { match goal with
    | Hc : negb (status_eqb _ _) = false |- _ =>
        apply negb_false_iff in Hc;
        destruct (status (inst s)); (reflexivity || discriminate Hc)
    end. }
  assert (Hnp : mode (usr_cfg (inst s)) <> TRNG_PTRNG)
    by (destruct Hmode as [Hm|[Hm _]]; rewrite Hm; discriminate).
  assert (Htail :
    (trng_write32 (addr (cfg (inst s))) TRNG_CTRL PRNGMODE_GEN ;;
     generate_collect b false TRNG_SEC_STRENGTH_LEN) s
    = Ok (TEE_SUCCESS, b') s').
  { destruct Hmode as [Hm|[Hm [Hlife Hpred]]]; rewrite Hm in Hrun.
    - repeat match type of Hrun with
             | (if ?c then generate_error _ else _) _ = _ =>
                 destruct c eqn:?;
                 [apply generate_error_result in Hrun; discriminate Hrun|]
             end.
      exact Hrun.
    - replace (elapsed_seed_life (stats (inst s)) >=? seed_life (usr_cfg (inst s)))
        with false in Hrun
        by (symmetry; rewrite Z.geb_leb; apply Z.leb_gt; exact Hlife).
      change (bind (ret ?x) ?k s) with (k x s) in Hrun.
      cbv beta in Hrun. cbn [failed] in Hrun.
      change (bind get_inst ?k s) with (k (inst s) s) in Hrun.
      cbv beta in Hrun.
      replace (predict && (elapsed_seed_life (stats (inst s)) >? 0))
        with false in Hrun.
      2:{ symmetry. destruct Hpred as [->|Hle]; [reflexivity|].
          apply andb_false_iff. right.
          rewrite Z.gtb_ltb. apply Z.ltb_ge. exact Hle. }
      change (bind (ret ?x) ?k s) with (k x s) in Hrun.
      cbv beta in Hrun. cbn [failed] in Hrun.
      exact Hrun. }
  destruct (generate_tail_data b s s' b' Hbuf Hroom Hnp Htail)
    as [evs [Hev [Hlen [Hb' [Hst' Hstats]]]]].
  unfold ws, a. rewrite Hev. cbn [hd_error reads_at]. 
  split; [reflexivity|].
  split; [exact Hlen|]. split; [exact Hb'|]. split; [exact Hst|].
  split; [rewrite Hst'; exact Hst|exact Hstats].
Qed.

(** X18. A successful [trng_generate] in DRNG mode, or in HRNG mode when
    no reseed is due, first writes [PRNGMODE_GEN] to [CTRL], reads
    eight words from [CORE_OUTPUT] and hands their big-endian bytes out
    as the first 32 bytes of the caller's buffer, whose other bytes are
    untouched; the instance was and stays healthy, the two byte
    counters grow by 32 and the elapsed seed life by 1. *)
Theorem generate_delivers_device_words (b : list Z) (blen : Z)
    (predict : bool) (s s' : state) (b' : option (list Z)) :
  length (buf (inst s)) = RAND_BUF_LEN ->
  (32 <= length b)%nat ->
  (mode (usr_cfg (inst s)) = TRNG_DRNG
   \/ (mode (usr_cfg (inst s)) = TRNG_HRNG
       /\ elapsed_seed_life (stats (inst s)) < seed_life (usr_cfg (inst s))
       /\ (predict = false \/ elapsed_seed_life (stats (inst s)) <= 0))) ->
  trng_generate TRNG_INSTANCE (Some b) blen predict s
  = Ok (TEE_SUCCESS, b') s' ->
  let a := addr (cfg (inst s)) in
  let ws := reads_at (a + TRNG_CORE_OUTPUT) (new_events s s') in
  hd_error (new_events s s') = Some (EvWrite (a + TRNG_CTRL) PRNGMODE_GEN)
  /\ length ws = 8%nat
  /\ b' = Some (flat_map be32_bytes ws ++ skipn 32 b)
  /\ status (inst s) = TRNG_HEALTHY
  /\ status (inst s') = TRNG_HEALTHY
  /\ stats (inst s')
     = mk_stats (ustat (bytes (stats (inst s)) + 32))
                (ustat (bytes_reseed (stats (inst s)) + 32))
                (ustat (elapsed_seed_life (stats (inst s)) + 1)).
Proof. apply generate_no_reseed_data. Qed.

End Generation.

(** ** The two loaders of the personalization string *)

(** X19. On 48 bytes or more, [trng_write_perstr] returns 0 and does to
    the device exactly what [trng_write32_range] does on the
    personalization bank: the same twelve words to the same registers
    in the same order. *)
Theorem write_perstr_same_as_range (p : list Z) (s : state) :
  (48 <= length p)%nat ->
  exists s',
    trng_write_perstr p s = Ok 0 s'
    /\ trng_write32_range TRNG_PER_STRING_0 TRNG_PERS_STR_REGS (Some p) s
       = Ok tt s'.
Proof.
  intros Hlen.
  set (ev := fun j : nat =>
         EvWrite (addr (cfg (inst s))
                  + (TRNG_PER_STRING_0 + (11 - Z.of_nat j) * 4))
           (pack_word [nth (4 * j) p 0; nth (4 * j + 1) p 0;
                       nth (4 * j + 2) p 0; nth (4 * j + 3) p 0])).
  exists (add_events (map ev (seq 0 12)) s). split.
  - unfold trng_write_perstr.
    change (bind get_inst ?k s) with (k (inst s) s). cbv beta.
    change (Z.to_nat TRNGPSX_PERS_STRING_LEN_IN_WORDS) with 12%nat.
    erewrite bind_of_ok; [reflexivity|].
    apply (for_loop_events _ ev 12 0%nat s).
    intros j s0 Hj.
    change (Z.to_nat TRNGPSX_WORD_LEN_IN_BYTES) with 4%nat.
    replace (Z.to_nat (Z.of_nat j * TRNGPSX_WORD_LEN_IN_BYTES)) with (4 * j)%nat
      by (unfold TRNGPSX_WORD_LEN_IN_BYTES; lia).
    rewrite load_four by lia. cbn [checked].
    unfold bind, ret, trng_write32, io_write32, add_events, ev.
    cbn [rev app].
    replace (TRNG_PER_STRNG_11 - Z.of_nat j * TRNGPSX_WORD_LEN_IN_BYTES)
      with (TRNG_PER_STRING_0 + (11 - Z.of_nat j) * 4)
      by (unfold TRNG_PER_STRNG_11, TRNG_PER_STRING_0,
            TRNGPSX_WORD_LEN_IN_BYTES; lia).
    reflexivity.
  - unfold trng_write32_range.
    change (bind get_inst ?k s) with (k (inst s) s). cbv beta.
    change (Z.to_nat TRNG_PERS_STR_REGS) with 12%nat.
    apply (for_loop_events _ ev 12 0%nat s).
    intros j s0 Hj.
    change (Z.to_nat TRNG_BYTES_PER_REG) with 4%nat.
    replace (Z.to_nat (Z.of_nat j * TRNG_BYTES_PER_REG)) with (4 * j)%nat
      by (unfold TRNG_BYTES_PER_REG; lia).
    rewrite load_four by lia. cbn [checked].
    unfold bind, ret, trng_write32, io_write32, add_events, ev.
    cbn [rev app].
    replace (TRNG_PER_STRING_0
             + (TRNG_NUM_INIT_REGS - 1 - Z.of_nat j) * TRNG_BYTES_PER_REG)
      with (TRNG_PER_STRING_0 + (11 - Z.of_nat j) * 4)
      by (unfold TRNG_NUM_INIT_REGS, TRNG_BYTES_PER_REG; lia).
    reflexivity.
Qed.

(** ** Bytes and words *)

(** X20. The bytes [trng_collect_random] stores for a 32-bit word and
    the word [trng_write32_range] packs from four bytes are inverse:
    packing the stored bytes gives the word back. *)
Theorem pack_word_be32_bytes (w : Z) :
  0 <= w < 4294967296 -> pack_word (be32_bytes w) = w.
Proof.
  intros Hw. unfold be32_bytes.
  change 255 with (Z.ones 8). rewrite !Z.land_ones by lia.
  rewrite !Z.shiftr_div_pow2 by lia.
  change (2 ^ 24) with 16777216. change (2 ^ 16) with 65536.
  change (2 ^ 8) with 256.
  rewrite pack_word_bytes;
    try (unfold is_byte; apply Z.mod_pos_bound; lia).
  assert (H1 := Z.div_mod w 256 ltac:(lia)).
  assert (H2 := Z.div_mod (w / 256) 256 ltac:(lia)).
  assert (H3 := Z.div_mod (w / 256 / 256) 256 ltac:(lia)).
  assert (H4 : w / 256 / 256 / 256 < 256).
  { rewrite !Z.div_div by lia. apply Z.div_lt_upper_bound; lia. }
  assert (H5 : 0 <= w / 256 / 256 / 256).
  { rewrite !Z.div_div by lia. apply Z.div_pos; lia. }
  replace (w / 65536) with (w / 256 / 256) by (rewrite Z.div_div by lia; reflexivity).
  replace (w / 16777216) with (w / 256 / 256 / 256)
    by (rewrite !Z.div_div by lia; reflexivity).
  rewrite (Z.mod_small (w / 256 / 256 / 256)) by lia.
  lia.
Qed.


(** ** What a successful instantiation or reseed tells *)

#[local] Hint Resolve keeps_trng_read32 keeps_trng_write32
  keeps_trng_write32_v2 keeps_trng_clrset32 keeps_trng_write_perstr
  keeps_trng_write_seed keeps_trng_write32_range keeps_trng_wait_for_event
  keeps_trng_soft_reset keeps_trng_reset keeps_trng_hold_reset : keeps.

Lemma goto_error_result r s s' :
  goto_error s = Ok r s' -> r = TEE_ERROR_GENERIC.
Proof.
  cbv [goto_error bind upd_inst ret]. intros H. injection H as <- _.
  reflexivity.
Qed.

Lemma keeps_ok {X A} (f : versal_trng -> X) (m : M A) s a s' :
  keeps f m -> m s = Ok a s' -> f (inst s') = f (inst s).
Proof. intros Hk Hrun. rewrite <- (ok_final _ _ _ _ Hrun). apply Hk. Qed.

Section Success.
Context {B : build}.

Lemma keeps_trng_reseed_internal {X} (f : versal_trng -> X) e p mul :
  (forall d t, f (set_dfin d t) = f t) ->
  (forall d t, f (set_dfout d t) = f t) ->
  (forall b t, f (set_buf b t) = f t) ->
  (forall x t, f (set_status x t) = f t) ->
  (forall x t, f (set_stats x t) = f t) ->
  (forall n t, f (set_len n t) = f t) ->
  keeps f (trng_reseed_internal e p mul).
Proof.
  intros f1 f2 f3 f4 f5 f6. unfold trng_reseed_internal.
  apply keeps_bind; [apply keeps_upd_inst; intros; apply f5|intros _].
  apply keeps_bind; [apply keeps_get_inst|intros t].
  apply keeps_bind; [apply keeps_upd_inst; intros; apply f6|intros _].
  apply keeps_reseed_internal_tail; try assumption.
  intros r. apply keeps_if; [apply keeps_goto_error; assumption|].
  cbv zeta. keeps_auto; try (apply keeps_goto_error; assumption).
Qed.

(** What a successful [trng_instantiate] tells. *)
Lemma trng_instantiate_success_facts (u : trng_usr_cfg) (s s' : state) :
  trng_instantiate TRNG_INSTANCE (Some u) s = Ok TEE_SUCCESS s' ->
  status (inst s) = TRNG_UNINITIALIZED
  /\ ~ cfg_rejected u
  /\ status (inst s') = TRNG_HEALTHY
  /\ usr_cfg (inst s') = u
  /\ cfg (inst s') = cfg (inst s)
  /\ (mode u <> TRNG_PTRNG ->
      stats (inst s') = mk_stats (bytes (stats (inst s))) 0 0).
Proof.
  intros Hrun.
  assert (Hst : status (inst s) = TRNG_UNINITIALIZED).
  { destruct (status (inst s)) eqn:E; [reflexivity| | |];
      rewrite (trng_instantiate_rejected_run (Some u) s) in Hrun
        by (right; left; rewrite E; discriminate);
      discriminate Hrun. }
  assert (Hrej : ~ cfg_rejected u).
  { intros Hr.
    rewrite (trng_instantiate_rejected_run (Some u) s) in Hrun
      by (right; right; exists u; split; [reflexivity|exact Hr]).
    discriminate Hrun. }
  split; [exact Hst|]. split; [exact Hrej|].
  unfold trng_instantiate in Hrun.
  change (bind get_inst ?k s) with (k (inst s) s) in Hrun. cbv beta in Hrun.
  repeat match type of Hrun with
         | (if ?c then goto_error else _) _ = _ =>
             destruct c;
             [apply goto_error_result in Hrun; discriminate Hrun|]
         end.
  cbv zeta in Hrun.
  apply bind_ok in Hrun. destruct Hrun as [[] [s0 [H0 Hrun]]].
  assert (Hs0 : s0 = mk_state (set_usr_cfg u (inst s)) (dev s) (glob s))
    by (unfold upd_inst in H0; injection H0 as <-; reflexivity).
  clear H0.
  apply bind_ok in Hrun. destruct Hrun as [[] [s1 [H1 Hrun]]].
  apply bind_ok in Hrun. destruct Hrun as [[] [s2 [H2 Hrun]]].
  apply bind_ok in Hrun. destruct Hrun as [r [s3 [H3 Hrun]]].
  destruct r; cbn [failed] in Hrun;
    [|apply goto_error_result in Hrun; discriminate Hrun].
  cbv [bind upd_inst ret] in Hrun. injection Hrun as <-.
  cbn [inst status usr_cfg cfg stats set_status].
  assert (K2 : forall {X} (f : versal_trng -> X), f (inst s2) = f (inst s0)).
  { intros X f. transitivity (f (inst s1)).
    - refine (keeps_ok f _ _ _ _ _ H2).
      destruct (version_eqb (version (cfg (inst s))) TRNG_V2
                && (mode_eqb (mode u) TRNG_PTRNG || mode_eqb (mode u) TRNG_HRNG));
        keeps_auto.
    - exact (keeps_ok f _ _ _ _ (keeps_trng_reset f) H1). }
  split; [reflexivity|].
  assert (K3 : forall {X} (f : versal_trng -> X),
            (forall d t, f (set_dfin d t) = f t) ->
            (forall d t, f (set_dfout d t) = f t) ->
            (forall b t, f (set_buf b t) = f t) ->
            (forall x t, f (set_status x t) = f t) ->
            (forall x t, f (set_stats x t) = f t) ->
            (forall n t, f (set_len n t) = f t) ->
            f (inst s3) = f (inst s2)).
  { intros X f f1 f2 f3 f4 f5 f6.
    refine (keeps_ok f _ _ _ _ _ H3).
    destruct (negb (mode_eqb (mode u) TRNG_PTRNG)); [|apply keeps_ret].
    apply keeps_trng_reseed_internal; assumption. }
  split.
  { rewrite (K3 _ usr_cfg), (K2 _ usr_cfg) by (intros; reflexivity).
    rewrite Hs0. reflexivity. }
  split.
  { rewrite (K3 _ cfg), (K2 _ cfg) by (intros; reflexivity).
    rewrite Hs0. reflexivity. }
  intros Hm.
  replace (negb (mode_eqb (mode u) TRNG_PTRNG)) with true in H3
    by (destruct (mode u); (reflexivity || congruence)).
  assert (Hs := stats_reset_reseed_internal
                  (if iseed_en u then Some (init_seed u) else None)
                  (if pstr_en u then Some (pstr u) else None) (dfmul u) s2).
  rewrite (ok_final _ _ _ _ H3) in Hs. unfold stats_reset in Hs.
  rewrite Hs, (K2 _ stats), Hs0. reflexivity.
Qed.

(** X21. A successful [trng_instantiate] tells that the instance was
    uninitialized and that the configuration broke none of the rules;
    it leaves the instance healthy with this configuration stored, and
    outside PTRNG mode with the reseed counters at 0. *)
Theorem trng_instantiate_success (u : trng_usr_cfg) (s s' : state) :
  trng_instantiate TRNG_INSTANCE (Some u) s = Ok TEE_SUCCESS s' ->
  status (inst s) = TRNG_UNINITIALIZED
  /\ ~ cfg_rejected u
  /\ status (inst s') = TRNG_HEALTHY
  /\ usr_cfg (inst s') = u
  /\ cfg (inst s') = cfg (inst s)
  /\ (mode u <> TRNG_PTRNG ->
      stats (inst s') = mk_stats (bytes (stats (inst s))) 0 0).
Proof. apply trng_instantiate_success_facts. Qed.

(** X22. A successful [trng_reseed] tells that the instance was healthy,
    that the call broke none of the rules and that a given seed differs
    from the initial seed in its first [trng->len] bytes; it leaves the
    reseed counters at 0, the byte total and the configuration as they
    were, and [trng->len] at the seed length of the multiplier. *)
Theorem trng_reseed_success (eseed : option (list Z)) (mul : Z)
    (s s' : state) :
  trng_reseed TRNG_INSTANCE eseed mul s = Ok TEE_SUCCESS s' ->
  status (inst s) = TRNG_HEALTHY
  /\ ~ reseed_rejected (inst s) eseed mul
  /\ (forall seed x,
        eseed = Some seed ->
        load 0 (Z.to_nat (len (inst s))) seed = Some x ->
        load 0 (Z.to_nat (len (inst s))) (init_seed (usr_cfg (inst s)))
        <> Some x)
  /\ stats (inst s') = mk_stats (bytes (stats (inst s))) 0 0
  /\ usr_cfg (inst s') = usr_cfg (inst s)
  /\ len (inst s')
     = (if df_disable (usr_cfg (inst s)) then TRNG_SEED_LEN
        else u32 ((mul + 1) * BYTES_PER_BLOCK)).
Proof.
  intros Hrun.
  assert (Hrej : ~ reseed_rejected (inst s) eseed mul).
  { intros Hr.
    rewrite (trng_reseed_rejected_run eseed mul s) in Hrun
      by (left; exact Hr).
    discriminate Hrun. }
  split.
  { destruct (status (inst s)) eqn:E; [|reflexivity| |];
      exfalso; apply Hrej; left; rewrite E; discriminate. }
  split; [exact Hrej|].
  split.
  { intros seed x He Hx Hy.
    rewrite (trng_reseed_rejected_run eseed mul s) in Hrun
      by (right; exists seed, x; auto).
    discriminate Hrun. }
  unfold trng_reseed in Hrun.
  change (bind get_inst ?k s) with (k (inst s) s) in Hrun.
  cbv beta zeta in Hrun.
  repeat match type of Hrun with
         | (if ?c then goto_error else _) _ = _ =>
             destruct c;
             [apply goto_error_result in Hrun; discriminate Hrun|]
         end.
  apply bind_ok in Hrun. destruct Hrun as [same [s1 [H1 Hrun]]].
  destruct same; [apply goto_error_result in Hrun; discriminate Hrun|].
  apply bind_ok in Hrun. destruct Hrun as [[] [s2 [H2 Hrun]]].
  apply bind_ok in Hrun. destruct Hrun as [r [s3 [H3 Hrun]]].
  destruct r; cbn [failed] in Hrun;
    [|apply goto_error_result in Hrun; discriminate Hrun].
  unfold ret in Hrun. injection Hrun as <-.
  assert (Hi2 : inst s2 = inst s).
  { transitivity (inst s1).
    - refine (keeps_ok (fun t => t) _ _ _ _ _ H2).
      destruct CFG_VERSAL_RNG_DRV_V2; keeps_auto.
    - refine (keeps_ok (fun t => t) _ _ _ _ _ H1).
      destruct eseed; keeps_auto. }
  assert (Hs := stats_reset_reseed_internal eseed None mul s2).
  destruct (reseed_internal_final eseed None mul s2) as [Hl Hu].
  rewrite (ok_final _ _ _ _ H3) in Hs, Hl, Hu. unfold stats_reset in Hs.
  rewrite Hi2 in Hs, Hl, Hu.
  split; [exact Hs|]. split; [exact Hu|exact Hl].
Qed.

End Success.


(** ** A generation that reseeds first *)

Section HybridReseed.
Context {B : build}.

(** The accounting of the tail of [trng_generate]. *)
Lemma generate_tail_stats (a v : Z) (b : list Z) (e : bool) (l : Z)
    (s s' : state) (b' : option (list Z)) :
  (trng_write32 a TRNG_CTRL v ;; generate_collect b e l) s
  = Ok (TEE_SUCCESS, b') s' ->
  stats (inst s')
  = mk_stats (ustat (bytes (stats (inst s)) + l))
             (ustat (bytes_reseed (stats (inst s)) + l))
             (ustat (elapsed_seed_life (stats (inst s)) + 1)).
Proof.
  intros Hrun.
  apply bind_ok in Hrun. destruct Hrun as [[] [s0 [H0 Hrun]]].
  assert (Hs0 : stats (inst s0) = stats (inst s))
    by (apply (keeps_ok stats _ _ _ _ (keeps_trng_write32 stats _ _ _) H0)).
  clear H0.
  unfold generate_collect in Hrun.
  apply bind_ok in Hrun. destruct Hrun as [[r b1] [s1 [H1 Hrun]]].
  assert (Hs1 : stats (inst s1) = stats (inst s0)).
  { refine (keeps_ok stats _ _ _ _ _ H1). destruct e.
    - apply keeps_bind;
        [apply keeps_collect_into_entropy; intros; reflexivity|].
      intros ?. apply keeps_ret.
    - apply keeps_bind;
        [apply keeps_trng_collect_random; intros; reflexivity|].
      intros [? ?]. apply keeps_ret. }
  clear H1. cbv beta iota in Hrun.
  destruct r; cbn [failed] in Hrun;
    [|apply generate_error_result in Hrun; discriminate Hrun].
  apply bind_ok in Hrun. destruct Hrun as [[] [s2 [H2 Hrun]]].
  unfold upd_inst in H2. injection H2 as <-.
  apply bind_ok in Hrun. destruct Hrun as [t [s3 [H3 Hrun]]].
  unfold get_inst in H3. injection H3 as <- <-.
  match type of Hrun with
  | (if ?c then _ else _) _ = _ => destruct c
  end.
  - apply bind_ok in Hrun. destruct Hrun as [o [s4 [H4 Hrun]]].
    unfold ret in Hrun. injection Hrun as _ <-.
    rewrite (keeps_ok stats _ _ _ _
               (keeps_trng_df_algorithm stats
                  ltac:(intros; reflexivity) ltac:(intros; reflexivity) _ _ _)
               H4).
    cbn [inst stats set_stats]. rewrite Hs1, Hs0. reflexivity.
  - unfold ret in Hrun. injection Hrun as _ <-.
    cbn [inst stats set_stats]. rewrite Hs1, Hs0. reflexivity.
Qed.

(** X23. A successful [trng_generate] in HRNG mode that had to reseed
    (the elapsed seed life had reached the seed life, or prediction
    resistance was requested after a generation) restarts the seed
    life: it leaves the elapsed seed life at 1 and the bytes since the
    reseed at 32, and adds 32 to the byte total (all modulo the counter
    width). *)
Theorem generate_hrng_reseed_restarts_life (b : list Z) (blen : Z)
    (predict : bool) (s s' : state) (b' : option (list Z)) :
  mode (usr_cfg (inst s)) = TRNG_HRNG ->
  (elapsed_seed_life (stats (inst s)) >= seed_life (usr_cfg (inst s))
   \/ (predict = true /\ elapsed_seed_life (stats (inst s)) > 0)) ->
  trng_generate TRNG_INSTANCE (Some b) blen predict s
  = Ok (TEE_SUCCESS, b') s' ->
  stats (inst s')
  = mk_stats (ustat (bytes (stats (inst s)) + 32)) (ustat (0 + 32))
             (ustat (0 + 1)).
Proof.
  intros Hm Hdue Hrun.
  unfold trng_generate in Hrun.
  apply bind_ok in Hrun. destruct Hrun as [t [s0 [H0 Hrun]]].
  unfold get_inst in H0. injection H0 as <- <-.
  cbv zeta in Hrun.
  repeat match type of Hrun with
         | (if ?c then generate_error _ else _) _ = _ =>
             destruct c;
             [apply generate_error_result in Hrun; discriminate Hrun|]
         end.
  rewrite Hm in Hrun.
  apply bind_ok in Hrun. destruct Hrun as [r1 [s1 [H1 Hrun]]].
  destruct r1; cbn [failed] in Hrun;
    [|apply generate_error_result in Hrun; discriminate Hrun].
  apply bind_ok in Hrun. destruct Hrun as [t1 [s1' [Hg Hrun]]].
  unfold get_inst in Hg. injection Hg as <- <-.
  apply bind_ok in Hrun. destruct Hrun as [r2 [s2 [H2 Hrun]]].
  destruct r2; cbn [failed] in Hrun;
    [|apply generate_error_result in Hrun; discriminate Hrun].
  rewrite (generate_tail_stats _ _ _ _ _ _ _ _ Hrun).
  assert (Hs2 : stats (inst s2) = mk_stats (bytes (stats (inst s))) 0 0).
  { destruct (elapsed_seed_life (stats (inst s)) >=? seed_life (usr_cfg (inst s)))
      eqn:Hc.
    - assert (Hs1 := stats_reset_reseed_internal None None 0 s).
      rewrite (ok_final _ _ _ _ H1) in Hs1. unfold stats_reset in Hs1.
      rewrite Hs1 in H2. cbn [elapsed_seed_life] in H2.
      change (0 >? 0) with false in H2. rewrite andb_false_r in H2.
      unfold ret in H2. injection H2 as <-. exact Hs1.
    - unfold ret in H1. injection H1 as <-.
      destruct Hdue as [Hge|[Hp Hgt]].
      + rewrite Z.geb_leb in Hc. apply Z.leb_gt in Hc. lia.
      + rewrite Hp in H2. cbn [andb] in H2.
        replace (elapsed_seed_life (stats (inst s)) >? 0) with true in H2
          by (symmetry; rewrite Z.gtb_ltb; apply Z.ltb_lt; lia).
        assert (Hs1 := stats_reset_reseed_internal None None 0 s).
        rewrite (ok_final _ _ _ _ H2) in Hs1. exact Hs1. }
  rewrite Hs2. reflexivity.
Qed.

End HybridReseed.


(** ** The burst buffer keeps its four words *)

#[local] Hint Resolve keeps_trng_read32 keeps_trng_write32
  keeps_trng_write32_v2 keeps_trng_clrset32 keeps_trng_write_perstr
  keeps_trng_write_seed keeps_trng_write32_range keeps_trng_wait_for_event
  keeps_trng_soft_reset keeps_trng_reset keeps_trng_hold_reset : keeps.

Lemma wr_nat_length (a : list Z) : forall i v, length (wr_nat a i v) = length a.
Proof.
  induction a as [|x a IH]; intros i v; [reflexivity|].
  destruct i; cbn [wr_nat length]; [reflexivity|]. rewrite IH. reflexivity.
Qed.

Lemma buflen_collect_word bcnt wcnt acc :
  keeps buflen (collect_word bcnt wcnt acc).
Proof.
  unfold collect_word. destruct acc as [[m i] d].
  apply keeps_bind; [apply keeps_get_inst|intros t].
  apply keeps_bind; [apply keeps_trng_read32|intros v].
  apply keeps_bind.
  - apply keeps_upd_inst. intros t0. unfold buflen, wr. cbn [buf set_buf].
    apply wr_nat_length.
  - intros _. destruct d; keeps_auto.
Qed.

Lemma buflen_collect_loop n : forall bursts bcnt index dst,
  keeps buflen (collect_loop n bursts bcnt index dst).
Proof.
  induction n as [|n IH]; intros bursts bcnt index dst; cbn [collect_loop].
  - auto with keeps.
  - apply keeps_bind; [auto with keeps|intros t].
    apply keeps_bind; [auto with keeps|intros r].
    apply keeps_if; [auto with keeps|].
    apply keeps_bind; [keeps_auto|intros dtf].
    apply keeps_if.
    + apply keeps_bind; [|auto with keeps].
      apply keeps_upd_inst. intros t0. reflexivity.
    + apply keeps_bind.
      * apply keeps_for_loop. intros. apply buflen_collect_word.
      * intros [[m i] d]. apply keeps_if; [|apply IH].
        apply keeps_bind; [|auto with keeps].
        apply keeps_upd_inst. intros t0. reflexivity.
Qed.

Lemma buflen_trng_collect_random dst l :
  keeps buflen (trng_collect_random dst l).
Proof.
  unfold trng_collect_random. keeps_auto; try apply buflen_collect_loop.
Qed.

Section BufferLength.
Context {B : build}.

Lemma buflen_collect_into_entropy l : keeps buflen (collect_into_entropy l).
Proof.
  unfold collect_into_entropy.
  apply keeps_bind; [auto with keeps|intros t].
  apply keeps_bind; [apply buflen_trng_collect_random|intros [r d]].
  destruct d; keeps_auto.
Qed.

Lemma buflen_reseed_nodf_v1 e p : keeps buflen (reseed_nodf_v1 e p).
Proof.
  unfold reseed_nodf_v1.
  apply keeps_bind; [auto with keeps|intros t].
  destruct (mode (usr_cfg t)); keeps_auto;
    try apply buflen_trng_collect_random.
Qed.

Lemma buflen_trng_reseed_internal_df e p :
  keeps buflen (trng_reseed_internal_df e p).
Proof.
  unfold trng_reseed_internal_df.
  apply keeps_bind; [apply keeps_upd_inst; intros; reflexivity|intros _].
  apply keeps_bind; [auto with keeps|intros t].
  destruct (mode (usr_cfg t)); keeps_auto;
    try (apply keeps_trng_df_algorithm; intros; reflexivity);
    try apply buflen_collect_into_entropy;
    try (apply keeps_dfin_store; intros; reflexivity).
Qed.

Lemma buflen_trng_reseed_internal e p mul :
  keeps buflen (trng_reseed_internal e p mul).
Proof.
  unfold trng_reseed_internal.
  apply keeps_bind; [apply keeps_upd_inst; intros; reflexivity|intros _].
  apply keeps_bind; [apply keeps_get_inst|intros t].
  apply keeps_bind; [apply keeps_upd_inst; intros; reflexivity|intros _].
  apply keeps_bind.
  - apply keeps_if.
    + unfold trng_reseed_internal_nodf. apply keeps_if.
      * apply keeps_reseed_nodf_v2. intros; reflexivity.
      * apply buflen_reseed_nodf_v1.
    + apply buflen_trng_reseed_internal_df.
  - intros r. apply keeps_if; [apply keeps_goto_error; intros; reflexivity|].
    cbv zeta. keeps_auto;
      try (apply keeps_goto_error; intros; reflexivity).
Qed.

Lemma buflen_trng_instantiate c :
  keeps buflen (trng_instantiate TRNG_INSTANCE c).
Proof.
  unfold trng_instantiate. destruct c as [u|];
    [|apply keeps_goto_error; intros; reflexivity].
  apply keeps_bind; [apply keeps_get_inst|intros t].
  repeat (apply keeps_if; [apply keeps_goto_error; intros; reflexivity|]).
  cbv zeta. keeps_auto;
    try apply buflen_trng_reseed_internal;
    try (apply keeps_goto_error; intros; reflexivity).
Qed.

(** ** The self tests *)

Lemma trng_release_success (s s' : state) :
  trng_release TRNG_INSTANCE s = Ok TEE_SUCCESS s' ->
  status (inst s) <> TRNG_UNINITIALIZED
  /\ status (inst s') = TRNG_UNINITIALIZED
  /\ usr_cfg (inst s') = usr_cfg_zero (usr_cfg (inst s)).
Proof.
  intros Hrun.
  assert (Hst : status (inst s) <> TRNG_UNINITIALIZED).
  { intros Hu. rewrite (trng_release_uninitialized s Hu) in Hrun.
    discriminate Hrun. }
  split; [exact Hst|].
  rewrite (trng_release_run s Hst) in Hrun. injection Hrun as <-.
  split; reflexivity.
Qed.

(** X24. [trng_health_test] returns success only for an instance that
    was uninitialized, and then leaves it uninitialized again with the
    configuration zeroed; whenever it returns an error the status is
    [TRNG_ERROR]. *)
Theorem trng_health_test_outcome (r : TEE_Result) (s s' : state) :
  trng_health_test TRNG_INSTANCE s = Ok r s' ->
  match r with
  | TEE_SUCCESS =>
      status (inst s) = TRNG_UNINITIALIZED
      /\ status (inst s') = TRNG_UNINITIALIZED
      /\ usr_cfg (inst s') = usr_cfg_zero health_tests
  | TEE_ERROR_GENERIC => status (inst s') = TRNG_ERROR
  end.
Proof.
  intros Hrun. unfold trng_health_test in Hrun.
  apply bind_ok in Hrun. destruct Hrun as [r1 [s1 [H1 Hrun]]].
  destruct r1; cbn [failed test_error] in Hrun.
  - apply bind_ok in Hrun. destruct Hrun as [r2 [s2 [H2 Hrun]]].
    destruct r2; cbn [failed test_error] in Hrun.
    + unfold ret in Hrun. injection Hrun as <- <-.
      destruct (trng_instantiate_success_facts _ _ _ H1)
        as [Hs [_ [_ [Hu _]]]].
      destruct (trng_release_success _ _ H2) as [_ [Hs' Hu']].
      split; [exact Hs|]. split; [exact Hs'|]. rewrite Hu', Hu. reflexivity.
    + cbv [goto_error bind upd_inst ret] in Hrun.
      injection Hrun as <- <-. reflexivity.
  - cbv [goto_error bind upd_inst ret] in Hrun.
    injection Hrun as <- <-. reflexivity.
Qed.

Lemma load_all (n : nat) (l : list Z) :
  length l = n -> load 0 n l = Some l.
Proof.
  intros H. unfold load. cbn [Nat.add skipn].
  replace (n <=? length l)%nat with true
    by (symmetry; apply Nat.leb_le; lia).
  rewrite <- H, firstn_all. reflexivity.
Qed.

Lemma flat_map_be32_length (ws : list Z) :
  length (flat_map be32_bytes ws) = (4 * length ws)%nat.
Proof.
  induction ws as [|w ws IH]; [reflexivity|].
  cbn [flat_map]. rewrite length_app, IH. cbn [be32_bytes length]. lia.
Qed.

(** X25. [trng_kat_test] returns success only if its generation step
    read eight words from [CORE_OUTPUT] whose big-endian bytes are the
    expected output of the test; the instance is then uninitialized
    again.  [s1] and [s2] are the states before and after the
    generation step. *)
Theorem trng_kat_test_known_answer (s s' : state) :
  length (buf (inst s)) = RAND_BUF_LEN ->
  trng_kat_test TRNG_INSTANCE s = Ok TEE_SUCCESS s' ->
  exists (s1 s2 : state) (out : option (list Z)),
    trng_instantiate TRNG_INSTANCE (Some kat_tests) s = Ok TEE_SUCCESS s1
    /\ trng_generate TRNG_INSTANCE (Some (zeros 32)) 32 false s1
       = Ok (TEE_SUCCESS, out) s2
    /\ trng_release TRNG_INSTANCE s2 = Ok TEE_SUCCESS s'
    /\ flat_map be32_bytes
         (reads_at (addr (cfg (inst s)) + TRNG_CORE_OUTPUT) (new_events s1 s2))
       = kat_expected_out
    /\ status (inst s') = TRNG_UNINITIALIZED.
Proof.
  intros Hbuf Hrun. unfold trng_kat_test in Hrun.
  destruct (MAX_PRE_DF_LEN <? TRNG_SEED_LEN); [discriminate Hrun|].
  apply bind_ok in Hrun. destruct Hrun as [r1 [s1 [H1 Hrun]]].
  destruct r1; cbn [failed] in Hrun;
    [|apply goto_error_result in Hrun; discriminate Hrun].
  apply bind_ok in Hrun. destruct Hrun as [[r2 out] [s2 [H2 Hrun]]].
  cbv beta iota in Hrun.
  destruct r2; cbn [failed] in Hrun;
    [|apply goto_error_result in Hrun; discriminate Hrun].
  destruct out as [o|]; [|discriminate Hrun].
  destruct (trng_instantiate_success_facts _ _ _ H1)
    as [_ [_ [_ [Hu [Hcfg _]]]]].
  assert (Hbuf1 : length (buf (inst s1)) = RAND_BUF_LEN).
  { rewrite <- Hbuf.
    exact (keeps_ok buflen _ _ _ _ (buflen_trng_instantiate _) H1). }
  change (Z.to_nat TRNG_GEN_LEN) with 32%nat in H2, Hrun.
  change TRNG_GEN_LEN with 32 in H2.
  destruct (generate_no_reseed_data (zeros 32) 32 false s1 s2 (Some o)
              Hbuf1 ltac:(cbn; lia)
              ltac:(left; rewrite Hu; reflexivity) H2)
    as [_ [Hlen [Ho _]]].
  rewrite Hcfg in Hlen, Ho.
  injection Ho as Ho.
  change (skipn 32 (zeros 32)) with (@nil Z) in Ho. rewrite app_nil_r in Ho.
  assert (Hlo : length o = 32%nat)
    by (rewrite Ho, flat_map_be32_length, Hlen; reflexivity).
  rewrite (load_all 32 o Hlo) in Hrun. cbn [checked] in Hrun.
  change (bind (ret ?x) ?k s2) with (k x s2) in Hrun. cbv beta in Hrun.
  destruct (bytes_eqb o kat_expected_out) eqn:Heq; cbn [negb] in Hrun;
    [|apply goto_error_result in Hrun; discriminate Hrun].
  apply bytes_eqb_eq in Heq.
  apply bind_ok in Hrun. destruct Hrun as [r3 [s3 [H3 Hrun]]].
  destruct r3; cbn [failed] in Hrun;
    [|apply goto_error_result in Hrun; discriminate Hrun].
  unfold ret in Hrun. injection Hrun as <-.
  exists s1, s2, (Some o).
  split; [exact H1|]. split; [exact H2|]. split; [exact H3|].
  split; [rewrite <- Ho; exact Heq|].
  destruct (trng_release_success _ _ H3) as [_ [Hs' _]]. exact Hs'.
Qed.

End BufferLength.


(** ** Instances of the properties above on the simulated device *)

Lemma returned_ok {A} (o : outcome A) (a : A) :
  returned o = Some a -> o = Ok a (final o).
Proof. destruct o; cbn; intros H; [injection H as ->; reflexivity| |]; discriminate H. Defined.

Lemma trng_write32_range_reverse_order_witness :
  trng_write32_range TRNG_EXT_SEED_0 (Z.of_nat 12) (Some kat_ext_seed)
    (fresh_state TRNG_V1 mock_read)
  = Ok tt
      (add_events
         (map (fun j => EvWrite (MOCK_ADDR + (TRNG_EXT_SEED_0 + (11 - Z.of_nat j) * 4))
                                (be_word_at kat_ext_seed (Z.of_nat j)))
              (seq 0 12))
         (fresh_state TRNG_V1 mock_read)).
Proof.
  apply (trng_write32_range_reverse_order TRNG_EXT_SEED_0 12 kat_ext_seed
           (fresh_state TRNG_V1 mock_read)).
  - unfold kat_ext_seed. repeat (constructor; [unfold is_byte; lia|]).
    constructor.
  - cbn. lia.
Defined.

Lemma trng_release_effects_witness :
  exists s',
    @trng_release build_v1 TRNG_INSTANCE hrng_expired_state = Ok TEE_SUCCESS s'
    /\ status (inst s') = TRNG_UNINITIALIZED
    /\ dfin (inst s') = dfin (inst hrng_expired_state).
Proof.
  destruct (@trng_release_effects build_v1 hrng_expired_state)
    as [s' [Hrun [_ [Hst [_ [_ [_ [Hdfin _]]]]]]]].
  - cbn. discriminate.
  - exists s'. split; [exact Hrun|]. split; [exact Hst|exact Hdfin].
Defined.

Lemma trng_release_refuses_uninitialized_witness :
  @trng_release build_v1 TRNG_INSTANCE (fresh_state TRNG_V1 mock_read)
  = Ok TEE_ERROR_GENERIC (with_status TRNG_ERROR (fresh_state TRNG_V1 mock_read)).
Proof.
  apply (@trng_release_refuses_uninitialized build_v1
           (fresh_state TRNG_V1 mock_read)).
  reflexivity.
Defined.

(** DRNG mode without an initial seed. *)
Lemma trng_instantiate_rejects_witness :
  let u := mk_usr_cfg TRNG_DRNG 5 false false false 2 (zeros 160) (zeros 48)
                      false in
  @trng_instantiate build_v1 TRNG_INSTANCE (Some u)
    (fresh_state TRNG_V1 mock_read)
  = Ok TEE_ERROR_GENERIC (with_status TRNG_ERROR (fresh_state TRNG_V1 mock_read)).
Proof.
  intros u.
  apply (@trng_instantiate_rejects build_v1 (Some u)
           (fresh_state TRNG_V1 mock_read)).
  right. right. exists u. split; [reflexivity|].
  right. right. left. split; reflexivity.
Defined.

Lemma trng_instantiate_ptrng_witness :
  exists s',
    @trng_instantiate build_v1 TRNG_INSTANCE (Some ptrng_df_cfg)
      (fresh_state TRNG_V2 mock_read) = Ok TEE_SUCCESS s'
    /\ status (inst s') = TRNG_HEALTHY
    /\ write_addrs (new_events (fresh_state TRNG_V2 mock_read) s')
       = map (Z.add MOCK_ADDR)
             [TRNG_RESET; TRNG_RESET; TRNG_CTRL; TRNG_CTRL;
              TRNG_CTRL_3; TRNG_CTRL_2; TRNG_CTRL_2].
Proof.
  destruct (@trng_instantiate_ptrng build_v1 ptrng_df_cfg
              (fresh_state TRNG_V2 mock_read))
    as [s' [Hrun [Hst [_ [_ Hw]]]]]; try reflexivity.
  - left. split; [reflexivity|].
    unfold TRNG_MIN_DFLENMULT, TRNG_MAX_DFLENMULT. cbn. lia.
  - exists s'. split; [exact Hrun|]. split; [exact Hst|exact Hw].
Defined.

(** A buffer of 16 bytes is too short. *)
Lemma trng_generate_refused_witness :
  exists s',
    @trng_generate build_v1 TRNG_INSTANCE (Some (zeros 16)) 16 false
      hrng_expired_state
    = Ok (TEE_ERROR_GENERIC, Some (zeros 16)) s'
    /\ dev s' = dev hrng_expired_state
    /\ status (inst s') = TRNG_ERROR.
Proof.
  destruct (@trng_generate_refused build_v1 (Some (zeros 16)) 16 false
              hrng_expired_state)
    as [s' [Hrun [Hdev [Hst _]]]].
  - right. left. unfold TRNG_SEC_STRENGTH_LEN. lia.
  - exists s'. split; [exact Hrun|]. split; [exact Hdev|exact Hst].
Defined.

Lemma get_random_bytes_unhealthy_panics_witness :
  @versal_trng_get_random_bytes build_v1 TRNG_INSTANCE (Some (zeros 32)) 32
    (fresh_state TRNG_V1 mock_read)
  = Panic (with_status TRNG_ERROR (fresh_state TRNG_V1 mock_read)).
Proof.
  apply (@get_random_bytes_unhealthy_panics build_v1 (Some (zeros 32)) 32
           (fresh_state TRNG_V1 mock_read)).
  - lia.
  - left. cbn. discriminate.
Defined.

(** A reseed with the seed the instance was created with. *)
Lemma trng_reseed_rejects_witness :
  @trng_reseed build_v1 TRNG_INSTANCE (Some kat_ext_seed) 2 kat_instance
  = Ok TEE_ERROR_GENERIC (with_status TRNG_ERROR kat_instance).
Proof.
  apply (@trng_reseed_rejects build_v1 (Some kat_ext_seed) 2 kat_instance).
  right. exists kat_ext_seed, kat_ext_seed.
  split; [reflexivity|]. split; vm_compute; reflexivity.
Defined.

(** A device whose [STATUS] never shows DONE: the reseed of
    [trng_instantiate] times out. *)
Lemma error_return_sets_status_error_witness :
  let o := @trng_instantiate build_v1 TRNG_INSTANCE (Some (kat_cfg 5))
             (fresh_state TRNG_V1 (fun _ _ => 0)) in
  status (inst (final o)) = TRNG_ERROR.
Proof.
  intros o.
  assert (Hrun : o = Ok TEE_ERROR_GENERIC (final o))
    by (apply returned_ok; vm_compute; reflexivity).
  exact (@error_return_sets_status_error build_v1 (Some (kat_cfg 5))
           None None 0 (fresh_state TRNG_V1 (fun _ _ => 0)) (final o)
           (or_introl Hrun)).
Defined.

Lemma generate_error_never_healthy_witness :
  let o := @trng_generate build_v1 TRNG_INSTANCE (Some (zeros 32)) 32
             false (fresh_state TRNG_V1 mock_read) in
  status (inst (final o)) = TRNG_ERROR
  \/ status (inst (final o)) = TRNG_CATASTROPHIC.
Proof.
  intros o.
  assert (Hrun : o = Ok (TEE_ERROR_GENERIC, Some (zeros 32)) (final o))
    by (apply returned_ok; vm_compute; reflexivity).
  exact (@generate_error_never_healthy build_v1 (Some (zeros 32))
           (Some (zeros 32)) 32 false (fresh_state TRNG_V1 mock_read)
           (final o) Hrun).
Defined.

Lemma collect_random_delivers_words_witness :
  let s := fresh_state TRNG_V1 mock_read in
  let o := trng_collect_random (Some (zeros 40)) 32 s in
  let dst' := match returned o with Some (_, d) => d | None => None end in
  let ws := reads_at (addr (cfg (inst s)) + TRNG_CORE_OUTPUT)
                     (new_events s (final o)) in
  let n := Z.to_nat (usize 32 / TRNG_BURST_SIZE) in
  length ws = (4 * n)%nat
  /\ dst' = Some (flat_map be32_bytes ws ++ skipn (16 * n) (zeros 40))
  /\ status (inst (final o)) = status (inst s).
Proof.
  intros s o dst'.
  assert (Hrun : o = Ok (TEE_SUCCESS, dst') (final o))
    by (apply returned_ok; vm_compute; reflexivity).
  exact (collect_random_delivers_words (zeros 40) 32 s (final o) dst'
           eq_refl ltac:(vm_compute; discriminate) Hrun).
Defined.

Lemma generate_delivers_device_words_witness :
  let o := @trng_generate build_v1 TRNG_INSTANCE (Some (zeros 32)) 32 false
             kat_instance in
  let b' := match returned o with Some (_, d) => d | None => None end in
  let ws := reads_at (addr (cfg (inst kat_instance)) + TRNG_CORE_OUTPUT)
                     (new_events kat_instance (final o)) in
  length ws = 8%nat
  /\ b' = Some (flat_map be32_bytes ws ++ skipn 32 (zeros 32))
  /\ status (inst (final o)) = TRNG_HEALTHY.
Proof.
  intros o b'.
  assert (Hrun : o = Ok (TEE_SUCCESS, b') (final o))
    by (apply returned_ok; vm_compute; reflexivity).
  destruct (@generate_delivers_device_words build_v1 (zeros 32) 32 false
              kat_instance (final o) b'
              ltac:(vm_compute; reflexivity) ltac:(cbn; lia)
              ltac:(left; vm_compute; reflexivity) Hrun)
    as [_ [Hlen [Hb [_ [Hst _]]]]].
  split; [exact Hlen|]. split; [exact Hb|exact Hst].
Defined.

Lemma write_perstr_same_as_range_witness :
  exists s',
    trng_write_perstr kat_pers_str (fresh_state TRNG_V2 mock_read) = Ok 0 s'
    /\ trng_write32_range TRNG_PER_STRING_0 TRNG_PERS_STR_REGS
         (Some kat_pers_str) (fresh_state TRNG_V2 mock_read) = Ok tt s'.
Proof.
  apply (write_perstr_same_as_range kat_pers_str
           (fresh_state TRNG_V2 mock_read)).
  cbn. lia.
Defined.

Lemma pack_word_be32_bytes_witness :
  pack_word (be32_bytes 0x01020304) = 0x01020304.
Proof. apply (pack_word_be32_bytes 0x01020304). lia. Defined.

Lemma trng_instantiate_success_witness :
  let o := @trng_instantiate build_v1 TRNG_INSTANCE (Some (kat_cfg 5))
             (fresh_state TRNG_V1 mock_read) in
  status (inst (final o)) = TRNG_HEALTHY
  /\ usr_cfg (inst (final o)) = kat_cfg 5
  /\ ~ cfg_rejected (kat_cfg 5).
Proof.
  intros o.
  assert (Hrun : o = Ok TEE_SUCCESS (final o))
    by (apply returned_ok; vm_compute; reflexivity).
  destruct (@trng_instantiate_success build_v1 (kat_cfg 5)
              (fresh_state TRNG_V1 mock_read) (final o) Hrun)
    as [_ [Hrej [Hst [Hu _]]]].
  split; [exact Hst|]. split; [exact Hu|exact Hrej].
Defined.

(** A reseed of the KAT instance with another seed. *)
Lemma trng_reseed_success_witness :
  let o := @trng_reseed build_v1 TRNG_INSTANCE (Some kat_pers_str) 2
             kat_instance in
  stats (inst (final o)) = mk_stats (bytes (stats (inst kat_instance))) 0 0
  /\ usr_cfg (inst (final o)) = usr_cfg (inst kat_instance).
Proof.
  intros o.
  assert (Hrun : o = Ok TEE_SUCCESS (final o))
    by (apply returned_ok; vm_compute; reflexivity).
  destruct (@trng_reseed_success build_v1 (Some kat_pers_str) 2
              kat_instance (final o) Hrun)
    as [_ [_ [_ [Hs [Hu _]]]]].
  split; [exact Hs|exact Hu].
Defined.

Lemma generate_hrng_reseed_restarts_life_witness :
  let o := @trng_generate build_v1 TRNG_INSTANCE (Some (zeros 32)) 32 false
             hrng_expired_state in
  stats (inst (final o))
  = mk_stats (@ustat build_v1 (bytes (stats (inst hrng_expired_state)) + 32))
             (@ustat build_v1 (0 + 32)) (@ustat build_v1 (0 + 1)).
Proof.
  intros o.
  assert (Hrun : o = Ok (TEE_SUCCESS,
                         match returned o with
                         | Some (_, d) => d
                         | None => None
                         end) (final o))
    by (apply returned_ok; vm_compute; reflexivity).
  assert (Hdue : elapsed_seed_life (stats (inst hrng_expired_state))
                 >= seed_life (usr_cfg (inst hrng_expired_state))
                 \/ (false = true
                     /\ elapsed_seed_life (stats (inst hrng_expired_state)) > 0)).
  { left. cbn. lia. }
  exact (@generate_hrng_reseed_restarts_life build_v1 (zeros 32) 32 false
           hrng_expired_state (final o)
           (match returned o with Some (_, d) => d | None => None end)
           eq_refl Hdue Hrun).
Defined.

Lemma trng_health_test_outcome_witness :
  let o := @trng_health_test build_v1 TRNG_INSTANCE
             (fresh_state TRNG_V1 mock_read) in
  status (inst (final o)) = TRNG_UNINITIALIZED
  /\ usr_cfg (inst (final o)) = @usr_cfg_zero build_v1 (@health_tests build_v1).
Proof.
  intros o.
  assert (Hrun : o = Ok TEE_SUCCESS (final o))
    by (apply returned_ok; vm_compute; reflexivity).
  destruct (@trng_health_test_outcome build_v1 TEE_SUCCESS
              (fresh_state TRNG_V1 mock_read) (final o) Hrun)
    as [_ [Hs Hu]].
  split; [exact Hs|exact Hu].
Defined.

Lemma trng_kat_test_known_answer_witness :
  let s := fresh_state TRNG_V1 kat_device_read in
  let o := @trng_kat_test build_v1 TRNG_INSTANCE s in
  returned o = Some TEE_SUCCESS
  /\ status (inst (final o)) = TRNG_UNINITIALIZED
  /\ exists s1 s2 : state,
       flat_map be32_bytes
         (reads_at (addr (cfg (inst s)) + TRNG_CORE_OUTPUT) (new_events s1 s2))
       = kat_expected_out.
Proof.
  intros s o.
  assert (Hret : returned o = Some TEE_SUCCESS) by (vm_compute; reflexivity).
  destruct (@trng_kat_test_known_answer build_v1 s (final o) eq_refl
              (returned_ok o TEE_SUCCESS Hret))
    as [s1 [s2 [out [_ [_ [_ [Hws Hst]]]]]]].
  split; [exact Hret|]. split; [exact Hst|].
  exists s1, s2. exact Hws.
Defined.

(** Forty bytes from the KAT instance: one whole block and a remainder
    of eight bytes. *)
Lemma get_random_bytes_returns_success_witness :
  let o := @versal_trng_get_random_bytes build_v1 TRNG_INSTANCE
             (Some (zeros 40)) 40 kat_instance in
  let x := match returned o with
           | Some x => x
           | None => (TEE_ERROR_GENERIC, None)
           end in
  fst x = TEE_SUCCESS
  /\ (0 < 40 ->
      status (inst kat_instance) = TRNG_HEALTHY
      /\ (mode (usr_cfg (inst kat_instance)) = TRNG_DRNG ->
          elapsed_seed_life (stats (inst kat_instance))
          <= seed_life (usr_cfg (inst kat_instance)))).
Proof.
  intros o x.
  assert (Hrun : o = Ok (fst x, snd x) (final o))
    by (apply returned_ok; vm_compute; reflexivity).
  exact (@get_random_bytes_returns_success build_v1 (Some (zeros 40)) (snd x)
           40 (fst x) kat_instance (final o) Hrun).
Defined.
